(** * A tile-based platformer: movement, collision, level generation

    Shallow embedding of [src/main.js]: the [Input] snapshot, the [Player]
    controller, the [Level] (tile grid, coins, moving hazards, collision
    resolver) and the [Game] session (level generator, level lifecycle,
    best times), with its camera ([Camera]) and its skins and saved
    progress ([Skins]).

    Conventions of the embedding.
    - A JavaScript number is an exact rational ([Q]); tile indices, which the
      source obtains through [Math.floor], are integers ([Z]).  The rounding
      of IEEE doubles is not modelled.
    - A tile is a character ([ascii]); a grid is a list of rows; a level
      template is a list of strings, as [generateLevel] returns it.
    - Code that can raise a [TypeError] (an index into an [undefined] row, a
      method call on [null]) returns [option], [None] standing for the
      exception; [x ← e; k] is the bind of that monad.  What the code wrote
      before it raised is not modelled: a history of events ([Game.run])
      ends at the first exception.
    - [Math.random] and [performance.now] are external: the random source is
      a stream [nat → Q] read at a call counter, clock readings come with the
      event that triggers the code. *)

From Stdlib Require Import QArith Qround Qabs Qminmax Lqa ZArith String Ascii List.
From stdpp Require Import base option list gmap.

Local Open Scope char_scope.
Local Open Scope Z_scope.

(** ** Numbers *)

Definition Qltb (a b : Q) : bool := negb (Qle_bool b a).
Definition Qgtb (a b : Q) : bool := Qltb b a.
Definition Qleb (a b : Q) : bool := Qle_bool a b.
Definition Qneqb (a b : Q) : bool := negb (Qeq_bool a b).

(** [Math.floor (a / b)] as a tile index. *)
Definition floorDiv (a b : Q) : Z := Qfloor (a / b).

(** [for (let i = 0; i < n; i++) body(i)] over a state [S]. *)
Definition forUpTo {S : Type} (n : Z) (body : Z → S → S) (s : S) : S :=
  foldl (λ acc i, body i acc) s (seqZ 0 n).

(** A loop whose body may raise. *)
Fixpoint foldM {A S : Type} (body : A → S → option S) (l : list A) (s : S)
  : option S :=
  match l with
  | [] => Some s
  | a :: l' => s' ← body a s; foldM body l' s'
  end.

(** [for (let i = lo; i <= hi; i++) body(i)]. *)
Definition forRange {S : Type} (lo hi : Z) (body : Z → S → option S) (s : S)
  : option S :=
  foldM body (seqZ lo (hi - lo + 1)) s.

(** ** Tile grids *)

Abbreviation Grid := (list (list ascii)).

(** [map[r][c] = ch].  The list update does nothing out of range, where
    JavaScript would extend the row; every write of this program is in range
    (see [generateLevel_writes_in_range] and the guard of [checkTile]). *)
Definition setTile (r c : Z) (ch : ascii) (m : Grid) : Grid :=
  if (r <? 0) || (c <? 0) then m
  else alter (λ row, <[Z.to_nat c := ch]> row) (Z.to_nat r) m.

(** [map[r][c]] where row [r] exists: [None] is JavaScript's [undefined]. *)
Definition getTile (r c : Z) (m : Grid) : option ascii :=
  if (r <? 0) || (c <? 0) then None
  else row ← m !! Z.to_nat r; row !! Z.to_nat c.

(** ** Input *)

Module Input.

Record t := {
  left : bool;
  right : bool;
  down : bool;
  jumpRequested : bool;
}.

(** No key held, no jump queued: the initial object. *)
Definition initial : t :=
  {| left := false; right := false; down := false; jumpRequested := false |}.

(** [consumeJump()]: the answer and the input object after the call. *)
Definition consumeJump (i : t) : bool * t :=
  if jumpRequested i
  then (true,
        {| left := left i; right := right i; down := down i;
           jumpRequested := false |})
  else (false, i).

End Input.

(** ** The fields of class Player

    The methods of [Player] call [Level.collide], which reads and writes the
    player; the fields come first, the methods follow in [Module Player]
    after [Module Level].  The fields the constructor sets and no code
    assigns again ([width], [baseHeight], [acc], [maxSpeed], [jumpForce],
    [gravity], [slideDuration]) are constants; [color] is used for drawing
    only and is left out. *)

Module PlayerState.

Local Open Scope Q_scope.

Definition width : Q := 24.
Definition baseHeight : Q := 40.
Definition acc : Q := 0.4.
Definition maxSpeed : Q := 5.5.
Definition jumpForce : Q := 9.
Definition gravity : Q := 0.45.
Definition slideDuration : Q := 15.

Record t := {
  x : Q;
  y : Q;
  height : Q;
  velX : Q;
  velY : Q;
  onGround : bool;
  onWall : bool;
  wallDir : Q;
  sliding : bool;
  slideTimer : Q;
  dive : bool;
  coyoteTimer : Q;
  jumpBuffer : Q;
}.

(** [new Player(spawnX, spawnY, skinColor)]. *)
Definition new (spawnX spawnY : Q) : t :=
  {| x := spawnX; y := spawnY; height := 40; velX := 0; velY := 0;
     onGround := false; onWall := false; wallDir := 0; sliding := false;
     slideTimer := 0; dive := false; coyoteTimer := 0; jumpBuffer := 0 |}.

(** Field assignments [this.f = v]. *)
Definition set_x (v : Q) (p : t) : t :=
  {| x := v; y := y p; height := height p; velX := velX p; velY := velY p;
     onGround := onGround p; onWall := onWall p; wallDir := wallDir p;
     sliding := sliding p; slideTimer := slideTimer p; dive := dive p;
     coyoteTimer := coyoteTimer p; jumpBuffer := jumpBuffer p |}.
Definition set_y (v : Q) (p : t) : t :=
  {| x := x p; y := v; height := height p; velX := velX p; velY := velY p;
     onGround := onGround p; onWall := onWall p; wallDir := wallDir p;
     sliding := sliding p; slideTimer := slideTimer p; dive := dive p;
     coyoteTimer := coyoteTimer p; jumpBuffer := jumpBuffer p |}.
Definition set_height (v : Q) (p : t) : t :=
  {| x := x p; y := y p; height := v; velX := velX p; velY := velY p;
     onGround := onGround p; onWall := onWall p; wallDir := wallDir p;
     sliding := sliding p; slideTimer := slideTimer p; dive := dive p;
     coyoteTimer := coyoteTimer p; jumpBuffer := jumpBuffer p |}.
Definition set_velX (v : Q) (p : t) : t :=
  {| x := x p; y := y p; height := height p; velX := v; velY := velY p;
     onGround := onGround p; onWall := onWall p; wallDir := wallDir p;
     sliding := sliding p; slideTimer := slideTimer p; dive := dive p;
     coyoteTimer := coyoteTimer p; jumpBuffer := jumpBuffer p |}.
Definition set_velY (v : Q) (p : t) : t :=
  {| x := x p; y := y p; height := height p; velX := velX p; velY := v;
     onGround := onGround p; onWall := onWall p; wallDir := wallDir p;
     sliding := sliding p; slideTimer := slideTimer p; dive := dive p;
     coyoteTimer := coyoteTimer p; jumpBuffer := jumpBuffer p |}.
Definition set_onGround (v : bool) (p : t) : t :=
  {| x := x p; y := y p; height := height p; velX := velX p; velY := velY p;
     onGround := v; onWall := onWall p; wallDir := wallDir p;
     sliding := sliding p; slideTimer := slideTimer p; dive := dive p;
     coyoteTimer := coyoteTimer p; jumpBuffer := jumpBuffer p |}.
Definition set_onWall (v : bool) (p : t) : t :=
  {| x := x p; y := y p; height := height p; velX := velX p; velY := velY p;
     onGround := onGround p; onWall := v; wallDir := wallDir p;
     sliding := sliding p; slideTimer := slideTimer p; dive := dive p;
     coyoteTimer := coyoteTimer p; jumpBuffer := jumpBuffer p |}.
Definition set_wallDir (v : Q) (p : t) : t :=
  {| x := x p; y := y p; height := height p; velX := velX p; velY := velY p;
     onGround := onGround p; onWall := onWall p; wallDir := v;
     sliding := sliding p; slideTimer := slideTimer p; dive := dive p;
     coyoteTimer := coyoteTimer p; jumpBuffer := jumpBuffer p |}.
Definition set_sliding (v : bool) (p : t) : t :=
  {| x := x p; y := y p; height := height p; velX := velX p; velY := velY p;
     onGround := onGround p; onWall := onWall p; wallDir := wallDir p;
     sliding := v; slideTimer := slideTimer p; dive := dive p;
     coyoteTimer := coyoteTimer p; jumpBuffer := jumpBuffer p |}.
Definition set_slideTimer (v : Q) (p : t) : t :=
  {| x := x p; y := y p; height := height p; velX := velX p; velY := velY p;
     onGround := onGround p; onWall := onWall p; wallDir := wallDir p;
     sliding := sliding p; slideTimer := v; dive := dive p;
     coyoteTimer := coyoteTimer p; jumpBuffer := jumpBuffer p |}.
Definition set_dive (v : bool) (p : t) : t :=
  {| x := x p; y := y p; height := height p; velX := velX p; velY := velY p;
     onGround := onGround p; onWall := onWall p; wallDir := wallDir p;
     sliding := sliding p; slideTimer := slideTimer p; dive := v;
     coyoteTimer := coyoteTimer p; jumpBuffer := jumpBuffer p |}.
Definition set_coyoteTimer (v : Q) (p : t) : t :=
  {| x := x p; y := y p; height := height p; velX := velX p; velY := velY p;
     onGround := onGround p; onWall := onWall p; wallDir := wallDir p;
     sliding := sliding p; slideTimer := slideTimer p; dive := dive p;
     coyoteTimer := v; jumpBuffer := jumpBuffer p |}.
Definition set_jumpBuffer (v : Q) (p : t) : t :=
  {| x := x p; y := y p; height := height p; velX := velX p; velY := velY p;
     onGround := onGround p; onWall := onWall p; wallDir := wallDir p;
     sliding := sliding p; slideTimer := slideTimer p; dive := dive p;
     coyoteTimer := coyoteTimer p; jumpBuffer := v |}.

End PlayerState.

(** ** Coins and moving hazards *)

Module Coin.

Record t := {
  x : Q;
  y : Q;
  collected : bool;
}.

End Coin.

Module Hazard.

Record t := {
  type : ascii;
  baseX : Q;
  y : Q;
  x : Q;
  width : Q;
  height : Q;
  range : Q;
  dir : Q;
  speed : Q;
}.

End Hazard.

(** ** Level *)

Module Level.

Local Open Scope Q_scope.

Record t := {
  map : Grid;
  rows : Z;
  cols : Z;
  tileSize : Q;
  spawnX : Q;
  spawnY : Q;
  coins : list Coin.t;
  hazards : list Hazard.t;
}.

Definition set_map (m : Grid) (lv : t) : t :=
  {| map := m; rows := rows lv; cols := cols lv; tileSize := tileSize lv;
     spawnX := spawnX lv; spawnY := spawnY lv; coins := coins lv;
     hazards := hazards lv |}.
Definition set_spawn (sx sy : Q) (lv : t) : t :=
  {| map := map lv; rows := rows lv; cols := cols lv; tileSize := tileSize lv;
     spawnX := sx; spawnY := sy; coins := coins lv; hazards := hazards lv |}.
Definition set_coins (cs : list Coin.t) (lv : t) : t :=
  {| map := map lv; rows := rows lv; cols := cols lv; tileSize := tileSize lv;
     spawnX := spawnX lv; spawnY := spawnY lv; coins := cs;
     hazards := hazards lv |}.
Definition set_hazards (hs : list Hazard.t) (lv : t) : t :=
  {| map := map lv; rows := rows lv; cols := cols lv; tileSize := tileSize lv;
     spawnX := spawnX lv; spawnY := spawnY lv; coins := coins lv;
     hazards := hs |}.

(** [ch === c], where [ch] may be [undefined]. *)
Definition isCh (ch : option ascii) (c : ascii) : bool :=
  match ch with
  | Some a => Ascii.eqb a c
  | None => false
  end.

(** The body of the two loops of [parse] at cell [(x, y)].  The state is the
    level and the number of calls made to [Math.random] so far; a moving
    hazard draws twice, first its speed, then its direction. *)
Definition parseCell (rnd : nat → Q) (y x : Z) (s : t * nat) : t * nat :=
  let '(lv, n) := s in
  let ts := tileSize lv in
  let ch := getTile y x (map lv) in
  if isCh ch "P" then
    (set_map (setTile y x " " (map lv))
       (set_spawn (inject_Z x * ts) (inject_Z y * ts) lv), n)
  else if isCh ch "C" then
    let coin :=
      {| Coin.x := inject_Z x * ts + ts / 2;
         Coin.y := inject_Z y * ts + ts / 2;
         Coin.collected := false |} in
    (set_map (setTile y x " " (map lv)) (set_coins (coins lv ++ [coin]) lv), n)
  else if isCh ch "H" then
    let baseX := inject_Z x * ts in
    let baseY := inject_Z y * ts in
    let range := ts * 3 in
    let speed := 2 + rnd n * 1 in
    let hz :=
      {| Hazard.type := "H"; Hazard.baseX := baseX; Hazard.y := baseY;
         Hazard.x := baseX; Hazard.width := ts; Hazard.height := ts;
         Hazard.range := range;
         Hazard.dir := if Qltb (rnd (S n)) 0.5 then -1 else 1;
         Hazard.speed := speed |} in
    (set_map (setTile y x " " (map lv))
       (set_hazards (hazards lv ++ [hz]) lv), S (S n))
  else s.

Definition parse (rnd : nat → Q) (s : t * nat) : t * nat :=
  forUpTo (rows (fst s))
    (λ y s, forUpTo (cols (fst s)) (λ x s, parseCell rnd y x s) s) s.

(** [new Level(mapArray)], with the random source and the number of draws
    made before the call; [this.map[0].length] raises on an empty array. *)
Definition new (rnd : nat → Q) (n : nat) (mapArray : list string)
  : option (t * nat) :=
  let m := list_ascii_of_string <$> mapArray in
  row0 ← m !! 0%nat;
  Some (parse rnd
          ({| map := m; rows := Z.of_nat (length m);
              cols := Z.of_nat (length row0); tileSize := 40;
              spawnX := 0; spawnY := 0; coins := []; hazards := [] |}, n)).

(** One hazard of the loop of [updateHazards]. *)
Definition moveHazard (hz : Hazard.t) : Hazard.t :=
  if Ascii.eqb (Hazard.type hz) "H" then
    let x1 := Hazard.x hz + Hazard.dir hz * Hazard.speed hz in
    if Qltb x1 (Hazard.baseX hz - Hazard.range hz) then
      {| Hazard.type := Hazard.type hz; Hazard.baseX := Hazard.baseX hz;
         Hazard.y := Hazard.y hz;
         Hazard.x := Hazard.baseX hz - Hazard.range hz;
         Hazard.width := Hazard.width hz; Hazard.height := Hazard.height hz;
         Hazard.range := Hazard.range hz;
         Hazard.dir := Hazard.dir hz * -1;
         Hazard.speed := Hazard.speed hz |}
    else if Qgtb x1 (Hazard.baseX hz + Hazard.range hz) then
      {| Hazard.type := Hazard.type hz; Hazard.baseX := Hazard.baseX hz;
         Hazard.y := Hazard.y hz;
         Hazard.x := Hazard.baseX hz + Hazard.range hz;
         Hazard.width := Hazard.width hz; Hazard.height := Hazard.height hz;
         Hazard.range := Hazard.range hz;
         Hazard.dir := Hazard.dir hz * -1;
         Hazard.speed := Hazard.speed hz |}
    else
      {| Hazard.type := Hazard.type hz; Hazard.baseX := Hazard.baseX hz;
         Hazard.y := Hazard.y hz;
         Hazard.x := x1;
         Hazard.width := Hazard.width hz; Hazard.height := Hazard.height hz;
         Hazard.range := Hazard.range hz;
         Hazard.dir := Hazard.dir hz;
         Hazard.speed := Hazard.speed hz |}
  else hz.

(** [updateHazards(dt)]: the argument is not read. *)
Definition updateHazards (dt : Q) (lv : t) : t :=
  set_hazards (moveHazard <$> hazards lv) lv.

Definition isSolid (ch : option ascii) : bool :=
  isCh ch "#" || isCh ch "X" || isCh ch "B".

(** The object [collide] returns; until then its fields are the locals
    [px], [py], [onGround], ... of the method. *)
Record Collision := {
  x : Q;
  y : Q;
  onGround : bool;
  onWall : bool;
  wallDir : Q;
  bounce : bool;
  die : bool;
  win : bool;
  collectedCoin : bool;
}.

(** What the closure [checkTile] can write: the locals of [collide], the
    level (its [map]) and the player (its velocity). *)
Record Scan := {
  locals : Collision;
  level : t;
  player : PlayerState.t;
}.

Definition set_px (v : Q) (c : Collision) : Collision :=
  {| x := v; y := y c; onGround := onGround c; onWall := onWall c;
     wallDir := wallDir c; bounce := bounce c; die := die c; win := win c;
     collectedCoin := collectedCoin c |}.
Definition set_py (v : Q) (c : Collision) : Collision :=
  {| x := x c; y := v; onGround := onGround c; onWall := onWall c;
     wallDir := wallDir c; bounce := bounce c; die := die c; win := win c;
     collectedCoin := collectedCoin c |}.
Definition set_onGround (v : bool) (c : Collision) : Collision :=
  {| x := x c; y := y c; onGround := v; onWall := onWall c;
     wallDir := wallDir c; bounce := bounce c; die := die c; win := win c;
     collectedCoin := collectedCoin c |}.
Definition set_wall (v : bool) (d : Q) (c : Collision) : Collision :=
  {| x := x c; y := y c; onGround := onGround c; onWall := v;
     wallDir := d; bounce := bounce c; die := die c; win := win c;
     collectedCoin := collectedCoin c |}.
Definition set_bounce (v : bool) (c : Collision) : Collision :=
  {| x := x c; y := y c; onGround := onGround c; onWall := onWall c;
     wallDir := wallDir c; bounce := v; die := die c; win := win c;
     collectedCoin := collectedCoin c |}.
Definition set_die (v : bool) (c : Collision) : Collision :=
  {| x := x c; y := y c; onGround := onGround c; onWall := onWall c;
     wallDir := wallDir c; bounce := bounce c; die := v; win := win c;
     collectedCoin := collectedCoin c |}.
Definition set_win (v : bool) (c : Collision) : Collision :=
  {| x := x c; y := y c; onGround := onGround c; onWall := onWall c;
     wallDir := wallDir c; bounce := bounce c; die := die c; win := v;
     collectedCoin := collectedCoin c |}.
Definition set_collectedCoin (v : bool) (c : Collision) : Collision :=
  {| x := x c; y := y c; onGround := onGround c; onWall := onWall c;
     wallDir := wallDir c; bounce := bounce c; die := die c; win := win c;
     collectedCoin := v |}.

(** [checkTile(tx, ty, horizontal)].  [this.map[ty]] on a row that does not
    exist is [undefined] and indexing it raises: that is the [None] of the
    row lookup.  A column that does not exist gives [undefined], which is no
    tile. *)
Definition checkTile (tx ty : Z) (horizontal : bool) (s : Scan)
  : option Scan :=
  let lv := level s in
  let p := player s in
  let c := locals s in
  let ts := tileSize lv in
  let w := PlayerState.width in
  let h := PlayerState.height p in
  if ((ty <? 0) || (ty >=? rows lv) || (tx <? 0) || (tx >=? cols lv))%Z
  then Some s
  else
    row ← map lv !! Z.to_nat ty;
    let ch := row !! Z.to_nat tx in
    if isSolid ch then
      let tileX := inject_Z tx * ts in
      let tileY := inject_Z ty * ts in
      if isCh ch "X" && PlayerState.dive p && Qgtb (PlayerState.velY p) 0
      then
        Some {| locals := c; level := set_map (setTile ty tx " " (map lv)) lv;
                player := p |}
      else if horizontal then
        if Qgtb (PlayerState.velX p) 0 then
          Some {| locals := set_wall true 1 (set_px (tileX - w) c);
                  level := lv; player := PlayerState.set_velX 0 p |}
        else if Qltb (PlayerState.velX p) 0 then
          Some {| locals := set_wall true (-1) (set_px (tileX + ts) c);
                  level := lv; player := PlayerState.set_velX 0 p |}
        else Some s
      else
        let s1 :=
          if Qgtb (PlayerState.velY p) 0 then
            {| locals := set_onGround true (set_py (tileY - h) c);
               level := lv; player := PlayerState.set_velY 0 p |}
          else if Qltb (PlayerState.velY p) 0 then
            {| locals := set_py (tileY + ts) c;
               level := lv; player := PlayerState.set_velY 0 p |}
          else s in
        if isCh ch "B" && Qgtb (PlayerState.velY (player s1)) 0
        then Some {| locals := set_bounce true (locals s1);
                     level := level s1; player := player s1 |}
        else Some s1
    else if isCh ch "S" then
      Some {| locals := set_die true c; level := lv; player := p |}
    else if isCh ch "F" then
      Some {| locals := set_win true c; level := lv; player := p |}
    else Some s.

(** The horizontal pass of [collide]: the rows the body spans at the
    proposed [py], the one column at its moving edge.  [h] is the constant
    [player.height] read at the start of [collide]. *)
Definition sweepHorizontal (h : Q) (s : Scan) : option Scan :=
  let ts := tileSize (level s) in
  let w := PlayerState.width in
  let top := floorDiv (y (locals s)) ts in
  let bottom := floorDiv (y (locals s) + h - 1) ts in
  if Qneqb (PlayerState.velX (player s)) 0 then
    if Qgtb (PlayerState.velX (player s)) 0 then
      let rightEdge := x (locals s) + w in
      let col := floorDiv rightEdge ts in
      forRange top bottom (λ row, checkTile col row true) s
    else
      let leftEdge := x (locals s) in
      let col := floorDiv leftEdge ts in
      forRange top bottom (λ row, checkTile col row true) s
  else Some s.

(** The loop of the vertical pass once the column span is known. *)
Definition sweepColumns (left right : Z) (h : Q) (s : Scan) : option Scan :=
  let ts := tileSize (level s) in
  if Qneqb (PlayerState.velY (player s)) 0 then
    if Qgtb (PlayerState.velY (player s)) 0 then
      let bottomEdge := y (locals s) + h in
      let row := floorDiv bottomEdge ts in
      forRange left right (λ col, checkTile col row false) s
    else
      let topEdge := y (locals s) in
      let row := floorDiv topEdge ts in
      forRange left right (λ col, checkTile col row false) s
  else Some s.

(** The vertical pass of [collide]: [left] and [right] are computed from
    [px] as it is when the pass starts, after the horizontal pass. *)
Definition sweepVertical (h : Q) (s : Scan) : option Scan :=
  let ts := tileSize (level s) in
  let w := PlayerState.width in
  let left := floorDiv (x (locals s)) ts in
  let right := floorDiv (x (locals s) + w - 1) ts in
  sweepColumns left right h s.

(** The test of the coin loop for one coin. *)
Definition coinHit (ts w h px py : Q) (coin : Coin.t) : bool :=
  negb (Coin.collected coin) &&
  (let dx := px + w / 2 - Coin.x coin in
   let dy := py + h / 2 - Coin.y coin in
   Qltb (Qabs dx) (ts / 2) && Qltb (Qabs dy) (ts / 2)).

Definition collectCoins (h : Q) (s : Scan) : Scan :=
  let lv := level s in
  let c := locals s in
  let hit := coinHit (tileSize lv) PlayerState.width h (x c) (y c) in
  {| locals :=
       if existsb hit (coins lv) then set_collectedCoin true c else c;
     level :=
       set_coins
         ((λ coin,
             if hit coin
             then {| Coin.x := Coin.x coin; Coin.y := Coin.y coin;
                     Coin.collected := true |}
             else coin) <$> coins lv) lv;
     player := player s |}.

(** The overlap test of the hazard loop for one hazard. *)
Definition hazardHit (w h px py : Q) (hz : Hazard.t) : bool :=
  Qltb px (Hazard.x hz + Hazard.width hz) && Qgtb (px + w) (Hazard.x hz) &&
  Qltb py (Hazard.y hz + Hazard.height hz) && Qgtb (py + h) (Hazard.y hz).

Definition hitHazards (h : Q) (s : Scan) : Scan :=
  let c := locals s in
  if existsb (hazardHit PlayerState.width h (x c) (y c)) (hazards (level s))
  then {| locals := set_die true c; level := level s; player := player s |}
  else s.

(** The locals of [collide] before the first pass. *)
Definition startScan (lv : t) (p : PlayerState.t) (nextX nextY : Q) : Scan :=
  {| locals :=
       {| x := nextX; y := nextY; onGround := false; onWall := false;
          wallDir := 0; bounce := false; die := false; win := false;
          collectedCoin := false |};
     level := lv; player := p |}.

(** [collide(player, nextX, nextY)]: the returned object, with the level and
    the player as the call leaves them. *)
Definition collide (lv : t) (p : PlayerState.t) (nextX nextY : Q)
  : option Scan :=
  let h := PlayerState.height p in
  s1 ← sweepHorizontal h (startScan lv p nextX nextY);
  s2 ← sweepVertical h s1;
  Some (hitHazards h (collectCoins h s2)).

(** The resolver as the specification words it, to compare with [collide]:
    both passes take their spans from the proposed position, so the columns
    of the vertical pass come from [nextX] and not from the [px] the
    horizontal pass may have corrected. *)
Definition collide_proposed (lv : t) (p : PlayerState.t) (nextX nextY : Q)
  : option Scan :=
  let h := PlayerState.height p in
  let ts := tileSize lv in
  let w := PlayerState.width in
  s1 ← sweepHorizontal h (startScan lv p nextX nextY);
  s2 ← sweepColumns (floorDiv nextX ts) (floorDiv (nextX + w - 1) ts) h s1;
  Some (hitHazards h (collectCoins h s2)).

(** What the constructor establishes and no method breaks: [rows] is the
    number of rows of [map]. *)
Definition wf (lv : t) : Prop := rows lv = Z.of_nat (length (map lv)).

End Level.

(** ** Player *)

Module Player.

Include PlayerState.

Local Open Scope Q_scope.

(** What [update] asks of [Game] before it returns. *)
Inductive Call :=
| CallResetLevel      (* [Game.resetLevel(); return] *)
| CallCompleteLevel   (* [Game.completeLevel(); return] *)
| CallAddCoin         (* [Game.addCoin()] *)
| NoCall.

(** [move]: -1, 0 or 1 from the directional flags. *)
Definition moveOf (inp : Input.t) : Q :=
  let move := 0 in
  let move := if Input.left inp then move - 1 else move in
  let move := if Input.right inp then move + 1 else move in
  move.

(** Horizontal input: acceleration, and friction when there is none. *)
Definition applyInput (inp : Input.t) (p : t) : t :=
  let move := moveOf inp in
  let p := set_velX (velX p + move * acc) p in
  if Qeq_bool move 0 then
    let p := set_velX (velX p * 0.8) p in
    if Qltb (Qabs (velX p)) 0.05 then set_velX 0 p else p
  else p.

(** Cap of the horizontal speed. *)
Definition capSpeed (p : t) : t :=
  let p := if Qgtb (velX p) maxSpeed then set_velX maxSpeed p else p in
  if Qltb (velX p) (- maxSpeed) then set_velX (- maxSpeed) p else p.

(** The condition under which a slide starts on this tick. *)
Definition slideStarts (inp : Input.t) (p : t) : bool :=
  onGround p && Input.down inp && negb (sliding p) && Qgtb (Qabs (velX p)) 2.

Definition startSlide (inp : Input.t) (p : t) : t :=
  if slideStarts inp p then
    let p := set_sliding true p in
    let p := set_slideTimer slideDuration p in
    let p := set_height (baseHeight / 2) p in
    let p := set_y (y p + (baseHeight - height p)) p in
    set_velX (velX p + (if Qgtb (velX p) 0 then 1 else -1)) p
  else p.

Definition handleSlide (dt : Q) (inp : Input.t) (p : t) : t :=
  if sliding p then
    let p := set_slideTimer (slideTimer p - dt) p in
    let p := set_velX (velX p * 0.98) p in
    if Qleb (slideTimer p) 0 || negb (Input.down inp) then
      let p := set_sliding false p in
      let oldHeight := height p in
      let p := set_height baseHeight p in
      set_y (y p - (baseHeight - oldHeight)) p
    else p
  else p.

Definition startDive (inp : Input.t) (p : t) : t :=
  if negb (onGround p) && Input.down inp && negb (dive p)
  then set_velY 12 (set_dive true p)
  else p.

Definition updateCoyote (dt : Q) (p : t) : t :=
  if onGround p then set_coyoteTimer 6 p
  else if Qgtb (coyoteTimer p) 0 then set_coyoteTimer (coyoteTimer p - dt) p
  else p.

(** Jump buffering; [Input.consumeJump()] clears the request. *)
Definition bufferJump (dt : Q) (inp : Input.t) (p : t) : t * Input.t :=
  let '(jump, inp') := Input.consumeJump inp in
  if jump then (set_jumpBuffer 6 p, inp')
  else if Qgtb (jumpBuffer p) 0 then (set_jumpBuffer (jumpBuffer p - dt) p, inp')
  else (p, inp').

Definition tryJump (p : t) : t :=
  if Qgtb (jumpBuffer p) 0 then
    if Qgtb (coyoteTimer p) 0 then
      set_jumpBuffer 0
        (set_coyoteTimer 0 (set_onGround false (set_velY (- jumpForce) p)))
    else if onWall p then
      set_jumpBuffer 0
        (set_onWall false
           (set_velX (- wallDir p * (maxSpeed * 0.8))
              (set_velY (- jumpForce * 0.9) p)))
    else p
  else p.

Definition applyGravity (p : t) : t :=
  let p := set_velY (velY p + gravity) p in
  if Qgtb (velY p) 15 then set_velY 15 p else p.

(** [update] from its first statement to the gravity step: everything
    before the proposed position is computed. *)
Definition integrate (dt : Q) (inp : Input.t) (p : t) : t * Input.t :=
  let p := applyInput inp p in
  let p := capSpeed p in
  let p := startSlide inp p in
  let p := handleSlide dt inp p in
  let p := startDive inp p in
  let p := updateCoyote dt p in
  let '(p, inp') := bufferJump dt inp p in
  let p := tryJump p in
  (applyGravity p, inp').

(** The state [update] leaves behind and the call it makes to [Game]. *)
Record Outcome := {
  player : t;
  level : Level.t;
  input : Input.t;
  call : Call;
}.

(** [update(dt, level)], reading the global [Input]. *)
Definition update (dt : Q) (inp : Input.t) (lv : Level.t) (p : t)
  : option Outcome :=
  let '(p, inp') := integrate dt inp p in
  let nextX := x p + velX p in
  let nextY := y p + velY p in
  s ← Level.collide lv p nextX nextY;
  let coll := Level.locals s in
  let lv' := Level.level s in
  let p := Level.player s in
  let p := set_x (Level.x coll) p in
  let p := set_y (Level.y coll) p in
  let p := set_onGround (Level.onGround coll) p in
  let p := set_onWall (Level.onWall coll) p in
  let p := set_wallDir (Level.wallDir coll) p in
  let p :=
    if Level.bounce coll
    then set_dive false (set_velY (- jumpForce * 1.5) p)
    else p in
  if Level.die coll then
    Some {| player := p; level := lv'; input := inp'; call := CallResetLevel |}
  else if Level.win coll then
    Some {| player := p; level := lv'; input := inp';
            call := CallCompleteLevel |}
  else
    let c := if Level.collectedCoin coll then CallAddCoin else NoCall in
    let p := if onGround p then set_dive false p else p in
    Some {| player := p; level := lv'; input := inp'; call := c |}.

End Player.

(** ** Skins and saved progress

    The skins of [Game.skins], the object [saveProgress] stores and what
    [buildSkins] makes of it.  [localStorage] holds the object itself: the
    text [JSON.stringify] produces and [JSON.parse] reads back is not
    modelled. *)

Module Skins.

Local Open Scope Z_scope.

Record Skin := {
  color : string;
  price : Z;
  unlocked : bool;
}.

(** The object [saveProgress] stores.  A field is [None] when the stored
    object lacks it (or holds a value that [||] takes for false). *)
Record Saved := {
  savedCoins : option Z;
  savedSkins : option (list bool);
  savedSelectedSkinIndex : option Z;
  savedBestTimes : option (gmap Z Q);
}.

Definition colours : list string :=
  ["#ffffff"; "#00ffff"; "#ff00ff"; "#00ff00"; "#ffa500"; "#ff4444"]%string.

(** [colours.map((c, idx) => ...)]: the price grows with the index. *)
Definition freshSkins : list Skin :=
  imap (λ idx c,
          {| color := c; price := Z.of_nat idx * 20; unlocked := false |})
    colours.

Definition unlock (sk : Skin) : Skin :=
  {| color := color sk; price := price sk; unlocked := true |}.

(** [this.skins[idx].unlocked = true]; raises when there is no such skin. *)
Definition unlockAt (idx : nat) (sks : list Skin) : option (list Skin) :=
  sk ← sks !! idx; Some (<[idx := unlock sk]> sks).

(** The [forEach] of [buildSkins] over the saved flags, from index [idx]. *)
Fixpoint mergeUnlocked (idx : nat) (flags : list bool) (sks : list Skin)
  : option (list Skin) :=
  match flags with
  | [] => Some sks
  | f :: flags' =>
      sks' ← (if f then unlockAt idx sks else Some sks);
      mergeUnlocked (S idx) flags' sks'
  end.

(** [buildSkins()]: the skins and the selected index, which stays what it
    was ([selected]) unless saved skins are found. *)
Definition buildSkins (saved : option Saved) (selected : Z)
  : option (list Skin * Z) :=
  sks ← unlockAt 0 freshSkins;
  match saved with
  | Some d =>
      match savedSkins d with
      | Some flags =>
          sks' ← mergeUnlocked 0 flags sks;
          Some (sks', default 0 (savedSelectedSkinIndex d))
      | None => Some (sks, selected)
      end
  | None => Some (sks, selected)
  end.

(** [this.skins[i]], [undefined] off the list. *)
Definition skinAt (i : Z) (sks : list Skin) : option Skin :=
  if i <? 0 then None else sks !! Z.to_nat i.

(** A button of the skins list as [buildSkinsUI] makes it: "Select" on a
    skin that is unlocked, "Buy" on one that is not, each with its
    [disabled] flag.  A disabled button does not run its handler. *)
Inductive Button :=
| Select (disabled : bool)
| Buy (disabled : bool).

End Skins.

(** ** Game

    The session object.  Drawing and the level list of the page are not
    modelled, the camera is modelled apart ([Camera]), and of the write to
    [localStorage] only the object written ([saveProgress]).  Besides the
    fields of the object literal the record carries the global state the
    session code reads and writes: the [Input] object, the number of calls
    made to [Math.random], and the buttons of the skins list as the last
    [buildSkinsUI] left them. *)

Module Game.

Local Open Scope Z_scope.

(** *** generateLevel *)

Definition gen_height : Z := 12.
Definition gen_width : Z := 40.

(** Column of the [h]-th static hazard, with the shift off the flag column. *)
Definition hazardCol (index h : Z) : Z :=
  let col := Z.rem (index * 7 + h * 11) (gen_width - 4) + 2 in
  if col =? gen_width - 2 then Z.rem (col + 5) (gen_width - 4) + 2 else col.

Definition breakableCol (index b : Z) : Z :=
  Z.rem (index * 5 + b * 13) (gen_width - 6) + 3.
Definition coinCol (index c : Z) : Z :=
  Z.rem (index * 3 + c * 13) (gen_width - 6) + 3.
Definition platformCol (index p : Z) : Z :=
  Z.rem (index * 6 + p * 12) (gen_width - 10) + 5.
Definition movingCol (index mh : Z) : Z :=
  Z.rem (index * 4 + mh * 17) (gen_width - 10) + 5.

Definition blankMap : Grid :=
  replicate (Z.to_nat gen_height) (replicate (Z.to_nat gen_width) " ").

(** The grid of characters [generateLevel] builds, before the rows are
    joined into strings.  The steps run in the order of the source, so a
    later step overwrites an earlier one on the same cell. *)
Definition generateGrid (index : Z) : Grid :=
  let height := gen_height in
  let width := gen_width in
  let map := blankMap in
  (* ground on the last row *)
  let map := forUpTo width (λ c m, setTile (height - 1) c "#" m) map in
  (* spawn, flag *)
  let map := setTile (height - 2) 1 "P" map in
  let map := setTile (height - 2) (width - 2) "F" map in
  (* static hazards *)
  let hazardCount := 2 + index / 10 in
  let map :=
    forUpTo hazardCount (λ h m, setTile (height - 2) (hazardCol index h) "S" m)
      map in
  (* bounce pad every third level *)
  let map :=
    if Z.rem index 3 =? 0 then setTile (height - 2) (width / 2) "B" map
    else map in
  (* breakable tiles *)
  let breakCount := Z.rem index 3 in
  let map :=
    forUpTo breakCount
      (λ b m, setTile (height - 3) (breakableCol index b) "X" m) map in
  (* coins *)
  let coinCount := 3 in
  let map :=
    forUpTo coinCount (λ c m, setTile (height - 4) (coinCol index c) "C" m)
      map in
  (* floating platforms, four tiles wide *)
  let platformCount := 2 + Z.rem index 3 in
  let map :=
    forUpTo platformCount
      (λ p m,
         forUpTo 4 (λ k m, setTile (height - 5) (platformCol index p + k) "#" m)
           m)
      map in
  (* moving hazards *)
  let movingCount := Z.rem index 2 in
  forUpTo movingCount (λ mh m, setTile (height - 4) (movingCol index mh) "H" m)
    map.

(** [map.map((row) => row.join(''))]. *)
Definition generateLevel (index : Z) : list string :=
  string_of_list_ascii <$> generateGrid index.

(** Number of cells of a template that hold [ch]. *)
Definition countTile (ch : ascii) (tpl : list string) : nat :=
  sum_list
    ((λ row, length (filter (λ c, c = ch) (list_ascii_of_string row))) <$> tpl).

(** The cell at row [r], column [c] of a template. *)
Definition templateTile (r c : Z) (tpl : list string) : option ascii :=
  getTile r c (list_ascii_of_string <$> tpl).

(** Number of maximal runs of [ch] in a row: a platform is one run. *)
Fixpoint countRuns (ch : ascii) (inRun : bool) (row : list ascii) : nat :=
  match row with
  | [] => 0
  | c :: row' =>
      if Ascii.eqb c ch
      then (if inRun then 0 else 1) + countRuns ch true row'
      else countRuns ch false row'
  end%nat.

(** Platforms above the ground: the runs of solid tiles on every row but
    the last. *)
Definition floatingPlatforms (tpl : list string) : nat :=
  sum_list
    ((λ row, countRuns "#" false (list_ascii_of_string row)) <$> removelast tpl).

(** *** Session state *)

(** The values of [Game.state]; [skinsScreen] is ['skins'], named after the
    overlay it shows since [skins] is the list of skins. *)
Inductive State :=
  menu | playing | paused | complete | levelSelect | skinsScreen.

Record t := {
  state : State;
  levels : list (list string);
  currentLevelIndex : Z;
  level : option Level.t;
  player : option Player.t;
  coins : Z;
  sessionCoins : Z;
  skins : list Skins.Skin;
  selectedSkinIndex : Z;
  bestTimes : gmap Z Q;
  levelStartTime : Q;
  currentTime : Q;
  lastFrame : Q;
  input : Input.t;
  randomCalls : nat;
  skinsListDiv : list Skins.Button;
}.

Definition totalLevels : Z := 50.

(** The object literal, before [init()]. *)
Definition initial : t :=
  {| state := menu; levels := []; currentLevelIndex := 0; level := None;
     player := None; coins := 0; sessionCoins := 0; skins := [];
     selectedSkinIndex := 0; bestTimes := ∅; levelStartTime := 0%Q;
     currentTime := 0%Q; lastFrame := 0%Q; input := Input.initial;
     randomCalls := 0%nat; skinsListDiv := [] |}.

(** [buildLevels()], from the empty list of the object literal. *)
Definition buildLevels : list (list string) :=
  forUpTo totalLevels (λ i lvls, lvls ++ [generateLevel i]) [].

Definition set_state (v : State) (g : t) : t :=
  {| state := v; levels := levels g;
     currentLevelIndex := currentLevelIndex g; level := level g;
     player := player g; coins := coins g; sessionCoins := sessionCoins g;
     skins := skins g; selectedSkinIndex := selectedSkinIndex g;
     bestTimes := bestTimes g; levelStartTime := levelStartTime g;
     currentTime := currentTime g; lastFrame := lastFrame g;
     input := input g; randomCalls := randomCalls g;
     skinsListDiv := skinsListDiv g |}.
Definition set_input (v : Input.t) (g : t) : t :=
  {| state := state g; levels := levels g;
     currentLevelIndex := currentLevelIndex g; level := level g;
     player := player g; coins := coins g; sessionCoins := sessionCoins g;
     skins := skins g; selectedSkinIndex := selectedSkinIndex g;
     bestTimes := bestTimes g; levelStartTime := levelStartTime g;
     currentTime := currentTime g; lastFrame := lastFrame g; input := v;
     randomCalls := randomCalls g; skinsListDiv := skinsListDiv g |}.
Definition set_levelStartTime (v : Q) (g : t) : t :=
  {| state := state g; levels := levels g;
     currentLevelIndex := currentLevelIndex g; level := level g;
     player := player g; coins := coins g; sessionCoins := sessionCoins g;
     skins := skins g; selectedSkinIndex := selectedSkinIndex g;
     bestTimes := bestTimes g; levelStartTime := v;
     currentTime := currentTime g; lastFrame := lastFrame g;
     input := input g; randomCalls := randomCalls g;
     skinsListDiv := skinsListDiv g |}.
Definition set_currentTime (v : Q) (g : t) : t :=
  {| state := state g; levels := levels g;
     currentLevelIndex := currentLevelIndex g; level := level g;
     player := player g; coins := coins g; sessionCoins := sessionCoins g;
     skins := skins g; selectedSkinIndex := selectedSkinIndex g;
     bestTimes := bestTimes g; levelStartTime := levelStartTime g;
     currentTime := v; lastFrame := lastFrame g; input := input g;
     randomCalls := randomCalls g; skinsListDiv := skinsListDiv g |}.
Definition set_lastFrame (v : Q) (g : t) : t :=
  {| state := state g; levels := levels g;
     currentLevelIndex := currentLevelIndex g; level := level g;
     player := player g; coins := coins g; sessionCoins := sessionCoins g;
     skins := skins g; selectedSkinIndex := selectedSkinIndex g;
     bestTimes := bestTimes g; levelStartTime := levelStartTime g;
     currentTime := currentTime g; lastFrame := v; input := input g;
     randomCalls := randomCalls g; skinsListDiv := skinsListDiv g |}.
Definition set_sessionCoins (v : Z) (g : t) : t :=
  {| state := state g; levels := levels g;
     currentLevelIndex := currentLevelIndex g; level := level g;
     player := player g; coins := coins g; sessionCoins := v;
     skins := skins g; selectedSkinIndex := selectedSkinIndex g;
     bestTimes := bestTimes g; levelStartTime := levelStartTime g;
     currentTime := currentTime g; lastFrame := lastFrame g;
     input := input g; randomCalls := randomCalls g;
     skinsListDiv := skinsListDiv g |}.
Definition set_coins (v : Z) (g : t) : t :=
  {| state := state g; levels := levels g;
     currentLevelIndex := currentLevelIndex g; level := level g;
     player := player g; coins := v; sessionCoins := sessionCoins g;
     skins := skins g; selectedSkinIndex := selectedSkinIndex g;
     bestTimes := bestTimes g; levelStartTime := levelStartTime g;
     currentTime := currentTime g; lastFrame := lastFrame g;
     input := input g; randomCalls := randomCalls g;
     skinsListDiv := skinsListDiv g |}.
Definition set_bestTimes (v : gmap Z Q) (g : t) : t :=
  {| state := state g; levels := levels g;
     currentLevelIndex := currentLevelIndex g; level := level g;
     player := player g; coins := coins g; sessionCoins := sessionCoins g;
     skins := skins g; selectedSkinIndex := selectedSkinIndex g;
     bestTimes := v; levelStartTime := levelStartTime g;
     currentTime := currentTime g; lastFrame := lastFrame g;
     input := input g; randomCalls := randomCalls g;
     skinsListDiv := skinsListDiv g |}.
Definition set_skins (v : list Skins.Skin) (g : t) : t :=
  {| state := state g; levels := levels g;
     currentLevelIndex := currentLevelIndex g; level := level g;
     player := player g; coins := coins g; sessionCoins := sessionCoins g;
     skins := v; selectedSkinIndex := selectedSkinIndex g;
     bestTimes := bestTimes g; levelStartTime := levelStartTime g;
     currentTime := currentTime g; lastFrame := lastFrame g;
     input := input g; randomCalls := randomCalls g;
     skinsListDiv := skinsListDiv g |}.
Definition set_selectedSkinIndex (v : Z) (g : t) : t :=
  {| state := state g; levels := levels g;
     currentLevelIndex := currentLevelIndex g; level := level g;
     player := player g; coins := coins g; sessionCoins := sessionCoins g;
     skins := skins g; selectedSkinIndex := v; bestTimes := bestTimes g;
     levelStartTime := levelStartTime g; currentTime := currentTime g;
     lastFrame := lastFrame g; input := input g;
     randomCalls := randomCalls g; skinsListDiv := skinsListDiv g |}.
Definition set_skinsListDiv (v : list Skins.Button) (g : t) : t :=
  {| state := state g; levels := levels g;
     currentLevelIndex := currentLevelIndex g; level := level g;
     player := player g; coins := coins g; sessionCoins := sessionCoins g;
     skins := skins g; selectedSkinIndex := selectedSkinIndex g;
     bestTimes := bestTimes g; levelStartTime := levelStartTime g;
     currentTime := currentTime g; lastFrame := lastFrame g;
     input := input g; randomCalls := randomCalls g; skinsListDiv := v |}.
(** The level and the player as a tick leaves them. *)
Definition set_world (lv : Level.t) (p : Player.t) (g : t) : t :=
  {| state := state g; levels := levels g;
     currentLevelIndex := currentLevelIndex g; level := Some lv;
     player := Some p; coins := coins g; sessionCoins := sessionCoins g;
     skins := skins g; selectedSkinIndex := selectedSkinIndex g;
     bestTimes := bestTimes g; levelStartTime := levelStartTime g;
     currentTime := currentTime g; lastFrame := lastFrame g;
     input := input g; randomCalls := randomCalls g;
     skinsListDiv := skinsListDiv g |}.

(** [buildSkinsUI()]: one button for each skin, from the skins, the
    selected index and the coins as they are at the call. *)
Definition buildSkinsUI (g : t) : list Skins.Button :=
  imap (λ idx skin,
          if Skins.unlocked skin
          then Skins.Select (Z.of_nat idx =? selectedSkinIndex g)
          else Skins.Buy (coins g <? Skins.price skin))
    (skins g).

(** [init()] up to its first frame: [loadProgress], [buildLevels],
    [buildSkins], which raises on a stored flag that is set past the last
    skin, then [buildSkinsUI]; the start screen is shown. *)
Definition init (saved : option Skins.Saved) : option t :=
  '(sks, sel) ← Skins.buildSkins saved (selectedSkinIndex initial);
  let g :=
    {| state := menu;
       levels := buildLevels;
       currentLevelIndex := 0;
       level := None;
       player := None;
       coins := match saved with
                | Some d => default 0 (Skins.savedCoins d)
                | None => 0
                end;
       sessionCoins := 0;
       skins := sks;
       selectedSkinIndex := sel;
       bestTimes := match saved with
                    | Some d => default ∅ (Skins.savedBestTimes d)
                    | None => ∅
                    end;
       levelStartTime := 0%Q;
       currentTime := 0%Q;
       lastFrame := 0%Q;
       input := Input.initial;
       randomCalls := 0%nat;
       skinsListDiv := [] |} in
  Some (set_skinsListDiv (buildSkinsUI g) g).

(** [getSelectedSkinColor()]; raises when no skin has the selected index. *)
Definition getSelectedSkinColor (g : t) : option string :=
  sk ← Skins.skinAt (selectedSkinIndex g) (skins g); Some (Skins.color sk).

(** The object [saveProgress()] stores. *)
Definition saveProgress (g : t) : Skins.Saved :=
  {| Skins.savedCoins := Some (coins g);
     Skins.savedSkins := Some (Skins.unlocked <$> skins g);
     Skins.savedSelectedSkinIndex := Some (selectedSkinIndex g);
     Skins.savedBestTimes := Some (bestTimes g) |}.

Definition showMenu (g : t) : t := set_state menu g.

(** [startGame(levelIndex)]; [clock] is what [performance.now()] returns,
    [rnd] the random source.  [this.levels[levelIndex]] is [undefined] when
    there is no level at all, and [new Level] raises on it;
    [getSelectedSkinColor()] raises when the selected index names no skin.
    The colour it returns goes to the player, where only the drawing reads
    it. *)
Definition startGame (rnd : nat → Q) (clock : Q) (levelIndex : Z) (g : t)
  : option t :=
  let levelIndex :=
    if (levelIndex <? 0) || (levelIndex >=? Z.of_nat (length (levels g)))
    then 0 else levelIndex in
  mapArray ← levels g !! Z.to_nat levelIndex;
  '(lv, n) ← Level.new rnd (randomCalls g) mapArray;
  let spawnX := Level.spawnX lv in
  let spawnY := Level.spawnY lv in
  skinColor ← getSelectedSkinColor g;
  Some {| state := playing; levels := levels g;
          currentLevelIndex := levelIndex; level := Some lv;
          player := Some (Player.new spawnX (spawnY - Level.tileSize lv)%Q);
          coins := coins g; sessionCoins := 0;
          skins := skins g; selectedSkinIndex := selectedSkinIndex g;
          bestTimes := bestTimes g; levelStartTime := clock;
          currentTime := 0%Q; lastFrame := lastFrame g;
          input := input g; randomCalls := n;
          skinsListDiv := skinsListDiv g |}.

Definition resetLevel (rnd : nat → Q) (clock : Q) (g : t) : option t :=
  startGame rnd clock (currentLevelIndex g) g.

Definition exitToMenu (g : t) : t := showMenu g.

Definition nextLevel (rnd : nat → Q) (clock : Q) (g : t) : option t :=
  let next := currentLevelIndex g + 1 in
  if next <? Z.of_nat (length (levels g)) then startGame rnd clock next g
  else Some (exitToMenu g).

(** [togglePause(forceOff = null)]. *)
Definition togglePause (clock : Q) (forceOff : option bool) (g : t) : t :=
  match state g, forceOff with
  | playing, None | playing, Some false => set_state paused g
  | paused, _ | _, Some true =>
      set_levelStartTime (clock - currentTime g * 1000)%Q (set_state playing g)
  | _, _ => g
  end.

Definition showLevelSelect (g : t) : t := set_state levelSelect g.

(** [showSkins()]: the skins list is built again. *)
Definition showSkins (g : t) : t :=
  let g := set_state skinsScreen g in
  set_skinsListDiv (buildSkinsUI g) g.

(** A click on the button of the skins list at position [idx], as the last
    [buildSkinsUI] made it.  The handler of a "Buy" button holds the skin
    the button was made for, [this.skins[idx]]: the skins are never
    replaced after [init].  The result comes with the object the handler
    stores, if it stores one. *)
Definition clickSkin (idx : nat) (g : t) : t * option Skins.Saved :=
  match skinsListDiv g !! idx with
  | Some (Skins.Select false) =>
      let g := set_selectedSkinIndex (Z.of_nat idx) g in
      let g := set_skinsListDiv (buildSkinsUI g) g in
      (g, Some (saveProgress g))
  | Some (Skins.Buy false) =>
      match skins g !! idx with
      | Some skin =>
          if coins g >=? Skins.price skin then
            let g := set_coins (coins g - Skins.price skin) g in
            let g := set_skins (<[idx := Skins.unlock skin]> (skins g)) g in
            let g := set_selectedSkinIndex (Z.of_nat idx) g in
            let g := set_skinsListDiv (buildSkinsUI g) g in
            (g, Some (saveProgress g))
          else (g, None)
      | None => (g, None)
      end
  | _ => (g, None)
  end.

(** The session after a series of clicks in the skins list. *)
Definition clicks (idxs : list nat) (g : t) : t :=
  foldl (λ g idx, fst (clickSkin idx g)) g idxs.

Definition addCoin (g : t) : t := set_sessionCoins (sessionCoins g + 1) g.

(** [completeLevel()]; what it stores is [saveProgress] of the result. *)
Definition completeLevel (clock : Q) (g : t) : t :=
  let g := set_state complete g in
  let finishTime := ((clock - levelStartTime g) / 1000)%Q in
  let levelIndex := currentLevelIndex g in
  let best := bestTimes g !! levelIndex in
  let g :=
    match best with
    | None => set_bestTimes (<[levelIndex := finishTime]> (bestTimes g)) g
    | Some b =>
        if Qltb finishTime b
        then set_bestTimes (<[levelIndex := finishTime]> (bestTimes g)) g
        else g
    end in
  set_coins (coins g + sessionCoins g) g.

(** [loop(now)] up to the drawing: [now] is the frame's time stamp, [clock]
    what [performance.now()] returns to the code the frame runs. *)
Definition loop (rnd : nat → Q) (now clock : Q) (g : t) : option t :=
  let dtMs := (now - lastFrame g)%Q in
  let dt := (Qmin 33 dtMs / 16.6667)%Q in
  let g := set_lastFrame now g in
  match state g with
  | playing =>
      let g := set_currentTime ((now - levelStartTime g) / 1000)%Q g in
      lv ← level g;
      let lv := Level.updateHazards dt lv in
      p ← player g;
      out ← Player.update dt (input g) lv p;
      let g :=
        set_input (Player.input out)
          (set_world (Player.level out) (Player.player out) g) in
      match Player.call out with
      | Player.CallResetLevel => resetLevel rnd clock g
      | Player.CallCompleteLevel => Some (completeLevel clock g)
      | Player.CallAddCoin => Some (addCoin g)
      | Player.NoCall => Some g
      end
  | _ => Some g
  end.

(** *** What drives the session *)

Inductive Key := KeyLeft | KeyRight | KeyDown | KeyJump | KeyPause | KeyOther.

(** The [keydown] listener of [Input.init]. *)
Definition keydown (clock : Q) (k : Key) (g : t) : t :=
  let i := input g in
  match k with
  | KeyLeft =>
      set_input {| Input.left := true; Input.right := Input.right i;
                   Input.down := Input.down i;
                   Input.jumpRequested := Input.jumpRequested i |} g
  | KeyRight =>
      set_input {| Input.left := Input.left i; Input.right := true;
                   Input.down := Input.down i;
                   Input.jumpRequested := Input.jumpRequested i |} g
  | KeyDown =>
      set_input {| Input.left := Input.left i; Input.right := Input.right i;
                   Input.down := true;
                   Input.jumpRequested := Input.jumpRequested i |} g
  | KeyJump =>
      set_input {| Input.left := Input.left i; Input.right := Input.right i;
                   Input.down := Input.down i;
                   Input.jumpRequested := true |} g
  | KeyPause => togglePause clock None g
  | KeyOther => g
  end.

(** The [keyup] listener of [Input.init]. *)
Definition keyup (k : Key) (g : t) : t :=
  let i := input g in
  match k with
  | KeyLeft =>
      set_input {| Input.left := false; Input.right := Input.right i;
                   Input.down := Input.down i;
                   Input.jumpRequested := Input.jumpRequested i |} g
  | KeyRight =>
      set_input {| Input.left := Input.left i; Input.right := false;
                   Input.down := Input.down i;
                   Input.jumpRequested := Input.jumpRequested i |} g
  | KeyDown =>
      set_input {| Input.left := Input.left i; Input.right := Input.right i;
                   Input.down := false;
                   Input.jumpRequested := Input.jumpRequested i |} g
  | _ => g
  end.

(** Everything that can happen to the session: a key goes down or up, a
    button of the page is clicked, the browser asks for a frame. *)
Inductive Event :=
| EvKeyDown (k : Key)
| EvKeyUp (k : Key)
| EvPlay                      (* playButton: [startGame(0)] *)
| EvSelectLevel (i : Z)       (* a button of the level list: [startGame(i)] *)
| EvRetry                     (* retryButton, retryLevelButton *)
| EvNextLevel
| EvResume                    (* resumeButton: [togglePause(false)] *)
| EvExit                      (* exitButton, exitToMenuButton *)
| EvShowLevelSelect
| EvShowSkins
| EvCloseOverlay              (* closeLevelSelectButton, closeSkinsButton *)
| EvSkinButton (idx : nat)    (* the button of a skin in the skins list *)
| EvFrame (now : Q).

(** One event, with the clock reading its handler gets. *)
Definition step (rnd : nat → Q) (ev : Event * Q) (g : t) : option t :=
  let '(e, clock) := ev in
  match e with
  | EvKeyDown k => Some (keydown clock k g)
  | EvKeyUp k => Some (keyup k g)
  | EvPlay => startGame rnd clock 0 g
  | EvSelectLevel i => startGame rnd clock i g
  | EvRetry => resetLevel rnd clock g
  | EvNextLevel => nextLevel rnd clock g
  | EvResume => Some (togglePause clock (Some false) g)
  | EvExit => Some (exitToMenu g)
  | EvShowLevelSelect => Some (showLevelSelect g)
  | EvShowSkins => Some (showSkins g)
  | EvCloseOverlay => Some (showMenu g)
  | EvSkinButton idx => Some (fst (clickSkin idx g))
  | EvFrame now => loop rnd now clock g
  end.

(** A history of events from a given state. *)
Definition run (rnd : nat → Q) (evs : list (Event * Q)) (g : t) : option t :=
  foldM (step rnd) evs g.

End Game.

(** ** Game.updateCamera *)

Module Camera.

Local Open Scope Q_scope.

(** The object [Game.camera]. *)
Record t := {
  x : Q;
  y : Q;
}.

(** [updateCamera()]; [canvasWidth] and [canvasHeight] are [canvas.width]
    and [canvas.height], which the page fixes.  Both fields of the camera
    are overwritten, so the camera before the call plays no part. *)
Definition updateCamera (canvasWidth canvasHeight : Q)
    (lv : Level.t) (p : Player.t) : t :=
  let ts := Level.tileSize lv in
  let levelWidth := inject_Z (Level.cols lv) * ts in
  let levelHeight := inject_Z (Level.rows lv) * ts in
  let targetX := Player.x p + Player.width / 2 - canvasWidth / 2 in
  let targetY := Player.y p + Player.height p / 2 - canvasHeight / 2 in
  {| x := Qmax 0 (Qmin targetX (levelWidth - canvasWidth));
     y := Qmax 0 (Qmin targetY (levelHeight - canvasHeight)) |}.

End Camera.

(** ** Vocabulary of the properties *)

Module Patrol.

Local Open Scope Q_scope.

(** The two ends of a hazard's patrol. *)
Definition low (hz : Hazard.t) : Q := Hazard.baseX hz - Hazard.range hz.
Definition high (hz : Hazard.t) : Q := Hazard.baseX hz + Hazard.range hz.

Definition inside (hz : Hazard.t) : Prop :=
  low hz <= Hazard.x hz ∧ Hazard.x hz <= high hz.

(** Where one tick would carry the hazard, before any clamping. *)
Definition target (hz : Hazard.t) : Q :=
  Hazard.x hz + Hazard.dir hz * Hazard.speed hz.

(** [hz'] is [hz] one tick later: past an end it is put on that end and
    turned round, otherwise it is at its target with its direction kept; so
    the direction changes only on a tick that ends on an end of the patrol.
    The patrol, the speed and the height of the hazard stay. *)
Definition turnsAtEnds (hz hz' : Hazard.t) : Prop :=
  Hazard.baseX hz' = Hazard.baseX hz ∧
  Hazard.range hz' = Hazard.range hz ∧
  Hazard.speed hz' = Hazard.speed hz ∧
  Hazard.y hz' = Hazard.y hz ∧
  (target hz < low hz →
     Hazard.x hz' = low hz ∧ Hazard.dir hz' == - Hazard.dir hz) ∧
  (high hz < target hz →
     Hazard.x hz' = high hz ∧ Hazard.dir hz' == - Hazard.dir hz) ∧
  (low hz <= target hz ∧ target hz <= high hz →
     Hazard.x hz' = target hz ∧ Hazard.dir hz' = Hazard.dir hz) ∧
  (¬ Hazard.dir hz' == Hazard.dir hz →
     Hazard.x hz' = low hz ∨ Hazard.x hz' = high hz).

(** The direction is a sign. *)
Definition signed (hz : Hazard.t) : Prop :=
  Hazard.dir hz == 1 ∨ Hazard.dir hz == -1.

(** The level after one call of [updateHazards] per element of [dts]. *)
Definition ticks (dts : list Q) (lv : Level.t) : Level.t :=
  foldl (λ lv dt, Level.updateHazards dt lv) lv dts.

End Patrol.

Module Instance.

(** Two hazards that differ at most in their speed. *)
Definition sameHazardButSpeed (a b : Hazard.t) : Prop :=
  Hazard.type a = Hazard.type b ∧ Hazard.baseX a = Hazard.baseX b ∧
  Hazard.y a = Hazard.y b ∧ Hazard.x a = Hazard.x b ∧
  Hazard.width a = Hazard.width b ∧ Hazard.height a = Hazard.height b ∧
  Hazard.range a = Hazard.range b ∧ Hazard.dir a = Hazard.dir b.

(** Two hazards that differ at most in their speed and their direction. *)
Definition sameHazardButSpeedDir (a b : Hazard.t) : Prop :=
  Hazard.type a = Hazard.type b ∧ Hazard.baseX a = Hazard.baseX b ∧
  Hazard.y a = Hazard.y b ∧ Hazard.x a = Hazard.x b ∧
  Hazard.width a = Hazard.width b ∧ Hazard.height a = Hazard.height b ∧
  Hazard.range a = Hazard.range b.

(** Two levels equal in every field, their hazards related by [R]. *)
Definition sameBut (R : Hazard.t → Hazard.t → Prop) (a b : Level.t) : Prop :=
  Level.map a = Level.map b ∧ Level.rows a = Level.rows b ∧
  Level.cols a = Level.cols b ∧ Level.tileSize a = Level.tileSize b ∧
  Level.spawnX a = Level.spawnX b ∧ Level.spawnY a = Level.spawnY b ∧
  Level.coins a = Level.coins b ∧
  Forall2 R (Level.hazards a) (Level.hazards b).

(** Two calls of the constructor: both raise, or both build a level and the
    two levels are the same but for [R] on their hazards. *)
Definition builtSameBut (R : Hazard.t → Hazard.t → Prop)
    (a b : option (Level.t * nat)) : Prop :=
  match a, b with
  | Some (la, _), Some (lb, _) => sameBut R la lb
  | None, None => True
  | _, _ => False
  end.

(** Two random sources that agree on the first draw (the speed of the first
    hazard) and not on the second (its direction). *)
Definition drawsLow : nat → Q := λ _, 0%Q.
Definition drawsHighSecond : nat → Q :=
  λ n, if (n =? 1)%nat then 0.75%Q else 0%Q.

End Instance.

Module Resolver.

Local Open Scope Q_scope.

(** A tile query outside the grid. *)
Definition outside (lv : Level.t) (tx ty : Z) : Prop :=
  (ty < 0 ∨ ty >= Level.rows lv ∨ tx < 0 ∨ tx >= Level.cols lv)%Z.

(** A level instance built from a generated template, or a level with no
    tile at all when the constructor raises. *)
Definition instanceOf (tpl : list string) : Level.t :=
  match Level.new Instance.drawsLow 0 tpl with
  | Some (lv, _) => lv
  | None =>
      {| Level.map := []; Level.rows := 0; Level.cols := 0;
         Level.tileSize := 40; Level.spawnX := 0; Level.spawnY := 0;
         Level.coins := []; Level.hazards := [] |}
  end.

(** A pass as a list of tile queries [(column, row)], made in order by
    [checkTile]. *)
Definition queries (horizontal : bool) (qs : list (Z * Z)) (s : Level.Scan)
  : option Level.Scan :=
  foldM (λ q, Level.checkTile q.1 q.2 horizontal) qs s.

(** The rows a body of height [h] spans with its top at [y], from the top
    down, and the columns the body spans with its left side at [x], from the
    left. *)
Definition rowsAt (ts h y : Q) : list Z :=
  seqZ (floorDiv y ts) (floorDiv (y + h - 1) ts - floorDiv y ts + 1).
Definition colsAt (ts x : Q) : list Z :=
  seqZ (floorDiv x ts)
    (floorDiv (x + PlayerState.width - 1) ts - floorDiv x ts + 1).

(** The tiles a horizontal pass from the position [(x, y)] queries: the rows
    the body spans at [y], in the column of its right edge [x + width] when
    it moves right and of its left edge [x] when it moves left; none when
    it does not move sideways. *)
Definition horizontalQueries (lv : Level.t) (p : PlayerState.t) (x y : Q)
  : list (Z * Z) :=
  let ts := Level.tileSize lv in
  let h := PlayerState.height p in
  if Qgtb (PlayerState.velX p) 0 then
    (λ row, (floorDiv (x + PlayerState.width) ts, row)) <$> rowsAt ts h y
  else if Qltb (PlayerState.velX p) 0 then
    (λ row, (floorDiv x ts, row)) <$> rowsAt ts h y
  else [].

(** The tiles a vertical pass from the position [(x, y)] queries: the
    columns the body spans at [x], in the row of its bottom edge
    [y + height] when it moves down and of its top edge [y] when it moves
    up; none when it does not move vertically. *)
Definition verticalQueries (lv : Level.t) (p : PlayerState.t) (x y : Q)
  : list (Z * Z) :=
  let ts := Level.tileSize lv in
  let h := PlayerState.height p in
  if Qgtb (PlayerState.velY p) 0 then
    (λ col, (col, floorDiv (y + h) ts)) <$> colsAt ts x
  else if Qltb (PlayerState.velY p) 0 then
    (λ col, (col, floorDiv y ts)) <$> colsAt ts x
  else [].

(** A body in the air, moving right and down at [(velX, velY)]. *)
Definition falling (x y velX velY : Q) : PlayerState.t :=
  PlayerState.set_velY velY
    (PlayerState.set_velX velX (PlayerState.new x y)).

End Resolver.

Module Motion.

Local Open Scope Q_scope.

(** The wall direction is -1, 0 or 1. *)
Definition wallDirOk (p : PlayerState.t) : Prop :=
  PlayerState.wallDir p = 0 ∨ PlayerState.wallDir p = 1 ∨
  PlayerState.wallDir p = -1.

(** The player right after the cap of the horizontal speed. *)
Definition capped (inp : Input.t) (p : Player.t) : Player.t :=
  Player.capSpeed (Player.applyInput inp p).

(** The largest speed a tick can end with: the cap, the boost of a slide
    that starts, one step of the decay of a slide. *)
Definition slideSpeed : Q := (PlayerState.maxSpeed + 1) * 0.98.

(** Only the right key is held. *)
Definition holdRight : Input.t :=
  {| Input.left := false; Input.right := true; Input.down := false;
     Input.jumpRequested := false |}.

(** The right and the down keys are held. *)
Definition holdRightDown : Input.t :=
  {| Input.left := false; Input.right := true; Input.down := true;
     Input.jumpRequested := false |}.

(** A body that runs on the ground at [velX]. *)
Definition running (x y velX : Q) : PlayerState.t :=
  PlayerState.set_onGround true
    (PlayerState.set_velX velX (PlayerState.new x y)).

End Motion.

Module Session.

Local Open Scope Q_scope.

(** The time [completeLevel] computes at clock reading [clock]. *)
Definition finishTime (clock : Q) (g : Game.t) : Q :=
  (clock - Game.levelStartTime g) / 1000.

(** The best time after a completion in [finish], from the one before. *)
Definition recorded (finish : Q) (old : option Q) : Q :=
  match old with
  | None => finish
  | Some b => if Qltb finish b then finish else b
  end.

(** A best time [new] that is no worse than [old]: once a best time exists
    one still exists, and it is no greater. *)
Definition notWorse (new old : option Q) : Prop :=
  match old with
  | None => True
  | Some b => ∃ b', new = Some b' ∧ b' <= b
  end.

(** The buttons of the skins list go with the skins: one for each skin,
    "Select" on the unlocked ones and "Buy" on the others. *)
Definition listed (g : Game.t) : Prop :=
  Forall2 (λ b sk,
             match b with
             | Skins.Select _ => Skins.unlocked sk = true
             | Skins.Buy _ => Skins.unlocked sk = false
             end)
    (Game.skinsListDiv g) (Game.skins g).

(** What holds of the session from [init] on when the selected skin is one
    of the list: the templates are those of [buildLevels], the current
    index is one of them, the level is well-formed, a session that plays or
    pauses has a level and a player, the selected skin is still one of the
    list, and the buttons of the skins list go with the skins. *)
Definition sound (g : Game.t) : Prop :=
  Game.levels g = Game.buildLevels ∧
  (0 <= Game.currentLevelIndex g < Game.totalLevels)%Z ∧
  (∀ lv, Game.level g = Some lv → Level.wf lv) ∧
  (Game.state g = Game.playing ∨ Game.state g = Game.paused →
   is_Some (Game.level g) ∧ is_Some (Game.player g)) ∧
  is_Some (Game.getSelectedSkinColor g) ∧
  listed g.

(** What holds of the session from [init] on, whatever was stored: as
    [sound], but the selected skin is known to be one of the list only
    once a level is loaded. *)
Definition built (g : Game.t) : Prop :=
  Game.levels g = Game.buildLevels ∧
  (0 <= Game.currentLevelIndex g < Game.totalLevels)%Z ∧
  (∀ lv, Game.level g = Some lv → Level.wf lv) ∧
  (Game.state g = Game.playing ∨ Game.state g = Game.paused →
   is_Some (Game.level g) ∧ is_Some (Game.player g)) ∧
  (is_Some (Game.level g) → is_Some (Game.getSelectedSkinColor g)) ∧
  listed g.

(** The events whose handler starts a level: the play button, a button of
    the level list, the retry buttons, and the next-level button when there
    is a next level. *)
Definition starts (e : Game.Event) (g : Game.t) : Prop :=
  match e with
  | Game.EvPlay | Game.EvSelectLevel _ | Game.EvRetry => True
  | Game.EvNextLevel =>
      (Game.currentLevelIndex g + 1 < Z.of_nat (length (Game.levels g)))%Z
  | _ => False
  end.

(** The session after [init()] with nothing stored. *)
Definition fresh : Game.t := default Game.initial (Game.init None).

(** The session after [init()] on a stored object that holds the best time
    [best] for the first level and nothing else. *)
Definition afterBest (best : Q) : Game.t :=
  default Game.initial
    (Game.init (Some {| Skins.savedCoins := None; Skins.savedSkins := None;
                        Skins.savedSelectedSkinIndex := None;
                        Skins.savedBestTimes := Some {[0%Z := best]} |})).

(** The first level just started from [g0], the body put on the ground one
    step from the flag. *)
Definition nearGoalFrom (g0 : Game.t) : Game.t :=
  match Game.startGame Instance.drawsLow 0 0 g0 with
  | Some g =>
      match Game.level g with
      | Some lv =>
          Game.set_world lv
            (PlayerState.set_onGround true (PlayerState.new 1495 400)) g
      | None => g
      end
  | None => g0
  end.

Definition nearGoal : Game.t := nearGoalFrom fresh.

(** [n] frames, 16.6667 ms apart, the first at [start]. *)
Definition frames (n : nat) (start : Q) : list (Game.Event * Q) :=
  (λ i : nat,
     let now := start + inject_Z (Z.of_nat i) * 16.6667 in
     (Game.EvFrame now, now)) <$> seq 0 n.

(** The first level: wait for the fall to end, then run right and jump;
    the body meets the first coin on the 19th frame of the jump. *)
Definition coinRun : list (Game.Event * Q) :=
  (Game.EvPlay, 0) :: frames 13 16.6667 ++
  (Game.EvKeyDown Game.KeyRight, 0) :: (Game.EvKeyDown Game.KeyJump, 0) ::
  frames 19 300.

(** The second level just started, the body put in the air above its
    breakable tile (row 9, column 8). *)
Definition aboveBreakable : Game.t :=
  match Game.startGame Instance.drawsLow 0 1 fresh with
  | Some g =>
      match Game.level g with
      | Some lv => Game.set_world lv (PlayerState.new 325 300) g
      | None => g
      end
  | None => fresh
  end.

(** The [collected] flags of the coins of the current level. *)
Definition coinFlags (g : Game.t) : list bool :=
  match Game.level g with
  | Some lv => Coin.collected <$> Level.coins lv
  | None => []
  end.

(** A tile of the current level. *)
Definition tileAt (r c : Z) (g : Game.t) : option ascii :=
  match Game.level g with
  | Some lv => getTile r c (Level.map lv)
  | None => None
  end.

End Session.

Module Tiles.

Local Open Scope Q_scope.

(** A grid [m'] that is [m] with some breakable tiles cleared, and nothing
    else changed. *)
Definition onlyBreaks (m m' : Grid) : Prop :=
  ∀ r c, getTile r c m' = getTile r c m ∨
         (getTile r c m = Some "X"%char ∧ getTile r c m' = Some " "%char).

(** Some cell of the grid holds [ch]. *)
Definition holds (ch : ascii) (m : Grid) : Prop :=
  ∃ r c, getTile r c m = Some ch.

(** The tile at row [ty], column [tx] of the level is solid. *)
Definition solidAt (lv : Level.t) (ty tx : Z) : Prop :=
  Level.isSolid (getTile ty tx (Level.map lv)) = true.

(** Number of coins of the level that are collected. *)
Definition countCollected (lv : Level.t) : nat :=
  length (filter (λ c, Coin.collected c = true) (Level.coins lv)).

(** A coin after some play: where it was, and collected if it was. *)
Definition coinKept (c c' : Coin.t) : Prop :=
  Coin.x c' = Coin.x c ∧ Coin.y c' = Coin.y c ∧
  (Coin.collected c = true → Coin.collected c' = true).

End Tiles.

Module Posture.

Local Open Scope Q_scope.

(** The bottom edge of the body. *)
Definition bottom (p : PlayerState.t) : Q :=
  PlayerState.y p + PlayerState.height p.

(** The body is half its height while it slides and full height
    otherwise. *)
Definition upright (p : PlayerState.t) : Prop :=
  PlayerState.height p
  = if PlayerState.sliding p
    then PlayerState.baseHeight / 2 else PlayerState.baseHeight.

(** The jump key has been pressed. *)
Definition jumpPressed (inp : Input.t) : Input.t :=
  {| Input.left := Input.left inp; Input.right := Input.right inp;
     Input.down := Input.down inp; Input.jumpRequested := true |}.

End Posture.

Module Ledger.



End Ledger.

Module Shape.

Local Open Scope Z_scope.

(** What every generated grid has: twelve rows of forty cells, a bottom row
    of solid tiles, the spawn marker at row 10, column 1 and nowhere else,
    the goal at row 10, column 38, and hazard tiles on row 10 only, clear
    of the columns of the spawn marker and of the goal. *)
Definition regular (m : Grid) : Prop :=
  length m = Z.to_nat Game.gen_height ∧
  Forall (λ row, length row = Z.to_nat Game.gen_width) m ∧
  (∀ c, 0 <= c < Game.gen_width →
        getTile (Game.gen_height - 1) c m = Some "#"%char) ∧
  getTile (Game.gen_height - 2) 1 m = Some "P"%char ∧
  getTile (Game.gen_height - 2) (Game.gen_width - 2) m = Some "F"%char ∧
  (∀ r c, getTile r c m = Some "S"%char →
          r = Game.gen_height - 2 ∧ 2 <= c < Game.gen_width - 2) ∧
  (∀ r c, getTile r c m = Some "P"%char → r = Game.gen_height - 2 ∧ c = 1).

(** A write that keeps a grid regular. *)
Definition harmless (r c : Z) (ch : ascii) : Prop :=
  r ≠ Game.gen_height - 1 ∧
  (r, c) ≠ (Game.gen_height - 2, 1) ∧
  (r, c) ≠ (Game.gen_height - 2, Game.gen_width - 2) ∧
  (ch = "S"%char → r = Game.gen_height - 2 ∧ 2 <= c < Game.gen_width - 2) ∧
  ch ≠ "P"%char.

(** The grid once the ground, the spawn marker and the goal are placed. *)
Definition groundwork : Grid :=
  setTile (Game.gen_height - 2) (Game.gen_width - 2) "F"
    (setTile (Game.gen_height - 2) 1 "P"
       (forUpTo Game.gen_width
          (λ c m, setTile (Game.gen_height - 1) c "#" m) Game.blankMap)).

End Shape.

Module View.

Local Open Scope Q_scope.

(** Width and height of a level in pixels. *)
Definition levelWidth (lv : Level.t) : Q :=
  inject_Z (Level.cols lv) * Level.tileSize lv.
Definition levelHeight (lv : Level.t) : Q :=
  inject_Z (Level.rows lv) * Level.tileSize lv.

(** Centre of the body. *)
Definition centreX (p : Player.t) : Q := Player.x p + Player.width / 2.
Definition centreY (p : Player.t) : Q := Player.y p + Player.height p / 2.

End View.

Module Wardrobe.

Import Skins.

Local Open Scope Z_scope.

(** The skins [buildSkins] makes, whatever was unlocked since: the six
    colours at their prices, the first skin unlocked. *)
Definition stocked (sks : list Skin) : Prop :=
  color <$> sks = colours ∧
  price <$> sks = price <$> freshSkins ∧
  unlocked <$> sks !! 0%nat = Some true.

(** The selected index is that of a skin of the list, and the skin is
    unlocked. *)
Definition owned (g : Game.t) : Prop :=
  unlocked <$> skinAt (Game.selectedSkinIndex g) (Game.skins g) = Some true.

(** Price of the unlocked skins. *)
Definition spent (sks : list Skin) : Z :=
  foldr (λ sk acc, (if unlocked sk then price sk else 0) + acc) 0 sks.


(** What is unlocked in [sks] is unlocked in [sks']. *)
Definition keepsUnlocked (sks sks' : list Skin) : Prop :=
  ∀ i, unlocked <$> sks !! i = Some true → unlocked <$> sks' !! i = Some true.

(** The skins before anything stored is read: the first one unlocked. *)
Definition starter : list Skin :=
  <[0%nat := unlock {| color := "#ffffff"; price := 0; unlocked := false |}]>
    freshSkins.

(** The session after [init] with nothing stored, once [n] coins are
    earned. *)
Definition earned (n : Z) : Game.t := Game.set_coins n Session.fresh.

End Wardrobe.

Module Markers.

Local Open Scope Q_scope.

(** The characters [parse] takes out of the grid. *)
Definition marker (ch : option ascii) : bool :=
  Level.isCh ch "P" || Level.isCh ch "C" || Level.isCh ch "H".

(** The grid [m] is [m0] with some of its markers blanked. *)
Definition consumed (m0 m : Grid) : Prop :=
  ∀ r c, getTile r c m = getTile r c m0 ∨
         (marker (getTile r c m0) = true ∧ getTile r c m = Some " "%char).

(** The coin of the cell at row [r], column [c]: at its centre, not yet
    collected. *)
Definition coinOf (r c : Z) : Coin.t :=
  {| Coin.x := inject_Z c * 40 + 40 / 2;
     Coin.y := inject_Z r * 40 + 40 / 2;
     Coin.collected := false |}.

(** A hazard whose patrol is centred on the cell at row [r], column [c]. *)
Definition hazardOf (r c : Z) (hz : Hazard.t) : Prop :=
  Hazard.baseX hz = inject_Z c * 40 ∧ Hazard.y hz = inject_Z r * 40.

(** The spawn point is the corner of the cell at row [r], column [c]. *)
Definition spawnOf (r c : Z) (lv : Level.t) : Prop :=
  Level.spawnX lv = inject_Z c * 40 ∧ Level.spawnY lv = inject_Z r * 40.

(** A random source as [Math.random]: every draw is in [0, 1). *)
Definition unit (rnd : nat → Q) : Prop := ∀ n, 0 <= rnd n ∧ rnd n < 1.

End Markers.

(** * Properties *)

(** ** Numbers and loops *)

Lemma Qltb_lt (a b : Q) : Qltb a b = true ↔ (a < b)%Q.
Proof.
  unfold Qltb. rewrite negb_true_iff.
  split.
  - intros H. apply Qnot_le_lt. intros Hle.
    apply Qle_bool_iff in Hle. congruence.
  - intros H. destruct (Qle_bool b a) eqn:E; [|reflexivity].
    apply Qle_bool_iff in E. exfalso. exact (Qlt_not_le _ _ H E).
Qed.

Lemma Qltb_ge (a b : Q) : Qltb a b = false ↔ (b <= a)%Q.
Proof.
  unfold Qltb. rewrite negb_false_iff. apply Qle_bool_iff.
Qed.

Lemma Qgtb_gt (a b : Q) : Qgtb a b = true ↔ (b < a)%Q.
Proof. apply Qltb_lt. Qed.

Lemma Qgtb_le (a b : Q) : Qgtb a b = false ↔ (a <= b)%Q.
Proof. apply Qltb_ge. Qed.

(** An invariant of the body is an invariant of the loop. *)
Lemma forUpTo_inv {S : Type} (P : S → Prop) (n : Z) (body : Z → S → S) (s : S) :
  P s → (∀ i s, P s → P (body i s)) → P (forUpTo n body s).
Proof.
  intros Hs Hbody. unfold forUpTo.
  generalize (seqZ 0 n). intros l. revert s Hs.
  induction l as [|i l IH]; intros s Hs; simpl; [exact Hs|].
  apply IH, Hbody, Hs.
Qed.

(** Two runs of a loop whose bodies keep a relation keep it. *)
Lemma forUpTo_rel {S T : Type} (R : S → T → Prop) (n : Z)
    (f : Z → S → S) (g : Z → T → T) (s : S) (t : T) :
  R s t → (∀ i s t, R s t → R (f i s) (g i t)) →
  R (forUpTo n f s) (forUpTo n g t).
Proof.
  intros Hs Hbody. unfold forUpTo.
  generalize (seqZ 0 n). intros l. revert s t Hs.
  induction l as [|i l IH]; intros s t Hs; simpl; [exact Hs|].
  apply IH, Hbody, Hs.
Qed.

Lemma foldM_inv {A S : Type} (P : S → Prop) (body : A → S → option S)
    (l : list A) (s : S) :
  P s → (∀ a s, P s → ∃ s', body a s = Some s' ∧ P s') →
  ∃ s', foldM body l s = Some s' ∧ P s'.
Proof.
  intros Hs Hbody. revert s Hs.
  induction l as [|a l IH]; intros s Hs; simpl; [eauto|].
  destruct (Hbody a s Hs) as (s1 & -> & H1). simpl. apply IH, H1.
Qed.

(** ** The level generator *)

Section Generator.

Import Game.

Lemma setTile_overwrites (r c : Z) (a b : ascii) (m : Grid) :
  setTile r c b (setTile r c a m) = setTile r c b m.
Proof.
  unfold setTile. destruct ((r <? 0) || (c <? 0)); [reflexivity|].
  rewrite list_alter_alter_eq. apply list_alter_ext; [|reflexivity].
  intros row _. simpl. apply list_insert_insert_eq.
Qed.

(** Every column the generator writes to is inside the grid, and the first
    formula for a hazard column never gives the flag column. *)
Lemma generateLevel_writes_in_range (index i : Z) :
  0 <= index → 0 <= i →
  2 <= hazardCol index i < gen_width - 2 ∧
  3 <= breakableCol index i < gen_width - 3 ∧
  3 <= coinCol index i < gen_width - 3 ∧
  5 <= platformCol index i ∧ platformCol index i + 3 < gen_width - 2 ∧
  5 <= movingCol index i < gen_width - 5.
Proof.
  intros Hindex Hi.
  unfold hazardCol, breakableCol, coinCol, platformCol, movingCol, gen_width.
  pose proof (Z.rem_bound_pos (index * 7 + i * 11) (40 - 4)).
  pose proof (Z.rem_bound_pos (index * 5 + i * 13) (40 - 6)).
  pose proof (Z.rem_bound_pos (index * 3 + i * 13) (40 - 6)).
  pose proof (Z.rem_bound_pos (index * 6 + i * 12) (40 - 10)).
  pose proof (Z.rem_bound_pos (index * 4 + i * 17) (40 - 10)).
  destruct (Z.rem (index * 7 + i * 11) (40 - 4) + 2 =? 40 - 2) eqn:E;
    [apply Z.eqb_eq in E|]; lia.
Qed.

(** C4: the level of index 0.  Its bottom row is solid throughout; the spawn
    marker is at column 1 and the goal at column [width - 2] of the row
    above the ground; it has exactly two static hazards, one bounce pad, at
    the centre column, no breakable tile, three coins, two floating
    platforms and no moving hazard. *)
Theorem generate_0_scenario :
  let tpl := generateLevel 0 in
  length tpl = Z.to_nat gen_height ∧
  tpl !! Z.to_nat (gen_height - 1)
    = Some (string_of_list_ascii (replicate (Z.to_nat gen_width) "#")) ∧
  templateTile (gen_height - 2) 1 tpl = Some "P" ∧
  countTile "P" tpl = 1%nat ∧
  templateTile (gen_height - 2) (gen_width - 2) tpl = Some "F" ∧
  countTile "F" tpl = 1%nat ∧
  countTile "S" tpl = 2%nat ∧
  countTile "B" tpl = 1%nat ∧
  templateTile (gen_height - 2) (gen_width / 2) tpl = Some "B" ∧
  countTile "X" tpl = 0%nat ∧
  countTile "C" tpl = 3%nat ∧
  floatingPlatforms tpl = 2%nat ∧
  countTile "H" tpl = 0%nat.
Proof. vm_compute. repeat split. Qed.

(** C10: a later placement overwrites an earlier one on the same cell.  At
    index 18, a multiple of 3, the first hazard column is the centre column
    20, the bounce pad takes the cell, and the level has fewer hazard tiles
    than [2 + floor(index / 10)]. *)
Theorem bounce_pad_overwrites_hazard :
  (∀ r c a b m, setTile r c b (setTile r c a m) = setTile r c b m) ∧
  Z.rem 18 3 = 0 ∧
  Z.rem (18 * 7) (gen_width - 4) + 2 = gen_width / 2 ∧
  hazardCol 18 0 = 20 ∧
  gen_width / 2 = 20 ∧
  templateTile (gen_height - 2) 20 (generateLevel 18) = Some "B" ∧
  (countTile "S" (generateLevel 18) < Z.to_nat (2 + 18 / 10))%nat.
Proof.
  split; [exact setTile_overwrites|].
  vm_compute. repeat split; lia.
Qed.

End Generator.

(** ** Moving hazards *)

Section Hazards.

Import Patrol.

Local Open Scope Q_scope.

(** What [parse] gives every hazard and [moveHazard] keeps. *)
Let kept (hz : Hazard.t) : Prop :=
  Hazard.type hz = "H"%char ∧ 0 <= Hazard.range hz ∧ inside hz ∧ signed hz.

Lemma moveHazard_kept (hz : Hazard.t) : kept hz → kept (Level.moveHazard hz).
Proof.
  intros (Hty & Hr & [Hlo Hhi] & Hs). unfold Level.moveHazard.
  rewrite Hty. simpl.
  destruct (Qltb _ _) eqn:E1; [|destruct (Qgtb _ _) eqn:E2].
  - repeat split; simpl; unfold low, high; simpl; try lra; try assumption.
    unfold signed in *; simpl. destruct Hs as [Hs|Hs]; [right|left]; lra.
  - repeat split; simpl; unfold low, high; simpl; try lra; try assumption.
    unfold signed in *; simpl. destruct Hs as [Hs|Hs]; [right|left]; lra.
  - apply Qltb_ge in E1. apply Qgtb_le in E2.
    repeat split; simpl; unfold low, high; simpl; try lra; assumption.
Qed.

Lemma moveHazard_turnsAtEnds (hz : Hazard.t) :
  kept hz → turnsAtEnds hz (Level.moveHazard hz).
Proof.
  intros (Hty & Hr & [Hlo Hhi] & Hs).
  unfold turnsAtEnds, Level.moveHazard, target, low, high in *.
  rewrite Hty. simpl.
  destruct (Qltb _ _) eqn:E1; [|destruct (Qgtb _ _) eqn:E2]; simpl.
  - apply Qltb_lt in E1.
    repeat split; try reflexivity; try lra; try ring; auto.
  - apply Qltb_ge in E1. apply Qgtb_gt in E2.
    repeat split; try reflexivity; try lra; try ring; auto.
  - apply Qltb_ge in E1. apply Qgtb_le in E2.
    repeat split; try reflexivity; lra.
Qed.

Lemma parseCell_kept rnd y x (s : Level.t * nat) :
  Level.tileSize (fst s) = 40 ∧ Forall kept (Level.hazards (fst s)) →
  Level.tileSize (fst (Level.parseCell rnd y x s)) = 40 ∧
  Forall kept (Level.hazards (fst (Level.parseCell rnd y x s))).
Proof.
  destruct s as [lv n]. simpl. intros [Hts Hk]. unfold Level.parseCell.
  destruct (Level.isCh _ "P"); [simpl; auto|].
  destruct (Level.isCh _ "C"); [simpl; auto|].
  destruct (Level.isCh _ "H"); [|simpl; auto].
  simpl. split; [assumption|].
  apply Forall_app. split; [assumption|].
  apply Forall_singleton. rewrite Hts.
  repeat split; unfold low, high; simpl; try lra.
  unfold signed. simpl. destruct (Qltb _ _); [right|left]; reflexivity.
Qed.

Lemma new_kept rnd n tpl lv n' :
  Level.new rnd n tpl = Some (lv, n') → Forall kept (Level.hazards lv).
Proof.
  unfold Level.new. intros H.
  destruct ((list_ascii_of_string <$> tpl) !! 0%nat) as [row0|]; [|discriminate].
  simpl in H. injection H as H.
  set (P := λ s : Level.t * nat,
              Level.tileSize (fst s) = 40 ∧ Forall kept (Level.hazards (fst s))).
  assert (HP : P (lv, n')); [|exact (proj2 HP)].
  rewrite <- H. unfold Level.parse.
  apply (forUpTo_inv P); [split; simpl; [reflexivity|constructor]|].
  intros y s Hs. apply (forUpTo_inv P); [exact Hs|].
  intros x s' Hs'. apply parseCell_kept, Hs'.
Qed.

Lemma ticks_kept dts lv :
  Forall kept (Level.hazards lv) → Forall kept (Level.hazards (ticks dts lv)).
Proof.
  revert lv. induction dts as [|dt dts IH]; intros lv H; simpl; [exact H|].
  apply IH. unfold Level.updateHazards. simpl.
  apply Forall_fmap. eapply Forall_impl; [exact H|].
  intros hz Hhz. apply moveHazard_kept, Hhz.
Qed.

(** C6: after any number of calls of [updateHazards] on a level just loaded,
    every moving hazard is between [baseX - range] and [baseX + range], and
    one more call of [updateHazards] takes every hazard one tick further: a
    tick that would carry it past an end puts it exactly on that end and
    flips the sign of its direction, and no other tick changes the
    direction. *)
Theorem hazard_stays_in_patrol rnd n tpl lv n' (dts : list Q) (dt : Q) :
  Level.new rnd n tpl = Some (lv, n') →
  Forall (λ hz, inside hz ∧ signed hz) (Level.hazards (ticks dts lv)) ∧
  Forall2 turnsAtEnds
    (Level.hazards (ticks dts lv))
    (Level.hazards (Level.updateHazards dt (ticks dts lv))).
Proof.
  intros Hnew.
  pose proof (ticks_kept dts lv (new_kept _ _ _ _ _ Hnew)) as Hk.
  split.
  - eapply Forall_impl; [exact Hk|].
    intros hz (_ & _ & Hin & Hs). auto.
  - unfold Level.updateHazards. simpl.
    apply Forall2_fmap_r, Forall_Forall2_diag.
    eapply Forall_impl; [exact Hk|].
    intros hz Hhz. apply moveHazard_turnsAtEnds, Hhz.
Qed.

(** The theorem on the second level, whose one hazard patrols around
    column 9 (from 240 to 480) two pixels a tick: it starts to the left,
    is on the left end after sixty ticks, and the tick after that puts it
    on that end again, now turned to the right. *)
Lemma hazard_patrol_witness :
  ∃ hz hz',
    Level.hazards
      (ticks (replicate 60 1) (Resolver.instanceOf (Game.generateLevel 1)))
    = [hz] ∧
    Level.hazards
      (Level.updateHazards 1
         (ticks (replicate 60 1)
            (Resolver.instanceOf (Game.generateLevel 1))))
    = [hz'] ∧
    inside hz ∧ signed hz ∧ turnsAtEnds hz hz' ∧
    Hazard.x hz == 240 ∧ Hazard.dir hz == -1 ∧
    Hazard.x hz' == 240 ∧ Hazard.dir hz' == 1.
Proof.
  destruct (hazard_stays_in_patrol Instance.drawsLow 0 (Game.generateLevel 1)
              (Resolver.instanceOf (Game.generateLevel 1)) 2
              (replicate 60 1) 1) as [A B].
  - vm_compute. reflexivity.
  - destruct (Level.hazards
                (ticks (replicate 60 1)
                   (Resolver.instanceOf (Game.generateLevel 1))))
      as [|hz [|? ?]] eqn:E1; try (vm_compute in E1; discriminate E1).
    destruct (Level.hazards
                (Level.updateHazards 1
                   (ticks (replicate 60 1)
                      (Resolver.instanceOf (Game.generateLevel 1)))))
      as [|hz' [|? ?]] eqn:E2; try (vm_compute in E2; discriminate E2).
    exists hz, hz'. split; [reflexivity|]. split; [reflexivity|].
    apply Forall_singleton in A as [A1 A2].
    apply Forall2_cons_1 in B as [B _].
    split; [exact A1|]. split; [exact A2|]. split; [exact B|].
    vm_compute in E1. injection E1 as <-.
    vm_compute in E2. injection E2 as <-.
    repeat split; reflexivity.
Defined.

End Hazards.

(** ** Level instances and the random source *)

Section Instances.

Import Instance.

Local Open Scope Q_scope.

Lemma parseCell_sameBut r1 r2 y x (s t : Level.t * nat) :
  sameBut sameHazardButSpeedDir (fst s) (fst t) →
  sameBut sameHazardButSpeedDir
    (fst (Level.parseCell r1 y x s)) (fst (Level.parseCell r2 y x t)).
Proof.
  destruct s as [a n], t as [b m]. simpl.
  intros (Hmap & Hrows & Hcols & Hts & Hsx & Hsy & Hcoins & Hhz).
  unfold Level.parseCell. rewrite <- Hmap, <- Hts.
  destruct (Level.isCh _ "P").
  { simpl. unfold sameBut. simpl. repeat split; congruence || assumption. }
  destruct (Level.isCh _ "C").
  { simpl. unfold sameBut. simpl. repeat split; congruence || assumption. }
  destruct (Level.isCh _ "H").
  { simpl. unfold sameBut. simpl.
    repeat split; try (congruence || assumption).
    apply Forall2_app; [assumption|].
    constructor; [|constructor].
    repeat split. }
  simpl. unfold sameBut. repeat split; assumption.
Qed.

Lemma parse_sameBut r1 r2 (s t : Level.t * nat) :
  sameBut sameHazardButSpeedDir (fst s) (fst t) →
  sameBut sameHazardButSpeedDir
    (fst (Level.parse r1 s)) (fst (Level.parse r2 t)).
Proof.
  intros H. unfold Level.parse.
  replace (Level.rows (fst t)) with (Level.rows (fst s))
    by (destruct H as (_ & Hr & _); exact Hr).
  apply (forUpTo_rel (λ s t, sameBut sameHazardButSpeedDir (fst s) (fst t)));
    [exact H|].
  intros y s' t' H'.
  replace (Level.cols (fst t')) with (Level.cols (fst s'))
    by (destruct H' as (_ & _ & Hc & _); exact Hc).
  apply (forUpTo_rel (λ s t, sameBut sameHazardButSpeedDir (fst s) (fst t)));
    [exact H'|].
  intros x s'' t'' H''. apply parseCell_sameBut, H''.
Qed.

(** Two calls of the constructor on one template agree but for the speed
    and the direction of the hazards. *)
Lemma new_sameBut (tpl : list string)
    (r1 r2 : nat → Q) (n1 n2 : nat) :
  builtSameBut sameHazardButSpeedDir
    (Level.new r1 n1 tpl) (Level.new r2 n2 tpl).
Proof.
  unfold Level.new.
  destruct ((list_ascii_of_string <$> tpl) !! 0%nat) as [row0|]; simpl;
    [|exact I].
  match goal with
  | |- context [Level.parse r1 ?s] =>
      match goal with
      | |- context [Level.parse r2 ?t] =>
          pose proof (parse_sameBut r1 r2 s t) as H
      end
  end.
  destruct (Level.parse r1 _) as [la na], (Level.parse r2 _) as [lb nb].
  apply H. simpl. unfold sameBut. simpl. repeat split. constructor.
Qed.

(** C5, as the code has it: a level instance depends on the random source
    through the speed and the initial direction of its moving hazards only.
    Two instances built from one template with any two random sources have
    the same tiles, dimensions, spawn point and coins, and hazards with the
    same base position, position, size and range. *)
Theorem instance_random_in_speed_and_dir (tpl : list string)
    (r1 r2 : nat → Q) (n1 n2 : nat) :
  builtSameBut sameHazardButSpeedDir
    (Level.new r1 n1 tpl) (Level.new r2 n2 tpl).
Proof. apply new_sameBut. Qed.

(** C5, as stated, fails: the initial direction of a moving hazard is drawn
    from the random source too.  On the template of level 1, two sources
    that agree on the first draw and differ on the second build hazards of
    opposite directions. *)
Lemma instance_dir_is_random :
  ¬ builtSameBut sameHazardButSpeed
      (Level.new drawsLow 0 (Game.generateLevel 1))
      (Level.new drawsHighSecond 0 (Game.generateLevel 1)).
Proof.
  vm_compute. intros (_ & _ & _ & _ & _ & _ & _ & H).
  inversion H as [|? ? ? ? Hhd _]; subst.
  destruct Hhd as (_ & _ & _ & _ & _ & _ & _ & Hdir).
  discriminate Hdir.
Qed.

End Instances.

(** ** The collision resolver *)

Section Collision.

Import Resolver.

Local Open Scope Q_scope.

Ltac break_if :=
  match goal with
  | |- context [if ?b then _ else _] => destruct b eqn:?
  | H : context [if ?b then _ else _] |- _ => destruct b eqn:?
  end.

Lemma setTile_length r c ch (m : Grid) : length (setTile r c ch m) = length m.
Proof.
  unfold setTile. destruct ((r <? 0)%Z || (c <? 0)%Z); [reflexivity|].
  apply length_alter.
Qed.

Lemma foldM_fixed {A S : Type} (body : A → S → option S) (l : list A) (s : S) :
  (∀ a, a ∈ l → body a s = Some s) → foldM body l s = Some s.
Proof.
  induction l as [|a l IH]; intros H; simpl; [reflexivity|].
  rewrite (H a) by (left). simpl. apply IH.
  intros b Hb. apply H. right. exact Hb.
Qed.

Lemma foldM_preserves {A S B : Type} (f : S → B) (body : A → S → option S)
    (l : list A) (s s' : S) :
  (∀ a s s', body a s = Some s' → f s' = f s) →
  foldM body l s = Some s' → f s' = f s.
Proof.
  intros Hbody. revert s. induction l as [|a l IH]; intros s H; simpl in H.
  - congruence.
  - destruct (body a s) as [s1|] eqn:E; [|discriminate]. simpl in H.
    rewrite (IH _ H). eapply Hbody, E.
Qed.

(** A query outside the grid changes nothing and raises nothing. *)
Lemma checkTile_outside tx ty horizontal (s : Level.Scan) :
  outside (Level.level s) tx ty → Level.checkTile tx ty horizontal s = Some s.
Proof.
  intros H. unfold Level.checkTile.
  replace ((ty <? 0)%Z || (ty >=? Level.rows (Level.level s))%Z
           || (tx <? 0)%Z || (tx >=? Level.cols (Level.level s))%Z)
    with true; [reflexivity|].
  symmetry. unfold outside in H.
  rewrite !orb_true_iff, !Z.ltb_lt, !Z.geb_le. lia.
Qed.

(** No query raises on a well-formed level, and the level stays well-formed. *)
Lemma checkTile_total tx ty horizontal (s : Level.Scan) :
  Level.wf (Level.level s) →
  ∃ s', Level.checkTile tx ty horizontal s = Some s' ∧
        Level.wf (Level.level s').
Proof.
  intros Hwf. unfold Level.checkTile.
  destruct ((ty <? 0)%Z || (ty >=? Level.rows (Level.level s))%Z
            || (tx <? 0)%Z || (tx >=? Level.cols (Level.level s))%Z) eqn:Hg;
    [eauto|].
  rewrite !orb_false_iff, !Z.ltb_ge, Z.geb_leb, Z.leb_gt in Hg.
  destruct Hg as [[[Hty0 Hty] _] _].
  destruct (Level.map (Level.level s) !! Z.to_nat ty) as [row|] eqn:Hrow.
  2:{ apply lookup_ge_None in Hrow. unfold Level.wf in Hwf. lia. }
  simpl.
  assert (Hset : ∀ c lo p,
            Level.wf (Level.level
              {| Level.locals := lo;
                 Level.level :=
                   Level.set_map
                     (setTile ty tx c (Level.map (Level.level s)))
                     (Level.level s);
                 Level.player := p |})).
  { intros. unfold Level.wf in *. simpl. rewrite setTile_length. exact Hwf. }
  repeat break_if; eauto.
Qed.

Lemma forRange_checkTile_total lo hi (q : Z → Z * Z) horizontal s :
  Level.wf (Level.level s) →
  ∃ s', forRange lo hi
          (λ i, Level.checkTile (fst (q i)) (snd (q i)) horizontal) s = Some s' ∧
        Level.wf (Level.level s').
Proof.
  intros Hwf. unfold forRange.
  apply (foldM_inv (λ s, Level.wf (Level.level s))); [exact Hwf|].
  intros i s0 H0. apply checkTile_total, H0.
Qed.

Lemma sweepHorizontal_total h s :
  Level.wf (Level.level s) →
  ∃ s', Level.sweepHorizontal h s = Some s' ∧ Level.wf (Level.level s').
Proof.
  intros Hwf. unfold Level.sweepHorizontal.
  repeat break_if; eauto.
  - apply (forRange_checkTile_total _ _ (λ row, (_, row)) true s Hwf).
  - apply (forRange_checkTile_total _ _ (λ row, (_, row)) true s Hwf).
Qed.

Lemma sweepColumns_total left right h s :
  Level.wf (Level.level s) →
  ∃ s', Level.sweepColumns left right h s = Some s' ∧
        Level.wf (Level.level s').
Proof.
  intros Hwf. unfold Level.sweepColumns.
  repeat break_if; eauto.
  - apply (forRange_checkTile_total _ _ (λ col, (col, _)) false s Hwf).
  - apply (forRange_checkTile_total _ _ (λ col, (col, _)) false s Hwf).
Qed.

Lemma hitHazards_level h s :
  Level.level (Level.hitHazards h s) = Level.level s.
Proof. unfold Level.hitHazards. break_if; reflexivity. Qed.

Lemma collide_wf lv p nextX nextY :
  Level.wf lv →
  ∃ s, Level.collide lv p nextX nextY = Some s ∧ Level.wf (Level.level s).
Proof.
  intros Hwf. unfold Level.collide.
  destruct (sweepHorizontal_total (PlayerState.height p)
              (Level.startScan lv p nextX nextY) Hwf) as (s1 & -> & H1).
  simpl.
  destruct (sweepColumns_total
              (floorDiv (Level.x (Level.locals s1))
                 (Level.tileSize (Level.level s1)))
              (floorDiv (Level.x (Level.locals s1) + PlayerState.width - 1)
                 (Level.tileSize (Level.level s1)))
              (PlayerState.height p) s1 H1) as (s2 & E2 & H2).
  unfold Level.sweepVertical. rewrite E2. simpl.
  eexists. split; [reflexivity|].
  rewrite hitHazards_level. exact H2.
Qed.

Lemma floorDiv_neg (a ts : Q) : 0 < ts → a < 0 → (floorDiv a ts < 0)%Z.
Proof.
  intros Hts Ha. unfold floorDiv.
  assert (H : a / ts < 0).
  { apply Qlt_shift_div_r; [exact Hts|]. lra. }
  pose proof (Qfloor_le (a / ts)) as Hle.
  assert (Hlt : inject_Z (Qfloor (a / ts)) < inject_Z 0).
  { eapply Qle_lt_trans; [exact Hle | exact H]. }
  rewrite <- Zlt_Qlt in Hlt. exact Hlt.
Qed.

Lemma parseCell_wf rnd y x (s : Level.t * nat) :
  Level.wf (fst s) → Level.wf (fst (Level.parseCell rnd y x s)).
Proof.
  destruct s as [lv n]. unfold Level.wf, Level.parseCell. simpl. intros H.
  repeat break_if; simpl; rewrite ?setTile_length; exact H.
Qed.

(** The constructor builds a well-formed level. *)
Lemma new_wf rnd n tpl lv n' :
  Level.new rnd n tpl = Some (lv, n') → Level.wf lv.
Proof.
  unfold Level.new. intros H.
  destruct ((list_ascii_of_string <$> tpl) !! 0%nat) as [row0|]; [|discriminate].
  simpl in H. injection H as H.
  change lv with (fst (lv, n')). rewrite <- H. unfold Level.parse.
  apply (forUpTo_inv (λ s, Level.wf (fst s))); [reflexivity|].
  intros y s Hs. apply (forUpTo_inv (λ s, Level.wf (fst s))); [exact Hs|].
  intros x s' Hs'. apply parseCell_wf, Hs'.
Qed.

(** The horizontal pass writes neither [py] nor the vertical speed. *)
Lemma checkTile_horizontal_keeps tx ty s s' :
  Level.checkTile tx ty true s = Some s' →
  Level.y (Level.locals s') = Level.y (Level.locals s) ∧
  PlayerState.velY (Level.player s') = PlayerState.velY (Level.player s) ∧
  Level.tileSize (Level.level s') = Level.tileSize (Level.level s).
Proof.
  unfold Level.checkTile. intros H.
  destruct (_ || _ || _ || _); [injection H as <-; auto|].
  destruct (Level.map (Level.level s) !! Z.to_nat ty) as [row|];
    simpl in H; [|discriminate].
  repeat break_if; injection H as <-; auto.
Qed.

Lemma sweepHorizontal_keeps h s s' :
  Level.sweepHorizontal h s = Some s' →
  Level.y (Level.locals s') = Level.y (Level.locals s) ∧
  PlayerState.velY (Level.player s') = PlayerState.velY (Level.player s) ∧
  Level.tileSize (Level.level s') = Level.tileSize (Level.level s).
Proof.
  set (f := λ s : Level.Scan,
              (Level.y (Level.locals s), PlayerState.velY (Level.player s),
               Level.tileSize (Level.level s))).
  assert (Hf : ∀ l col s s',
             foldM (λ row, Level.checkTile col row true) l s = Some s' →
             f s' = f s).
  { intros l col s0 s1 H. eapply (foldM_preserves f); [|exact H].
    intros row s2 s3 H'.
    apply checkTile_horizontal_keeps in H' as (H1 & H2 & H3).
    unfold f. congruence. }
  unfold Level.sweepHorizontal, forRange. intros H.
  assert (f s' = f s) as Heq.
  { repeat break_if; try (injection H as <-; reflexivity);
      eapply Hf, H. }
  unfold f in Heq. injection Heq. auto.
Qed.

(** C9: a tile query whose row or column is outside the grid is no tile: it
    corrects no position, raises no flag and raises no error.  So [collide]
    returns on every proposed position of a well-formed level, and on a
    position wholly to the left of the grid no tile has any effect on what
    it returns. *)
Theorem out_of_range_queries_are_no_tile :
  (∀ tx ty horizontal s,
     outside (Level.level s) tx ty →
     Level.checkTile tx ty horizontal s = Some s) ∧
  (∀ lv p nextX nextY,
     Level.wf lv → is_Some (Level.collide lv p nextX nextY)) ∧
  (∀ lv p nextX nextY,
     0 < Level.tileSize lv → nextX + PlayerState.width < 0 →
     Level.collide lv p nextX nextY
     = Some (Level.hitHazards (PlayerState.height p)
               (Level.collectCoins (PlayerState.height p)
                  (Level.startScan lv p nextX nextY)))).
Proof.
  split; [exact checkTile_outside|]. split.
  - intros lv p nextX nextY Hwf.
    destruct (collide_wf lv p nextX nextY Hwf) as (s & -> & _). eauto.
  - intros lv p nextX nextY Hts Hx.
    assert (Hw : PlayerState.width == 24) by reflexivity.
    assert (Hpass : ∀ s, Level.level s = lv →
              (∀ lo hi col horizontal,
                 (col < 0)%Z →
                 forRange lo hi (λ row, Level.checkTile col row horizontal) s
                 = Some s) ∧
              (∀ lo hi row horizontal,
                 (hi < 0)%Z →
                 forRange lo hi (λ col, Level.checkTile col row horizontal) s
                 = Some s)).
    { intros s Hs. split; intros; unfold forRange; apply foldM_fixed;
        intros a Ha; apply checkTile_outside; unfold outside.
      - lia.
      - apply elem_of_seqZ in Ha. lia. }
    unfold Level.collide.
    assert (H1 : Level.sweepHorizontal (PlayerState.height p)
                   (Level.startScan lv p nextX nextY)
                 = Some (Level.startScan lv p nextX nextY)).
    { unfold Level.sweepHorizontal.
      destruct (Hpass (Level.startScan lv p nextX nextY) eq_refl) as [Hc _].
      repeat break_if; try reflexivity; apply Hc; simpl;
        apply floorDiv_neg; try assumption; lra. }
    rewrite H1. simpl.
    assert (H2 : Level.sweepVertical (PlayerState.height p)
                   (Level.startScan lv p nextX nextY)
                 = Some (Level.startScan lv p nextX nextY)).
    { unfold Level.sweepVertical, Level.sweepColumns.
      destruct (Hpass (Level.startScan lv p nextX nextY) eq_refl) as [_ Hr].
      repeat break_if; try reflexivity; apply Hr; simpl;
        apply floorDiv_neg; try assumption; lra. }
    rewrite H2. reflexivity.
Qed.

(** The theorem at the first level: a query left of the grid, and a proposed
    position that hangs over its left edge. *)
Lemma out_of_range_queries_witness :
  let lv := instanceOf (Game.generateLevel 0) in
  let p := falling (-2) 390 (-5.5) 5 in
  Level.checkTile (-1) 10 true (Level.startScan lv p (-7.5) 395)
  = Some (Level.startScan lv p (-7.5) 395) ∧
  is_Some (Level.collide lv p (-7.5) 395).
Proof.
  split.
  - apply (proj1 out_of_range_queries_are_no_tile).
    right. right. left. reflexivity.
  - apply (proj1 (proj2 out_of_range_queries_are_no_tile)).
    vm_compute. reflexivity.
Defined.

(** A loop over the image of a list. *)
Lemma foldM_fmap {A B S : Type} (g : A → B) (body : B → S → option S)
    (l : list A) (s : S) :
  foldM body (g <$> l) s = foldM (λ a, body (g a)) l s.
Proof.
  revert s. induction l as [|a l IH]; intros s; [reflexivity|].
  simpl. destruct (body (g a) s); simpl; [apply IH|reflexivity].
Qed.

Lemma Qneqb_moves (v : Q) : Qneqb v 0 = Qgtb v 0 || Qltb v 0.
Proof.
  unfold Qneqb.
  destruct (Qgtb v 0) eqn:G, (Qltb v 0) eqn:L, (Qeq_bool v 0) eqn:E;
    try reflexivity; exfalso;
    try apply Qgtb_gt in G; try apply Qgtb_le in G;
    try apply Qltb_lt in L; try apply Qltb_ge in L;
    try apply Qeq_bool_iff in E; try apply Qeq_bool_neq in E; lra.
Qed.

(** The horizontal pass, query by query. *)
Lemma sweepHorizontal_queries lv p x y :
  Level.sweepHorizontal (PlayerState.height p) (Level.startScan lv p x y)
  = queries true (horizontalQueries lv p x y) (Level.startScan lv p x y).
Proof.
  unfold Level.sweepHorizontal, horizontalQueries, queries, rowsAt, forRange.
  cbn [Level.level Level.player Level.locals Level.startScan Level.x Level.y].
  rewrite Qneqb_moves.
  destruct (Qgtb (PlayerState.velX p) 0); simpl orb; cbv iota.
  - rewrite foldM_fmap. reflexivity.
  - destruct (Qltb (PlayerState.velX p) 0); [|reflexivity].
    rewrite foldM_fmap. reflexivity.
Qed.

(** The vertical pass, query by query, from the position the scan holds. *)
Lemma sweepVertical_queries h s :
  Level.sweepVertical h s
  = queries false
      (verticalQueries (Level.level s)
         (PlayerState.set_height h (Level.player s))
         (Level.x (Level.locals s)) (Level.y (Level.locals s))) s.
Proof.
  unfold Level.sweepVertical, Level.sweepColumns, verticalQueries, queries,
    colsAt, forRange.
  cbn [PlayerState.velY PlayerState.height PlayerState.set_height].
  rewrite Qneqb_moves.
  destruct (Qgtb (PlayerState.velY (Level.player s)) 0); simpl orb; cbv iota.
  - rewrite foldM_fmap. reflexivity.
  - destruct (Qltb (PlayerState.velY (Level.player s)) 0); [|reflexivity].
    rewrite foldM_fmap. reflexivity.
Qed.

(** C3, as the code has it.  The horizontal pass queries the rows the body
    spans at the proposed [nextY], in the column of its moving edge at the
    proposed [nextX], and leaves [py] and the vertical speed as they were;
    the vertical pass queries the row of the moving edge at the proposed
    [nextY], but in the columns the body spans at [px] as the horizontal
    pass left it.  The result is that of a resolution from the proposed
    position alone whenever the horizontal pass did not correct [px]. *)
Theorem collide_vertical_span_from_corrected_x lv p nextX nextY :
  let h := PlayerState.height p in
  let ts := Level.tileSize lv in
  let w := PlayerState.width in
  let start := Level.startScan lv p nextX nextY in
  Level.sweepHorizontal h start
  = queries true (horizontalQueries lv p nextX nextY) start ∧
  match Level.sweepHorizontal h start with
  | Some s1 =>
      Level.y (Level.locals s1) = nextY ∧
      PlayerState.velY (Level.player s1) = PlayerState.velY p ∧
      Level.sweepVertical h s1
      = queries false
          (verticalQueries lv p (Level.x (Level.locals s1)) nextY) s1 ∧
      Level.collide lv p nextX nextY
      = (s2 ← queries false
                (verticalQueries lv p (Level.x (Level.locals s1)) nextY) s1;
         Some (Level.hitHazards h (Level.collectCoins h s2))) ∧
      Level.collide lv p nextX nextY
      = (s2 ← Level.sweepColumns
                (floorDiv (Level.x (Level.locals s1)) ts)
                (floorDiv (Level.x (Level.locals s1) + w - 1) ts) h s1;
         Some (Level.hitHazards h (Level.collectCoins h s2))) ∧
      (Level.x (Level.locals s1) = nextX →
       Level.collide lv p nextX nextY = Level.collide_proposed lv p nextX nextY)
  | None =>
      Level.collide lv p nextX nextY = None ∧
      Level.collide_proposed lv p nextX nextY = None
  end.
Proof.
  intros h ts w start.
  split; [apply sweepHorizontal_queries|].
  destruct (Level.sweepHorizontal h start) as [s1|] eqn:E.
  - destruct (sweepHorizontal_keeps _ _ _ E) as (Hy & Hv & Hts).
    simpl in Hy, Hv, Hts.
    assert (Hq : Level.sweepVertical h s1
                 = queries false
                     (verticalQueries lv p (Level.x (Level.locals s1)) nextY)
                     s1).
    { rewrite sweepVertical_queries. rewrite Hy.
      unfold verticalQueries.
      cbn [PlayerState.velY PlayerState.height PlayerState.set_height].
      rewrite Hv, Hts. reflexivity. }
    assert (Hc : Level.collide lv p nextX nextY
                 = (s2 ← Level.sweepColumns
                           (floorDiv (Level.x (Level.locals s1)) ts)
                           (floorDiv (Level.x (Level.locals s1) + w - 1) ts)
                           h s1;
                    Some (Level.hitHazards h (Level.collectCoins h s2)))).
    { unfold Level.collide. fold h start. rewrite E. simpl.
      unfold Level.sweepVertical. rewrite Hts. reflexivity. }
    split; [exact Hy|]. split; [exact Hv|]. split; [exact Hq|].
    split; [|split; [exact Hc|]].
    + rewrite <- Hq. unfold Level.collide. fold h start. rewrite E.
      reflexivity.
    + intros Hx. rewrite Hc. unfold Level.collide_proposed.
      fold h ts w start. rewrite E. simpl. rewrite Hx. reflexivity.
  - unfold Level.collide, Level.collide_proposed. fold h start. rewrite E.
    split; reflexivity.
Qed.

(** The theorem on the first level, on a fall that meets no tile sideways:
    the horizontal pass queries column 5 in rows 8 and 9, the vertical pass
    row 9 in columns 4 and 5. *)
Lemma collide_vertical_span_witness :
  horizontalQueries (instanceOf (Game.generateLevel 0))
    (falling 177 325 3 5) 180 330 = [(5, 8); (5, 9)]%Z ∧
  verticalQueries (instanceOf (Game.generateLevel 0))
    (falling 177 325 3 5) 180 330 = [(4, 9); (5, 9)]%Z ∧
  Level.collide (instanceOf (Game.generateLevel 0))
    (falling 177 325 3 5) 180 330
  = Level.collide_proposed (instanceOf (Game.generateLevel 0))
      (falling 177 325 3 5) 180 330.
Proof.
  split; [vm_compute; reflexivity|]. split; [vm_compute; reflexivity|].
  pose proof (collide_vertical_span_from_corrected_x
                (instanceOf (Game.generateLevel 0))
                (falling 177 325 3 5) 180 330) as H.
  cbv zeta in H. destruct H as [_ H].
  destruct (Level.sweepHorizontal _ _) as [s1|] eqn:E.
  - destruct H as (_ & _ & _ & _ & _ & H). apply H.
    vm_compute in E. injection E as <-. reflexivity.
  - destruct H as [-> ->]. reflexivity.
Defined.

(** C3, as stated, fails.  On the first level a body that falls to the
    right beside the left end of a platform (columns 5 to 8 of row 7) and
    whose proposed box enters column 5 is pushed back off that column by
    the horizontal pass; the vertical pass then scans column 4 only and
    finds no ground, where the columns of the proposed position, 4 and 5,
    would have grounded the body on the platform. *)
Lemma collide_not_from_proposed_x :
  let lv := instanceOf (Game.generateLevel 0) in
  let p := falling 175 242 5 5 in
  (Level.x ∘ Level.locals) <$> Level.collide lv p 180 247 = Some 176 ∧
  (Level.onGround ∘ Level.locals) <$> Level.collide lv p 180 247
  = Some false ∧
  (Level.onGround ∘ Level.locals) <$> Level.collide_proposed lv p 180 247
  = Some true ∧
  Level.collide lv p 180 247 ≠ Level.collide_proposed lv p 180 247.
Proof.
  assert (H0 : (Level.x ∘ Level.locals)
               <$> Level.collide (instanceOf (Game.generateLevel 0))
                     (falling 175 242 5 5) 180 247 = Some 176)
    by (vm_compute; reflexivity).
  assert (H1 : (Level.onGround ∘ Level.locals)
               <$> Level.collide (instanceOf (Game.generateLevel 0))
                     (falling 175 242 5 5) 180 247 = Some false)
    by (vm_compute; reflexivity).
  assert (H2 : (Level.onGround ∘ Level.locals)
               <$> Level.collide_proposed (instanceOf (Game.generateLevel 0))
                     (falling 175 242 5 5) 180 247 = Some true)
    by (vm_compute; reflexivity).
  cbv zeta. split; [exact H0|]. split; [exact H1|]. split; [exact H2|].
  intros Heq. rewrite Heq in H1. congruence.
Qed.

End Collision.

(** ** Player movement *)

Section Movement.

Import Motion.

Local Open Scope Q_scope.

Ltac split_if :=
  match goal with
  | |- context [if ?b then _ else _] => destruct b eqn:?
  end.

Ltac q_hyps :=
  repeat match goal with
  | H : Qltb _ _ = true |- _ => apply Qltb_lt in H
  | H : Qltb _ _ = false |- _ => apply Qltb_ge in H
  | H : Qgtb _ _ = true |- _ => apply Qgtb_gt in H
  | H : Qgtb _ _ = false |- _ => apply Qgtb_le in H
  end.

Lemma capSpeed_velX (p : Player.t) :
  - (5.5) <= Player.velX (Player.capSpeed p) <= 5.5.
Proof.
  unfold Player.capSpeed, Player.maxSpeed.
  repeat split_if; simpl in *; q_hyps; simpl in *; lra.
Qed.

Lemma startSlide_velX inp (p : Player.t) :
  - (5.5) <= Player.velX p <= 5.5 →
  if Player.slideStarts inp p
  then Player.sliding (Player.startSlide inp p) = true ∧
       - (6.5) <= Player.velX (Player.startSlide inp p) <= 6.5
  else Player.startSlide inp p = p.
Proof.
  intros H. unfold Player.startSlide.
  destruct (Player.slideStarts inp p); [|reflexivity].
  simpl. split; [reflexivity|]. split_if; lra.
Qed.

Lemma handleSlide_velX dt inp (p : Player.t) (b : Q) :
  - b <= Player.velX p <= b →
  - b <= Player.velX (Player.handleSlide dt inp p) <= b ∧
  (Player.sliding p = true →
   - (b * 0.98) <= Player.velX (Player.handleSlide dt inp p) <= b * 0.98).
Proof.
  intros H. unfold Player.handleSlide.
  destruct (Player.sliding p); [|simpl; split; [lra|discriminate]].
  split_if; simpl; split; intros; lra.
Qed.

(** The steps between the slide and the jump write neither the horizontal
    speed nor the wall direction. *)
Lemma startDive_keeps inp (p : Player.t) :
  Player.velX (Player.startDive inp p) = Player.velX p ∧
  Player.wallDir (Player.startDive inp p) = Player.wallDir p.
Proof. unfold Player.startDive. split_if; auto. Qed.

Lemma updateCoyote_keeps dt (p : Player.t) :
  Player.velX (Player.updateCoyote dt p) = Player.velX p ∧
  Player.wallDir (Player.updateCoyote dt p) = Player.wallDir p.
Proof. unfold Player.updateCoyote. repeat split_if; auto. Qed.

Lemma bufferJump_keeps dt inp (p : Player.t) :
  Player.velX (fst (Player.bufferJump dt inp p)) = Player.velX p ∧
  Player.wallDir (fst (Player.bufferJump dt inp p)) = Player.wallDir p.
Proof.
  unfold Player.bufferJump. destruct (Input.consumeJump inp) as [j i].
  repeat split_if; auto.
Qed.

Lemma handleSlide_wallDir dt inp (p : Player.t) :
  Player.wallDir (Player.handleSlide dt inp p) = Player.wallDir p.
Proof. unfold Player.handleSlide. repeat split_if; auto. Qed.

Lemma startSlide_wallDir inp (p : Player.t) :
  Player.wallDir (Player.startSlide inp p) = Player.wallDir p.
Proof. unfold Player.startSlide. split_if; auto. Qed.

Lemma capped_wallDir inp (p : Player.t) :
  Player.wallDir (capped inp p) = Player.wallDir p.
Proof.
  unfold capped, Player.capSpeed, Player.applyInput.
  repeat split_if; auto.
Qed.

Lemma tryJump_velX (p : Player.t) (b : Q) :
  wallDirOk p → 4.4 <= b → - b <= Player.velX p <= b →
  - b <= Player.velX (Player.tryJump p) <= b.
Proof.
  intros Hw Hb H. unfold Player.tryJump, Player.maxSpeed.
  repeat split_if; simpl; try lra.
  destruct Hw as [-> | [-> | ->]]; lra.
Qed.

Lemma applyGravity_vel (p : Player.t) :
  Player.velX (Player.applyGravity p) = Player.velX p ∧
  Player.velY (Player.applyGravity p) <= 15.
Proof.
  unfold Player.applyGravity. split_if; simpl; q_hyps; simpl in *;
    split; (reflexivity || lra).
Qed.

(** The speeds as the gravity step leaves them. *)
Lemma integrate_bounds dt inp (p : Player.t) :
  wallDirOk p →
  let q := fst (Player.integrate dt inp p) in
  Player.velY q <= 15 ∧
  - slideSpeed <= Player.velX q <= slideSpeed ∧
  (Player.slideStarts inp (capped inp p) = false →
   - (5.5) <= Player.velX q <= 5.5).
Proof.
  intros Hw. unfold Player.integrate. fold (capped inp p).
  pose proof (capSpeed_velX (Player.applyInput inp p)) as Hcap.
  fold (capped inp p) in Hcap.
  pose proof (startSlide_velX inp (capped inp p) Hcap) as Hss.
  set (p2 := Player.startSlide inp (capped inp p)) in *.
  set (p3 := Player.handleSlide dt inp p2).
  set (p4 := Player.startDive inp p3).
  set (p5 := Player.updateCoyote dt p4).
  destruct (Player.bufferJump dt inp p5) as [p6 inp'] eqn:E6.
  assert (H6 : Player.velX p6 = Player.velX p3 ∧
               Player.wallDir p6 = Player.wallDir p).
  { pose proof (bufferJump_keeps dt inp p5) as [A B]. rewrite E6 in A, B.
    change (fst (p6, inp')) with p6 in A, B.
    assert (C : Player.velX p5 = Player.velX p4) by apply updateCoyote_keeps.
    assert (D : Player.wallDir p5 = Player.wallDir p4)
      by apply updateCoyote_keeps.
    assert (F : Player.velX p4 = Player.velX p3) by apply startDive_keeps.
    assert (G : Player.wallDir p4 = Player.wallDir p3)
      by apply startDive_keeps.
    assert (K : Player.wallDir p3 = Player.wallDir p2)
      by apply handleSlide_wallDir.
    assert (L : Player.wallDir p2 = Player.wallDir (capped inp p))
      by apply startSlide_wallDir.
    pose proof (capped_wallDir inp p) as M.
    split; congruence. }
  destruct H6 as [H6 W6].
  assert (Hw6 : wallDirOk p6) by (unfold wallDirOk in *; rewrite W6; exact Hw).
  simpl.
  pose proof (applyGravity_vel (Player.tryJump p6)) as [Gx Gy].
  rewrite Gx. split; [exact Gy|].
  assert (Hall : - slideSpeed <= Player.velX p3 <= slideSpeed).
  { unfold slideSpeed, Player.maxSpeed.
    destruct (Player.slideStarts inp (capped inp p)).
    - destruct Hss as [Hsl Hv].
      pose proof (handleSlide_velX dt inp p2 6.5 Hv) as [_ H]. fold p3 in H.
      specialize (H Hsl). lra.
    - assert (Hv : - (5.5) <= Player.velX p2 <= 5.5)
        by (rewrite Hss; exact Hcap).
      pose proof (handleSlide_velX dt inp p2 5.5 Hv) as [H _].
      fold p3 in H. lra. }
  split.
  - apply (tryJump_velX p6 slideSpeed Hw6).
    + unfold slideSpeed, Player.maxSpeed. lra.
    + rewrite H6. exact Hall.
  - intros Hno. apply (tryJump_velX p6 5.5 Hw6); [lra|].
    rewrite H6. rewrite Hno in Hss.
    assert (Hv : - (5.5) <= Player.velX p2 <= 5.5)
      by (rewrite Hss; exact Hcap).
    apply (handleSlide_velX dt inp p2 5.5 Hv).
Qed.

(** What the resolver may do to the velocity and to the wall direction:
    keep them or stop the body, keep the direction or set a sign. *)
Let damped (s s' : Level.Scan) : Prop :=
  (PlayerState.velX (Level.player s') = PlayerState.velX (Level.player s) ∨
   PlayerState.velX (Level.player s') = 0) ∧
  (PlayerState.velY (Level.player s') = PlayerState.velY (Level.player s) ∨
   PlayerState.velY (Level.player s') = 0) ∧
  (Level.wallDir (Level.locals s') = Level.wallDir (Level.locals s) ∨
   Level.wallDir (Level.locals s') = 1 ∨
   Level.wallDir (Level.locals s') = -1).

Lemma damped_refl s : damped s s.
Proof. unfold damped. auto. Qed.

Lemma damped_trans s1 s2 s3 : damped s1 s2 → damped s2 s3 → damped s1 s3.
Proof.
  unfold damped. intros (A1 & B1 & C1) (A2 & B2 & C2).
  repeat split.
  - destruct A2 as [-> | ->]; auto.
  - destruct B2 as [-> | ->]; auto.
  - destruct C2 as [->|[-> | ->]]; auto.
Qed.

Lemma checkTile_damped tx ty horizontal s s' :
  Level.checkTile tx ty horizontal s = Some s' → damped s s'.
Proof.
  unfold Level.checkTile. intros H.
  destruct (_ || _ || _ || _); [injection H as <-; apply damped_refl|].
  destruct (Level.map (Level.level s) !! Z.to_nat ty) as [row|];
    simpl in H; [|discriminate].
  unfold damped.
  repeat match type of H with
         | context [if ?b then _ else _] => destruct b eqn:?
         end;
    injection H as <-; simpl; auto 6.
Qed.

Lemma foldM_checkTile_damped (q : Z → Z * Z) horizontal (l : list Z) s s' :
  foldM (λ i, Level.checkTile (fst (q i)) (snd (q i)) horizontal) l s = Some s' →
  damped s s'.
Proof.
  revert s. induction l as [|i l IH]; intros s H; simpl in H.
  - injection H as <-. apply damped_refl.
  - destruct (Level.checkTile _ _ _ s) as [s1|] eqn:E; [|discriminate].
    simpl in H. eapply damped_trans; [eapply checkTile_damped, E|].
    apply IH, H.
Qed.

Lemma sweepHorizontal_damped h s s' :
  Level.sweepHorizontal h s = Some s' → damped s s'.
Proof.
  unfold Level.sweepHorizontal, forRange. intros H.
  repeat match type of H with
         | context [if ?b then _ else _] => destruct b eqn:?
         end;
    try (injection H as <-; apply damped_refl);
    exact (foldM_checkTile_damped (λ row, (_, row)) true _ _ _ H).
Qed.

Lemma sweepVertical_damped h s s' :
  Level.sweepVertical h s = Some s' → damped s s'.
Proof.
  unfold Level.sweepVertical, Level.sweepColumns, forRange. intros H.
  repeat match type of H with
         | context [if ?b then _ else _] => destruct b eqn:?
         end;
    try (injection H as <-; apply damped_refl);
    exact (foldM_checkTile_damped (λ col, (col, _)) false _ _ _ H).
Qed.

(** [collide] leaves each component of the velocity as it was or zero, and
    returns a wall direction of -1, 0 or 1. *)
Lemma collide_velocity lv p nextX nextY s :
  Level.collide lv p nextX nextY = Some s →
  (PlayerState.velX (Level.player s) = PlayerState.velX p ∨
   PlayerState.velX (Level.player s) = 0) ∧
  (PlayerState.velY (Level.player s) = PlayerState.velY p ∨
   PlayerState.velY (Level.player s) = 0) ∧
  (Level.wallDir (Level.locals s) = 0 ∨
   Level.wallDir (Level.locals s) = 1 ∨
   Level.wallDir (Level.locals s) = -1).
Proof.
  unfold Level.collide. intros H.
  destruct (Level.sweepHorizontal _ _) as [s1|] eqn:E1; [|discriminate].
  simpl in H.
  destruct (Level.sweepVertical _ s1) as [s2|] eqn:E2; [|discriminate].
  simpl in H. injection H as <-.
  pose proof (damped_trans _ _ _ (sweepHorizontal_damped _ _ _ E1)
                (sweepVertical_damped _ _ _ E2)) as (A & B & C).
  simpl in A, B, C.
  unfold Level.hitHazards, Level.collectCoins.
  repeat split_if; simpl; auto.
Qed.

Lemma slideSpeed_value : slideSpeed == 6.37.
Proof. reflexivity. Qed.

(** C1, as the code has it.  On every tick the horizontal speed is within
    5.5 right after the cap and the vertical speed is at most 15 after the
    gravity step and at the end of the tick.  The boost of a slide comes
    after the cap: at the end of a tick the horizontal speed is within
    (5.5 + 1) * 0.98 = 6.37, and within 5.5 on a tick that starts no
    slide. *)
Theorem speed_bounds_after_tick dt inp lv (p : Player.t) :
  Level.wf lv → wallDirOk p →
  Qabs (Player.velX (capped inp p)) <= 5.5 ∧
  Player.velY (fst (Player.integrate dt inp p)) <= 15 ∧
  slideSpeed == 6.37 ∧
  ∃ out,
    Player.update dt inp lv p = Some out ∧
    Player.velY (Player.player out) <= 15 ∧
    Qabs (Player.velX (Player.player out)) <= slideSpeed ∧
    (Player.slideStarts inp (capped inp p) = false →
     Qabs (Player.velX (Player.player out)) <= 5.5) ∧
    wallDirOk (Player.player out).
Proof.
  intros Hwf Hw.
  pose proof (integrate_bounds dt inp p Hw) as (Hy & Hx & Hno).
  split; [apply Qabs_Qle_condition, capSpeed_velX|].
  split; [exact Hy|]. split; [exact slideSpeed_value|].
  unfold Player.update.
  destruct (Player.integrate dt inp p) as [q inp'] eqn:Eq. simpl in Hy, Hx, Hno.
  destruct (collide_wf lv q (Player.x q + Player.velX q)
              (Player.y q + Player.velY q) Hwf) as (s & Es & _).
  rewrite Es. simpl.
  destruct (collide_velocity _ _ _ _ _ Es) as (Vx & Vy & Wd).
  assert (Hs : 0 <= slideSpeed) by (unfold slideSpeed, Player.maxSpeed; lra).
  assert (Bx : - slideSpeed <= PlayerState.velX (Level.player s) <= slideSpeed)
    by (destruct Vx as [-> | ->]; lra).
  assert (Bn : Player.slideStarts inp (capped inp p) = false →
               - (5.5) <= PlayerState.velX (Level.player s) <= 5.5).
  { intros H. specialize (Hno H). destruct Vx as [-> | ->]; lra. }
  assert (By : PlayerState.velY (Level.player s) <= 15)
    by (destruct Vy as [-> | ->]; lra).
  unfold Player.jumpForce.
  repeat split_if; eexists; (split; [reflexivity|]); simpl;
    (repeat split;
     [ lra
     | apply Qabs_Qle_condition; exact Bx
     | intros H; apply Qabs_Qle_condition; exact (Bn H)
     | exact Wd ]).
Qed.

(** The theorem at a body that runs on the ground of the first level. *)
Lemma speed_bounds_witness :
  ∃ out,
    Player.update 1 holdRight (Resolver.instanceOf (Game.generateLevel 0))
      (running 200 400 5.5) = Some out ∧
    Qabs (Player.velX (Player.player out)) <= 5.5.
Proof.
  destruct (speed_bounds_after_tick 1 holdRight
              (Resolver.instanceOf (Game.generateLevel 0))
              (running 200 400 5.5))
    as (_ & _ & _ & out & E & _ & _ & H & _).
  - vm_compute. reflexivity.
  - left. reflexivity.
  - exists out. split; [exact E|]. apply H. vm_compute. reflexivity.
Defined.

(** C1, as stated, fails on a tick that starts a slide.  A body that runs
    at the cap on the ground of the first level, the down key held: the
    boost takes the speed to 6.5 after the cap, the decay of the slide to
    6.37, and the tick ends with it. *)
Lemma slide_start_exceeds_cap :
  let lv := Resolver.instanceOf (Game.generateLevel 0) in
  let p := running 200 400 5.5 in
  Level.wf lv ∧ wallDirOk p ∧
  Player.slideStarts holdRightDown (capped holdRightDown p) = true ∧
  (Qred ∘ Player.velX ∘ Player.player)
    <$> Player.update 1 holdRightDown lv p = Some 6.37 ∧
  ¬ Qabs 6.37 <= 5.5.
Proof.
  cbv zeta. split; [vm_compute; reflexivity|].
  split; [left; reflexivity|].
  split; [vm_compute; reflexivity|].
  split; [vm_compute; reflexivity|].
  intros H. vm_compute in H. apply H. reflexivity.
Qed.

(** The same in play, from [init]: start the first level, hold left for
    fifteen frames (the fall ends, the body reaches the cap), then press
    down; the frame that starts the slide ends at -6.37. *)
Lemma slide_boost_reached_in_play :
  (λ g, (Qred ∘ Player.velX) <$> Game.player g)
    <$> Game.run Instance.drawsLow
          ((Game.EvPlay, 0) :: (Game.EvKeyDown Game.KeyLeft, 0)
           :: Session.frames 15 16.6667
           ++ (Game.EvKeyDown Game.KeyDown, 300)
           :: Session.frames 1 300)
          Session.fresh
  = Some (Some (-6.37)).
Proof. vm_compute. reflexivity. Qed.

(** C2 fails on the code: the time factor scales the timers only.  From
    rest, in the air, the right key held, a tick adds 0.4 to the horizontal
    speed and 0.45 to the vertical speed whatever [dt] is, and moves the
    body by as much; at [dt = 0.5] the claim asks for 0.2 and 0.225. *)
Theorem velocity_increments_ignore_dt :
  (∀ dt,
     let q := fst (Player.integrate dt holdRight (Player.new 40 360)) in
     Player.velX q == 0.4 ∧ Player.velY q == 0.45) ∧
  match
    Player.update 0.5 holdRight
      (Resolver.instanceOf (Game.generateLevel 0)) (Player.new 40 360)
  with
  | Some out =>
      let q := Player.player out in
      Player.velX q == 0.4 ∧ Player.velY q == 0.45 ∧
      Player.x q == 40.4 ∧ Player.y q == 360.45
  | None => False
  end ∧
  ¬ 0.4 == 1 * Player.acc * 0.5 ∧
  ¬ 0.45 == Player.gravity * 0.5.
Proof.
  split; [|split; [|split]].
  - intros dt. split; vm_compute; reflexivity.
  - vm_compute. tauto.
  - vm_compute. discriminate.
  - vm_compute. discriminate.
Qed.

End Movement.

(** ** The session *)

Section Sessions.

Import Session.

Local Open Scope Q_scope.

Lemma notWorse_refl (o : option Q) : notWorse o o.
Proof. destruct o as [b|]; simpl; [|exact I]. exists b. split; [reflexivity|lra]. Qed.

Lemma notWorse_trans (a b c : option Q) :
  notWorse a b → notWorse b c → notWorse a c.
Proof.
  unfold notWorse. destruct c as [x|]; [|auto].
  intros Hab (y & -> & Hy). destruct Hab as (z & -> & Hz).
  exists z. split; [reflexivity|lra].
Qed.

(** What [completeLevel] leaves in [bestTimes]. *)
Lemma completeLevel_bestTimes clock g :
  Game.bestTimes (Game.completeLevel clock g)
  = <[Game.currentLevelIndex g :=
        recorded (finishTime clock g)
          (Game.bestTimes g !! Game.currentLevelIndex g)]> (Game.bestTimes g).
Proof.
  unfold Game.completeLevel, recorded, finishTime. simpl.
  destruct (Game.bestTimes g !! Game.currentLevelIndex g) as [b|] eqn:E;
    [|reflexivity].
  destruct (Qltb _ b); simpl; [reflexivity|].
  symmetry. apply insert_id, E.
Qed.

Lemma completeLevel_notWorse clock g L :
  notWorse (Game.bestTimes (Game.completeLevel clock g) !! L)
    (Game.bestTimes g !! L).
Proof.
  rewrite completeLevel_bestTimes.
  destruct (decide (Game.currentLevelIndex g = L)) as [<-|Hne].
  - rewrite lookup_insert_eq. unfold notWorse, recorded.
    destruct (Game.bestTimes g !! Game.currentLevelIndex g) as [b|];
      [|exact I].
    eexists. split; [reflexivity|].
    destruct (Qltb _ b) eqn:E; [apply Qltb_lt in E|]; lra.
  - rewrite lookup_insert_ne by exact Hne. apply notWorse_refl.
Qed.

Lemma startGame_bestTimes rnd clock i g g' :
  Game.startGame rnd clock i g = Some g' →
  Game.bestTimes g' = Game.bestTimes g.
Proof.
  unfold Game.startGame. intros H.
  destruct (Game.levels g !! _) as [tpl|]; simpl in H; [|discriminate].
  destruct (Level.new _ _ tpl) as [[lv n]|]; simpl in H; [|discriminate].
  destruct (Game.getSelectedSkinColor g) as [skinColor|]; simpl in H;
    [|discriminate].
  injection H as <-. reflexivity.
Qed.

(** A click in the skins list touches the skins, the selected index, the
    coins and the list itself, and nothing else. *)
Lemma clickSkin_rest idx g :
  let g' := fst (Game.clickSkin idx g) in
  Game.state g' = Game.state g ∧ Game.levels g' = Game.levels g ∧
  Game.currentLevelIndex g' = Game.currentLevelIndex g ∧
  Game.level g' = Game.level g ∧ Game.player g' = Game.player g ∧
  Game.sessionCoins g' = Game.sessionCoins g ∧
  Game.bestTimes g' = Game.bestTimes g ∧
  Game.levelStartTime g' = Game.levelStartTime g ∧
  Game.currentTime g' = Game.currentTime g ∧
  Game.lastFrame g' = Game.lastFrame g ∧
  Game.input g' = Game.input g ∧ Game.randomCalls g' = Game.randomCalls g.
Proof.
  cbv zeta. unfold Game.clickSkin.
  destruct (Game.skinsListDiv g !! idx) as [[[|]|[|]]|];
    try destruct (Game.skins g !! idx) as [sk|];
    try destruct (Game.coins g >=? Skins.price sk)%Z;
    simpl; repeat split; reflexivity.
Qed.

Lemma togglePause_bestTimes clock f g :
  Game.bestTimes (Game.togglePause clock f g) = Game.bestTimes g.
Proof.
  unfold Game.togglePause.
  destruct (Game.state g), f as [[|]|]; reflexivity.
Qed.

Lemma step_notWorse rnd ev g g' L :
  Game.step rnd ev g = Some g' →
  notWorse (Game.bestTimes g' !! L) (Game.bestTimes g !! L).
Proof.
  destruct ev as [e clock]. unfold Game.step.
  assert (Hsame : ∀ g1 : Game.t, Game.bestTimes g1 = Game.bestTimes g →
            notWorse (Game.bestTimes g1 !! L) (Game.bestTimes g !! L)).
  { intros g1 ->. apply notWorse_refl. }
  destruct e; intros H; try (injection H as <-);
    try (apply Hsame; reflexivity);
    try (apply Hsame; apply clickSkin_rest);
    try (apply Hsame; eapply startGame_bestTimes; exact H).
  - apply Hsame. destruct k; simpl; try reflexivity.
    apply togglePause_bestTimes.
  - apply Hsame. destruct k; reflexivity.
  - unfold Game.nextLevel in H.
    destruct (_ <? _)%Z.
    + apply Hsame. eapply startGame_bestTimes; exact H.
    + injection H as <-. apply Hsame. reflexivity.
  - apply Hsame. apply togglePause_bestTimes.
  - unfold Game.loop in H. simpl in H.
    destruct (Game.state g); try (injection H as <-; apply Hsame; reflexivity).
    destruct (Game.level g) as [lv|]; simpl in H; [|discriminate].
    destruct (Game.player g) as [p|]; simpl in H; [|discriminate].
    destruct (Player.update _ _ _ p) as [out|]; simpl in H; [|discriminate].
    destruct (Player.call out).
    + apply Hsame. unfold Game.resetLevel in H.
      apply startGame_bestTimes in H. exact H.
    + injection H as <-.
      eapply notWorse_trans; [apply completeLevel_notWorse|].
      apply Hsame. reflexivity.
    + injection H as <-. apply Hsame. reflexivity.
    + injection H as <-. apply Hsame. reflexivity.
Qed.

Lemma run_notWorse rnd evs g g' L :
  Game.run rnd evs g = Some g' →
  notWorse (Game.bestTimes g' !! L) (Game.bestTimes g !! L).
Proof.
  unfold Game.run. revert g.
  induction evs as [|ev evs IH]; intros g H; simpl in H.
  - injection H as <-. apply notWorse_refl.
  - destruct (Game.step rnd ev g) as [g1|] eqn:E; [|discriminate].
    simpl in H. eapply notWorse_trans; [apply IH, H|].
    eapply step_notWorse, E.
Qed.

(** C7: the best time of a level never increases.  [completeLevel] writes
    the finish time when the level has no best time yet or when the finish
    time is strictly smaller than the best, and leaves the best time as it
    is otherwise; it touches no other level; and over any history of the
    session the best time of every level, once set, stays set and does not
    grow. *)
Theorem best_time_never_increases rnd evs g g' L :
  Game.run rnd evs g = Some g' →
  notWorse (Game.bestTimes g' !! L) (Game.bestTimes g !! L) ∧
  (∀ clock,
     let done := Game.completeLevel clock g' in
     let finish := finishTime clock g' in
     let cur := Game.currentLevelIndex g' in
     Game.bestTimes done !! cur
     = Some (match Game.bestTimes g' !! cur with
             | None => finish
             | Some b => if Qltb finish b then finish else b
             end) ∧
     (∀ b, Game.bestTimes g' !! cur = Some b → ¬ finish < b →
           Game.bestTimes done = Game.bestTimes g') ∧
     (∀ L', L' ≠ cur → Game.bestTimes done !! L' = Game.bestTimes g' !! L') ∧
     notWorse (Game.bestTimes done !! L) (Game.bestTimes g !! L)).
Proof.
  intros Hrun. split; [exact (run_notWorse _ _ _ _ _ Hrun)|].
  intros clock done finish cur. unfold done, finish, cur.
  rewrite completeLevel_bestTimes. repeat split.
  - rewrite lookup_insert_eq. reflexivity.
  - intros b Hb Hnot. rewrite Hb. simpl.
    destruct (Qltb _ b) eqn:E; [apply Qltb_lt in E; contradiction|].
    apply insert_id, Hb.
  - intros L' Hne. apply lookup_insert_ne. congruence.
  - rewrite <- completeLevel_bestTimes.
    eapply notWorse_trans; [apply completeLevel_notWorse|].
    exact (run_notWorse _ _ _ _ _ Hrun).
Qed.

(** *** Templates and instances *)

Lemma forUpTo_snoc {A : Type} (f : Z → A) (n : Z) (l0 : list A) :
  forUpTo n (λ i l, l ++ [f i]) l0 = l0 ++ (f <$> seqZ 0 n).
Proof.
  unfold forUpTo. generalize (seqZ 0 n). intros l. revert l0.
  induction l as [|i l IH]; intros l0; simpl.
  - symmetry. apply app_nil_r.
  - rewrite IH. rewrite <- app_assoc. reflexivity.
Qed.

Lemma buildLevels_length : length Game.buildLevels = Z.to_nat Game.totalLevels.
Proof.
  unfold Game.buildLevels. rewrite forUpTo_snoc, app_nil_l.
  rewrite length_fmap. apply length_seqZ.
Qed.

Lemma buildLevels_lookup (i : Z) :
  (0 <= i < Game.totalLevels)%Z →
  Game.buildLevels !! Z.to_nat i = Some (Game.generateLevel i).
Proof.
  intros Hi. unfold Game.buildLevels. rewrite forUpTo_snoc, app_nil_l.
  rewrite list_lookup_fmap, lookup_seqZ_lt by lia.
  simpl. f_equal. f_equal. lia.
Qed.

Ltac grid_length :=
  repeat first
    [ rewrite setTile_length
    | apply (forUpTo_inv (λ m : Grid, length m = Z.to_nat Game.gen_height));
      [|intros ? ? ?]
    | match goal with
      | |- context [if ?b then _ else _] => destruct b
      end
    | assumption
    | reflexivity ].

Lemma generateGrid_length index :
  length (Game.generateGrid index) = Z.to_nat Game.gen_height.
Proof. unfold Game.generateGrid. cbv zeta. grid_length. Qed.

Lemma parseCell_uncollected rnd y x (s : Level.t * nat) :
  Forall (λ c, Coin.collected c = false) (Level.coins (fst s)) →
  Forall (λ c, Coin.collected c = false)
    (Level.coins (fst (Level.parseCell rnd y x s))).
Proof.
  destruct s as [lv n]. unfold Level.parseCell. simpl. intros H.
  repeat match goal with
         | |- context [if ?b then _ else _] => destruct b
         end; simpl; try exact H.
  apply Forall_app. split; [exact H|]. apply Forall_singleton. reflexivity.
Qed.

Lemma new_uncollected rnd n tpl lv n' :
  Level.new rnd n tpl = Some (lv, n') →
  Forall (λ c, Coin.collected c = false) (Level.coins lv).
Proof.
  unfold Level.new. intros H.
  destruct ((list_ascii_of_string <$> tpl) !! 0%nat) as [row0|]; [|discriminate].
  simpl in H. injection H as H.
  change lv with (fst (lv, n')). rewrite <- H. unfold Level.parse.
  set (P := λ s : Level.t * nat,
              Forall (λ c, Coin.collected c = false) (Level.coins (fst s))).
  apply (forUpTo_inv P); [constructor|].
  intros y s Hs. apply (forUpTo_inv P); [exact Hs|].
  intros x s' Hs'. apply parseCell_uncollected, Hs'.
Qed.

(** The constructor returns on every generated template. *)
Lemma new_generated rnd n index :
  is_Some (Level.new rnd n (Game.generateLevel index)).
Proof.
  unfold Level.new, Game.generateLevel.
  pose proof (generateGrid_length index) as Hlen.
  destruct (Game.generateGrid index) as [|row rest]; [discriminate Hlen|].
  simpl. eauto.
Qed.

(** *** The session stays sound *)

Lemma imap_Forall2 {A B : Type} (R : B → A → Prop) (l : list A) :
  ∀ f : nat → A → B, (∀ i x, R (f i x) x) → Forall2 R (imap f l) l.
Proof.
  induction l as [|x l IH]; intros f Hf; simpl; constructor; [apply Hf|].
  apply IH. intros i y. apply Hf.
Qed.

(** The list [buildSkinsUI] makes goes with the skins. *)
Lemma buildSkinsUI_listed g g' :
  Game.skins g' = Game.skins g →
  Game.skinsListDiv g' = Game.buildSkinsUI g →
  listed g'.
Proof.
  intros Hs Hl. unfold listed. rewrite Hs, Hl. unfold Game.buildSkinsUI.
  apply imap_Forall2. intros i sk.
  destruct (Skins.unlocked sk); reflexivity.
Qed.

Lemma skinAt_of_nat (idx : nat) (sks : list Skins.Skin) :
  Skins.skinAt (Z.of_nat idx) sks = sks !! idx.
Proof.
  unfold Skins.skinAt.
  destruct (Z.of_nat idx <? 0)%Z eqn:E; [apply Z.ltb_lt in E; lia|].
  rewrite Nat2Z.id. reflexivity.
Qed.

Lemma startGame_sound rnd clock i g :
  sound g →
  ∃ g' lv n,
    Game.startGame rnd clock i g = Some g' ∧ sound g' ∧
    Game.levels g' = Game.levels g ∧
    Game.level g' = Some lv ∧
    Level.new rnd (Game.randomCalls g)
      (Game.generateLevel (Game.currentLevelIndex g')) = Some (lv, n) ∧
    (Game.currentLevelIndex g' =
       if ((i <? 0) || (i >=? Game.totalLevels))%Z then 0%Z else i).
Proof.
  intros (Hlv & Hidx & Hwf & Hst & [col Hcol] & Hlist). unfold Game.startGame.
  rewrite Hlv, buildLevels_length.
  replace (Z.of_nat (Z.to_nat Game.totalLevels)) with Game.totalLevels
    by reflexivity.
  set (j := if ((i <? 0) || (i >=? Game.totalLevels))%Z then 0%Z else i).
  assert (Hj : (0 <= j < Game.totalLevels)%Z).
  { unfold j. destruct ((i <? 0) || (i >=? Game.totalLevels))%Z eqn:E.
    - unfold Game.totalLevels. lia.
    - rewrite orb_false_iff, Z.ltb_ge, Z.geb_leb, Z.leb_gt in E. lia. }
  rewrite (buildLevels_lookup j Hj). simpl.
  destruct (new_generated rnd (Game.randomCalls g) j) as [[lv n] Hnew].
  rewrite Hnew. simpl. rewrite Hcol. simpl.
  eexists _, lv, n. split; [reflexivity|].
  split; [|repeat split; simpl; try assumption; try lia; eauto].
  unfold sound. simpl.
  split; [reflexivity|]. split; [exact Hj|].
  split; [intros lv' [= <-]; eapply new_wf, Hnew|].
  split; [intros _; eauto|].
  split; [exists col; exact Hcol|exact Hlist].
Qed.

Lemma update_wf dt inp lv (p : Player.t) :
  Level.wf lv →
  ∃ out, Player.update dt inp lv p = Some out ∧ Level.wf (Player.level out).
Proof.
  intros Hwf. unfold Player.update.
  destruct (Player.integrate dt inp p) as [q inp'].
  destruct (collide_wf lv q (Player.x q + Player.velX q)
              (Player.y q + Player.velY q) Hwf) as (s & -> & Hs).
  simpl.
  repeat match goal with
         | |- context [if ?b then _ else _] => destruct b
         end; eexists; (split; [reflexivity|exact Hs]).
Qed.

(** A session that differs from a sound one in neither templates, index,
    level, player nor skins, and plays or pauses only if the other does, is
    sound. *)
Lemma sound_like g g' :
  sound g →
  Game.levels g' = Game.levels g →
  Game.currentLevelIndex g' = Game.currentLevelIndex g →
  Game.level g' = Game.level g →
  Game.player g' = Game.player g →
  Game.skins g' = Game.skins g →
  Game.selectedSkinIndex g' = Game.selectedSkinIndex g →
  Game.skinsListDiv g' = Game.skinsListDiv g →
  (Game.state g' = Game.playing ∨ Game.state g' = Game.paused →
   Game.state g = Game.playing ∨ Game.state g = Game.paused) →
  sound g'.
Proof.
  intros (A & B & C & D & E & F) Hl Hi Hlv Hp Hsk Hsel Hdiv Hst.
  unfold sound, listed, Game.getSelectedSkinColor in *.
  rewrite Hl, Hi, Hlv, Hp, Hsk, Hsel, Hdiv. split; [exact A|].
  split; [exact B|]. split; [exact C|].
  split; [intros H; apply D, Hst, H|]. split; [exact E|exact F].
Qed.

Lemma sound_away st g :
  st ≠ Game.playing → st ≠ Game.paused → sound g → sound (Game.set_state st g).
Proof.
  intros H1 H2 Hs. apply (sound_like g); try reflexivity; [exact Hs|].
  simpl. intros [H|H]; congruence.
Qed.

Lemma togglePause_sound clock f g :
  f ≠ Some true → sound g → sound (Game.togglePause clock f g).
Proof.
  intros Hf Hs. unfold Game.togglePause.
  destruct (Game.state g) eqn:E, f as [[|]|]; try congruence;
    try exact Hs;
    (apply (sound_like g); try reflexivity; [exact Hs|]);
    rewrite E; auto.
Qed.

Lemma completeLevel_sound clock g : sound g → sound (Game.completeLevel clock g).
Proof.
  intros Hs. unfold Game.completeLevel. simpl.
  destruct (Game.bestTimes g !! _) as [b|]; [destruct (Qltb _ b)|];
    (apply (sound_like g); try reflexivity; [exact Hs|]);
    simpl; intros [H|H]; discriminate H.
Qed.

Lemma completeLevel_levels clock g :
  Game.levels (Game.completeLevel clock g) = Game.levels g.
Proof.
  unfold Game.completeLevel. simpl.
  destruct (Game.bestTimes g !! _) as [b|]; [destruct (Qltb _ b)|];
    reflexivity.
Qed.

Lemma showSkins_sound g : sound g → sound (Game.showSkins g).
Proof.
  intros (A & B & C & D & E & F). unfold Game.showSkins, sound. simpl.
  split; [exact A|]. split; [exact B|]. split; [exact C|].
  split; [intros [H|H]; discriminate H|]. split; [exact E|].
  eapply buildSkinsUI_listed; reflexivity.
Qed.

Lemma clickSkin_sound idx g : sound g → sound (fst (Game.clickSkin idx g)).
Proof.
  intros Hs. pose proof Hs as (A & B & C & D & E & F).
  unfold Game.clickSkin.
  destruct (Game.skinsListDiv g !! idx) as [b|] eqn:Hb; [|exact Hs].
  destruct (Forall2_lookup_l _ _ _ _ _ F Hb) as (sk & Hsk & _).
  rewrite Hsk.
  destruct b as [[|]|[|]]; try exact Hs.
  - unfold sound. simpl.
    split; [exact A|]. split; [exact B|]. split; [exact C|].
    split; [exact D|]. split.
    + unfold Game.getSelectedSkinColor. simpl.
      rewrite skinAt_of_nat, Hsk. simpl. eauto.
    + eapply buildSkinsUI_listed; reflexivity.
  - destruct (Game.coins g >=? Skins.price sk)%Z; [|exact Hs].
    unfold sound. simpl.
    split; [exact A|]. split; [exact B|]. split; [exact C|].
    split; [exact D|]. split.
    + unfold Game.getSelectedSkinColor. simpl. rewrite skinAt_of_nat.
      rewrite list_lookup_insert_eq by (eapply lookup_lt_Some, Hsk).
      simpl. eauto.
    + eapply buildSkinsUI_listed; reflexivity.
Qed.

Lemma loop_sound rnd now clock g :
  sound g → ∃ g', Game.loop rnd now clock g = Some g' ∧ sound g' ∧
                  Game.levels g' = Game.levels g.
Proof.
  intros Hs. pose proof Hs as (A & B & C & D & E & F). unfold Game.loop. simpl.
  destruct (Game.state g) eqn:E0; try (eexists; split; [reflexivity|]; split;
    [apply (sound_like g); try reflexivity; [exact Hs|]; simpl; auto
    | reflexivity]).
  destruct D as [[lv Hlv] [p Hp]]; [auto|].
  rewrite Hlv, Hp. simpl.
  assert (Hwf : Level.wf (Level.updateHazards
            (Qmin 33 (now - Game.lastFrame g) / 16.6667) lv)).
  { unfold Level.wf, Level.updateHazards. simpl. apply C, Hlv. }
  destruct (update_wf (Qmin 33 (now - Game.lastFrame g) / 16.6667)
              (Game.input g) _ p Hwf) as (out & -> & Hout).
  simpl.
  set (g1 := Game.set_input _ _).
  assert (H1 : sound g1).
  { unfold sound, g1. simpl. split; [exact A|]. split; [exact B|].
    split; [intros lv' [= <-]; exact Hout|].
    split; [intros _; eauto|]. split; [exact E|exact F]. }
  destruct (Player.call out).
  - unfold Game.resetLevel.
    destruct (startGame_sound rnd clock (Game.currentLevelIndex g1) g1 H1)
      as (g' & lv' & n & -> & Hs' & Hl & _).
    eexists. split; [reflexivity|]. split; [exact Hs'|exact Hl].
  - eexists. split; [reflexivity|].
    split; [apply completeLevel_sound, H1|].
    rewrite completeLevel_levels. reflexivity.
  - eexists. split; [reflexivity|]. split; [exact H1|reflexivity].
  - eexists. split; [reflexivity|]. split; [exact H1|reflexivity].
Qed.

Lemma step_sound rnd ev g :
  sound g → ∃ g', Game.step rnd ev g = Some g' ∧ sound g'.
Proof.
  intros Hs. destruct ev as [e clock]. unfold Game.step.
  destruct e.
  - eexists. split; [reflexivity|].
    destruct k; simpl; try exact Hs. apply togglePause_sound; [discriminate|exact Hs].
  - eexists. split; [reflexivity|]. destruct k; exact Hs.
  - destruct (startGame_sound rnd clock 0 g Hs) as (g' & ? & ? & -> & H & _).
    eauto.
  - destruct (startGame_sound rnd clock i g Hs) as (g' & ? & ? & -> & H & _).
    eauto.
  - unfold Game.resetLevel.
    destruct (startGame_sound rnd clock (Game.currentLevelIndex g) g Hs)
      as (g' & ? & ? & -> & H & _).
    eauto.
  - unfold Game.nextLevel. destruct (_ <? _)%Z.
    + destruct (startGame_sound rnd clock (Game.currentLevelIndex g + 1) g Hs)
        as (g' & ? & ? & -> & H & _).
      eauto.
    + eexists. split; [reflexivity|]. apply sound_away; [discriminate..|exact Hs].
  - eexists. split; [reflexivity|].
    apply togglePause_sound; [discriminate|exact Hs].
  - eexists. split; [reflexivity|]. apply sound_away; [discriminate..|exact Hs].
  - eexists. split; [reflexivity|]. apply sound_away; [discriminate..|exact Hs].
  - eexists. split; [reflexivity|]. apply showSkins_sound, Hs.
  - eexists. split; [reflexivity|]. apply sound_away; [discriminate..|exact Hs].
  - eexists. split; [reflexivity|]. apply clickSkin_sound, Hs.
  - destruct (loop_sound rnd now clock g Hs) as (g' & -> & H & _). eauto.
Qed.

(** The session [init] returns is sound when its selected skin is one of
    the list. *)
Lemma init_sound saved g :
  Game.init saved = Some g → is_Some (Game.getSelectedSkinColor g) → sound g.
Proof.
  unfold Game.init. intros H Hc.
  destruct (Skins.buildSkins saved _) as [[sks sel]|]; simpl in H;
    [|discriminate].
  injection H as <-. unfold sound. simpl.
  split; [reflexivity|].
  split; [unfold Game.totalLevels; lia|].
  split; [intros lv H; discriminate H|].
  split; [intros [H|H]; discriminate H|].
  split; [exact Hc|].
  eapply buildSkinsUI_listed; reflexivity.
Qed.

(** *** Sessions whose stored selection names no skin *)

Lemma sound_built g : sound g → built g.
Proof.
  intros (A & B & C & D & E & F).
  split; [exact A|]. split; [exact B|]. split; [exact C|].
  split; [exact D|]. split; [intros _; exact E|exact F].
Qed.

Lemma built_sound g :
  built g → is_Some (Game.getSelectedSkinColor g) → sound g.
Proof.
  intros (A & B & C & D & _ & F) E.
  split; [exact A|]. split; [exact B|]. split; [exact C|].
  split; [exact D|]. split; [exact E|exact F].
Qed.

Lemma init_built saved g : Game.init saved = Some g → built g.
Proof.
  unfold Game.init. intros H.
  destruct (Skins.buildSkins saved _) as [[sks sel]|]; simpl in H;
    [|discriminate].
  injection H as <-. unfold built. simpl.
  split; [reflexivity|].
  split; [unfold Game.totalLevels; lia|].
  split; [intros lv H; discriminate H|].
  split; [intros [H|H]; discriminate H|].
  split; [intros [? H]; discriminate H|].
  eapply buildSkinsUI_listed; reflexivity.
Qed.

(** [startGame] raises when the selected index names no skin. *)
Lemma startGame_no_skin rnd clock i g :
  Game.getSelectedSkinColor g = None → Game.startGame rnd clock i g = None.
Proof.
  intros H. unfold Game.startGame. rewrite H.
  destruct (Game.levels g !! _) as [tpl|]; [|reflexivity]. simpl.
  destruct (Level.new _ _ tpl) as [[lv n]|]; reflexivity.
Qed.

(** Before any level is loaded, a session out of play that differs from a
    built one in neither templates, index, level nor skins is built. *)
Lemma built_idle g g' :
  built g → Game.level g = None →
  Game.state g' ≠ Game.playing → Game.state g' ≠ Game.paused →
  Game.levels g' = Game.levels g →
  Game.currentLevelIndex g' = Game.currentLevelIndex g →
  Game.level g' = Game.level g →
  Game.skins g' = Game.skins g →
  Game.skinsListDiv g' = Game.skinsListDiv g →
  built g'.
Proof.
  intros (A & B & C & _ & _ & F) Hnone H1 H2 Hl Hi Hlv Hsk Hdiv.
  unfold built, listed in *. rewrite Hl, Hi, Hlv, Hsk, Hdiv.
  split; [exact A|]. split; [exact B|]. split; [exact C|].
  split; [intros [H|H]; contradiction|].
  split; [|exact F]. rewrite Hnone. intros [? H]. discriminate H.
Qed.

Lemma clickSkin_built idx g :
  built g → Game.level g = None →
  Game.state g ≠ Game.playing → Game.state g ≠ Game.paused →
  built (fst (Game.clickSkin idx g)).
Proof.
  intros Hb Hnone H1 H2. pose proof Hb as (A & B & C & _ & _ & F).
  pose proof (clickSkin_rest idx g) as R. cbv zeta in R.
  destruct R as (Rs & Rl & Ri & Rlv & _).
  unfold built. rewrite Rs, Rl, Ri, Rlv.
  split; [exact A|]. split; [exact B|]. split; [exact C|].
  split; [intros [H|H]; contradiction|].
  split; [rewrite Hnone; intros [? H]; discriminate H|].
  unfold Game.clickSkin.
  destruct (Game.skinsListDiv g !! idx) as [[[|]|[|]]|]; try exact F.
  - eapply buildSkinsUI_listed; reflexivity.
  - destruct (Game.skins g !! idx) as [sk|]; [|exact F].
    destruct (Game.coins g >=? Skins.price sk)%Z; [|exact F].
    eapply buildSkinsUI_listed; reflexivity.
Qed.

(** One event on a built session: its handler returns and leaves a built
    session, in which the selected skin is one of the list if it was; or
    it raises, and then it is a handler that starts a level and the
    selected index names no skin. *)
Lemma step_built rnd ev g :
  built g →
  match Game.step rnd ev g with
  | Some g' =>
      built g' ∧
      (is_Some (Game.getSelectedSkinColor g) →
       is_Some (Game.getSelectedSkinColor g'))
  | None => Game.getSelectedSkinColor g = None ∧ starts (fst ev) g
  end.
Proof.
  intros Hb.
  destruct (Game.getSelectedSkinColor g) as [c|] eqn:Hc.
  { assert (Hs : sound g) by (apply built_sound; [exact Hb|rewrite Hc; eauto]).
    destruct (step_sound rnd ev g Hs) as (g' & -> & Hs').
    split; [apply sound_built, Hs'|]. intros _. apply Hs'. }
  assert (Hnone : Game.level g = None).
  { destruct Hb as (_ & _ & _ & _ & G & _).
    destruct (Game.level g) as [lv|]; [|reflexivity].
    destruct G as [? E]; [eauto|congruence]. }
  assert (H1 : Game.state g ≠ Game.playing).
  { intros H. destruct Hb as (_ & _ & _ & D & _).
    destruct (D (or_introl H)) as ([? E] & _). congruence. }
  assert (H2 : Game.state g ≠ Game.paused).
  { intros H. destruct Hb as (_ & _ & _ & D & _).
    destruct (D (or_intror H)) as ([? E] & _). congruence. }
  assert (Hno : ∀ g', is_Some (@None string) →
                      is_Some (Game.getSelectedSkinColor g'))
    by (intros g' [? H]; discriminate H).
  assert (Hidle : ∀ g', Game.state g' = Game.state g →
            Game.levels g' = Game.levels g →
            Game.currentLevelIndex g' = Game.currentLevelIndex g →
            Game.level g' = Game.level g →
            Game.skins g' = Game.skins g →
            Game.skinsListDiv g' = Game.skinsListDiv g → built g').
  { intros g' Hst. apply (built_idle g); [exact Hb|exact Hnone|rewrite Hst..];
      assumption. }
  assert (Haway : ∀ st, st ≠ Game.playing → st ≠ Game.paused →
            built (Game.set_state st g)).
  { intros st A B. apply (built_idle g); try reflexivity; assumption. }
  destruct ev as [e clock]. unfold Game.step, fst.
  destruct e.
  - split; [|apply Hno].
    destruct k; simpl; try (apply Hidle; reflexivity).
    unfold Game.togglePause.
    destruct (Game.state g); try contradiction; exact Hb.
  - split; [|apply Hno]. destruct k; simpl; try exact Hb;
      apply Hidle; reflexivity.
  - rewrite (startGame_no_skin _ _ _ _ Hc). split; [reflexivity|exact I].
  - rewrite (startGame_no_skin _ _ _ _ Hc). split; [reflexivity|exact I].
  - unfold Game.resetLevel. rewrite (startGame_no_skin _ _ _ _ Hc).
    split; [reflexivity|exact I].
  - unfold Game.nextLevel, starts.
    destruct (_ <? _)%Z eqn:E.
    + rewrite (startGame_no_skin _ _ _ _ Hc). split; [reflexivity|].
      apply Z.ltb_lt, E.
    + split; [apply Haway; discriminate|apply Hno].
  - split; [|apply Hno]. unfold Game.togglePause.
    destruct (Game.state g); try contradiction; exact Hb.
  - split; [apply Haway; discriminate|apply Hno].
  - split; [apply Haway; discriminate|apply Hno].
  - split; [|apply Hno]. unfold Game.showSkins.
    destruct (Haway Game.skinsScreen) as (A & B & C & D & G & _);
      [discriminate..|].
    split; [exact A|]. split; [exact B|]. split; [exact C|].
    split; [intros [H|H]; discriminate H|]. split; [exact G|].
    eapply buildSkinsUI_listed; reflexivity.
  - split; [apply Haway; discriminate|apply Hno].
  - split; [apply clickSkin_built; assumption|apply Hno].
  - unfold Game.loop. simpl.
    destruct (Game.state g) eqn:E; try contradiction;
      (split; [|apply Hno]); apply Hidle; simpl; try reflexivity;
      exact E.
Qed.

(** Whatever was stored, a history that runs to its end leaves a built
    session, and keeps a selected skin that is one of the list. *)
Lemma run_built rnd evs g g' :
  built g → Game.run rnd evs g = Some g' →
  built g' ∧
  (is_Some (Game.getSelectedSkinColor g) →
   is_Some (Game.getSelectedSkinColor g')).
Proof.
  unfold Game.run. revert g.
  induction evs as [|ev evs IH]; intros g Hb H; simpl in H.
  - injection H as <-. auto.
  - pose proof (step_built rnd ev g Hb) as Hstep.
    destruct (Game.step rnd ev g) as [g1|]; [|discriminate H].
    simpl in H. destruct Hstep as [Hb1 Hk1].
    destruct (IH g1 Hb1 H) as [Hb' Hk']. auto.
Qed.

(** No history of events raises: the frame loop never halts. *)
Lemma run_sound rnd evs g :
  sound g → ∃ g', Game.run rnd evs g = Some g' ∧ sound g'.
Proof.
  intros Hs. unfold Game.run. apply (foldM_inv sound); [exact Hs|].
  intros ev g0 H0. apply step_sound, H0.
Qed.

(** C8: a reset gives the level of the template again.  Whatever [init]
    loaded, after any history of events that runs to its end the stored
    templates are still those of [buildLevels], and a session that has
    loaded a level has a selected skin of the list; with such a skin
    [resetLevel] returns, leaves the templates as they are, and the level
    it installs has the tiles and the coins, none collected, of any fresh
    instance of the template of the current index, whatever the random
    source.  A history from a session that [init] returns with a selected
    skin of the list does run to its end. *)
Theorem reset_restores_template rnd saved g0 evs clock :
  Game.init saved = Some g0 →
  (is_Some (Game.getSelectedSkinColor g0) → is_Some (Game.run rnd evs g0)) ∧
  ∀ g, Game.run rnd evs g0 = Some g →
    Game.levels g = Game.buildLevels ∧
    Game.levels g !! Z.to_nat (Game.currentLevelIndex g)
    = Some (Game.generateLevel (Game.currentLevelIndex g)) ∧
    (is_Some (Game.level g) → is_Some (Game.getSelectedSkinColor g)) ∧
    (is_Some (Game.getSelectedSkinColor g0) →
     is_Some (Game.getSelectedSkinColor g)) ∧
    (is_Some (Game.getSelectedSkinColor g) →
     ∃ g' lv,
       Game.resetLevel rnd clock g = Some g' ∧
       Game.levels g' = Game.levels g ∧
       Game.currentLevelIndex g' = Game.currentLevelIndex g ∧
       Game.level g' = Some lv ∧
       Forall (λ c, Coin.collected c = false) (Level.coins lv) ∧
       ∀ rnd' n', ∃ fresh n'',
         Level.new rnd' n' (Game.generateLevel (Game.currentLevelIndex g))
         = Some (fresh, n'') ∧
         Level.map lv = Level.map fresh ∧
         Level.coins lv = Level.coins fresh).
Proof.
  intros Hinit. split.
  { intros Hskin.
    destruct (run_sound rnd evs g0 (init_sound saved g0 Hinit Hskin))
      as (g & -> & _).
    eauto. }
  intros g Hrun.
  destruct (run_built rnd evs g0 g (init_built saved g0 Hinit) Hrun)
    as [Hb Hkeep].
  pose proof Hb as (A & B & _ & _ & G & _).
  split; [exact A|].
  split; [rewrite A; apply buildLevels_lookup, B|].
  split; [exact G|]. split; [exact Hkeep|].
  intros Hskin. pose proof (built_sound g Hb Hskin) as Hs.
  destruct (startGame_sound rnd clock (Game.currentLevelIndex g) g Hs)
    as (g' & lv & n & Hreset & _ & Hl & Hlv & Hnew & Hidx).
  assert (Hi : Game.currentLevelIndex g' = Game.currentLevelIndex g).
  { rewrite Hidx.
    destruct ((Game.currentLevelIndex g <? 0)%Z
              || (Game.currentLevelIndex g >=? Game.totalLevels)%Z) eqn:E;
      [|reflexivity].
    rewrite orb_true_iff, Z.ltb_lt, Z.geb_le in E. lia. }
  rewrite Hi in Hnew.
  exists g', lv.
  split; [exact Hreset|]. split; [exact Hl|]. split; [exact Hi|].
  split; [exact Hlv|].
  split; [eapply new_uncollected, Hnew|].
  intros rnd' n'.
  pose proof (new_sameBut (Game.generateLevel (Game.currentLevelIndex g))
                rnd rnd' (Game.randomCalls g) n') as Hsame.
  rewrite Hnew in Hsame. unfold Instance.builtSameBut in Hsame.
  destruct (Level.new rnd' n' _) as [[fresh n'']|]; [|contradiction].
  exists fresh, n''. split; [reflexivity|].
  destruct Hsame as (Hm & _ & _ & _ & _ & _ & Hc & _). auto.
Qed.

(** The theorem on the session with nothing stored, after the play that
    collects a coin on the first level. *)
Lemma reset_restores_witness :
  ∃ g g' lv,
    Game.run Instance.drawsLow coinRun Session.fresh = Some g ∧
    Game.resetLevel Instance.drawsLow 700 g = Some g' ∧
    Game.level g' = Some lv ∧
    Forall (λ c, Coin.collected c = false) (Level.coins lv).
Proof.
  destruct (reset_restores_template Instance.drawsLow None Session.fresh
              coinRun 700) as [T R].
  - vm_compute. reflexivity.
  - destruct T as [g Hrun]; [vm_compute; eauto|].
    destruct (R g Hrun) as (_ & _ & _ & K & H).
    destruct H as (g' & lv & B & _ & _ & C & D & _);
      [apply K; vm_compute; eauto|].
    exists g, g', lv. split; [exact Hrun|]. split; [exact B|].
    split; [exact C|exact D].
Defined.

(** Play that changes the level, then a reset: the coin collected on the
    first level is there again, and so is the tile a dive broke on the
    second. *)
Lemma reset_after_play :
  coinFlags <$> Game.run Instance.drawsLow coinRun Session.fresh
  = Some [true; false; false] ∧
  coinFlags
    <$> Game.run Instance.drawsLow (coinRun ++ [(Game.EvRetry, 700)])
          Session.fresh
  = Some [false; false; false] ∧
  tileAt 9 8 aboveBreakable = Some "X"%char ∧
  tileAt 9 8
    <$> Game.run Instance.drawsLow
          ((Game.EvKeyDown Game.KeyDown, 0) :: frames 2 1000) aboveBreakable
  = Some (Some " "%char) ∧
  tileAt 9 8
    <$> Game.run Instance.drawsLow
          ((Game.EvKeyDown Game.KeyDown, 0) :: frames 2 1000
           ++ [(Game.EvRetry, 2000)]) aboveBreakable
  = Some (Some "X"%char).
Proof.
  split; [vm_compute; reflexivity|]. split; [vm_compute; reflexivity|].
  split; [vm_compute; reflexivity|]. split; vm_compute; reflexivity.
Qed.

(** The theorem on two runs that reach the flag of the first level about
    one second after its start, from sessions with a stored best time for
    it: a stored best of 100 s is replaced by the finish time, a stored best
    of half a second is kept. *)
Lemma best_time_witness :
  (∃ g' b',
     Game.run Instance.drawsLow
       ((Game.EvKeyDown Game.KeyRight, 0) :: frames 3 1000)
       (nearGoalFrom (afterBest 100)) = Some g' ∧
     Game.state g' = Game.complete ∧
     Game.bestTimes (nearGoalFrom (afterBest 100)) !! 0%Z = Some 100 ∧
     Game.bestTimes g' !! 0%Z = Some b' ∧ b' <= 100 ∧ b' == 1.0166667) ∧
  (∃ g' b',
     Game.run Instance.drawsLow
       ((Game.EvKeyDown Game.KeyRight, 0) :: frames 3 1000)
       (nearGoalFrom (afterBest 0.5)) = Some g' ∧
     Game.state g' = Game.complete ∧
     Game.bestTimes (nearGoalFrom (afterBest 0.5)) !! 0%Z = Some 0.5 ∧
     Game.bestTimes g' !! 0%Z = Some b' ∧ b' <= 0.5 ∧ b' == 0.5 ∧
     Game.currentTime g' == 1.0166667).
Proof.
  split.
  - assert (H : (λ g, (Game.state g,
                       match Game.bestTimes g !! 0%Z with
                       | Some b => Qeq_bool b 1.0166667
                       | None => false
                       end))
                <$> Game.run Instance.drawsLow
                      ((Game.EvKeyDown Game.KeyRight, 0) :: frames 3 1000)
                      (nearGoalFrom (afterBest 100))
                = Some (Game.complete, true)) by (vm_compute; reflexivity).
    assert (H0 : Game.bestTimes (nearGoalFrom (afterBest 100)) !! 0%Z
                 = Some 100) by (vm_compute; reflexivity).
    destruct (Game.run Instance.drawsLow
                ((Game.EvKeyDown Game.KeyRight, 0) :: frames 3 1000)
                (nearGoalFrom (afterBest 100))) as [g'|] eqn:E;
      [|discriminate H].
    pose proof (proj1 (best_time_never_increases _ _ _ _ 0%Z E)) as N.
    rewrite H0 in N. destruct N as (b' & Hb & Hle).
    injection H as Hst Hq. rewrite Hb in Hq.
    exists g', b'. split; [reflexivity|]. split; [exact Hst|].
    split; [reflexivity|]. split; [exact Hb|]. split; [exact Hle|].
    apply Qeq_bool_iff, Hq.
  - assert (H : (λ g, (Game.state g,
                       match Game.bestTimes g !! 0%Z with
                       | Some b => Qeq_bool b 0.5
                       | None => false
                       end,
                       Qeq_bool (Game.currentTime g) 1.0166667))
                <$> Game.run Instance.drawsLow
                      ((Game.EvKeyDown Game.KeyRight, 0) :: frames 3 1000)
                      (nearGoalFrom (afterBest 0.5))
                = Some (Game.complete, true, true))
      by (vm_compute; reflexivity).
    assert (H0 : Game.bestTimes (nearGoalFrom (afterBest 0.5)) !! 0%Z
                 = Some 0.5) by (vm_compute; reflexivity).
    destruct (Game.run Instance.drawsLow
                ((Game.EvKeyDown Game.KeyRight, 0) :: frames 3 1000)
                (nearGoalFrom (afterBest 0.5))) as [g'|] eqn:E;
      [|discriminate H].
    pose proof (proj1 (best_time_never_increases _ _ _ _ 0%Z E)) as N.
    rewrite H0 in N. destruct N as (b' & Hb & Hle).
    injection H as Hst Hq Ht. rewrite Hb in Hq.
    exists g', b'. split; [reflexivity|]. split; [exact Hst|].
    split; [reflexivity|]. split; [exact Hb|]. split; [exact Hle|].
    split; [apply Qeq_bool_iff, Hq|apply Qeq_bool_iff, Ht].
Defined.

End Sessions.

(** ** The resolver: what it changes and what it reports *)

Section Contacts.

Import Tiles.

Local Open Scope Q_scope.

Ltac case_if :=
  match goal with
  | |- context [if ?b then _ else _] => destruct b eqn:?
  | H : context [if ?b then _ else _] |- _ => destruct b eqn:?
  end.

Lemma getTile_setTile_ne r c r' c' ch (m : Grid) :
  (r, c) ≠ (r', c') → getTile r c (setTile r' c' ch m) = getTile r c m.
Proof.
  intros Hne. unfold getTile, setTile.
  destruct ((r <? 0)%Z || (c <? 0)%Z) eqn:E; [reflexivity|].
  destruct ((r' <? 0)%Z || (c' <? 0)%Z) eqn:E'; [reflexivity|].
  rewrite orb_false_iff, !Z.ltb_ge in E, E'.
  rewrite list_lookup_alter.
  destruct (decide (Z.to_nat r' = Z.to_nat r)) as [Hr|Hr]; [|reflexivity].
  rewrite Hr.
  destruct (m !! Z.to_nat r) as [row|]; [|reflexivity]. simpl.
  apply list_lookup_insert_ne. intros Hc. apply Hne. f_equal; lia.
Qed.

Lemma getTile_setTile_eq r c ch (m : Grid) :
  is_Some (getTile r c m) → getTile r c (setTile r c ch m) = Some ch.
Proof.
  unfold getTile, setTile. intros [a Ha].
  destruct ((r <? 0)%Z || (c <? 0)%Z); [discriminate|].
  rewrite list_lookup_alter_eq.
  destruct (m !! Z.to_nat r) as [row|]; [|discriminate]. simpl in *.
  apply list_lookup_insert_eq. eapply lookup_lt_Some, Ha.
Qed.

Lemma foldM_keeps {A S : Type} (P : S → Prop) (body : A → S → option S)
    (l : list A) (s s' : S) :
  (∀ a s s', P s → body a s = Some s' → P s') →
  P s → foldM body l s = Some s' → P s'.
Proof.
  intros Hbody. revert s. induction l as [|a l IH]; intros s Hs H; simpl in H.
  - injection H as <-. exact Hs.
  - destruct (body a s) as [s1|] eqn:E; [|discriminate]. simpl in H.
    eapply IH; [|exact H]. eapply Hbody; [exact Hs|exact E].
Qed.

(** What every tile query keeps, the two passes of [collide] keep. *)
Lemma passes_keep (P : Level.Scan → Prop) :
  (∀ tx ty horizontal s s',
     P s → Level.checkTile tx ty horizontal s = Some s' → P s') →
  ∀ lv p nextX nextY s,
    P (Level.startScan lv p nextX nextY) →
    Level.collide lv p nextX nextY = Some s →
    ∃ s2, P s2 ∧
          s = Level.hitHazards (PlayerState.height p)
                (Level.collectCoins (PlayerState.height p) s2).
Proof.
  intros Hcheck lv p nextX nextY s H0 H. unfold Level.collide in H.
  destruct (Level.sweepHorizontal _ _) as [s1|] eqn:E1; [|discriminate].
  simpl in H.
  destruct (Level.sweepVertical _ s1) as [s2|] eqn:E2; [|discriminate].
  simpl in H. injection H as <-.
  exists s2. split; [|reflexivity].
  assert (H1 : P s1).
  { unfold Level.sweepHorizontal, forRange in E1.
    repeat case_if; try (injection E1 as <-; exact H0);
      refine (foldM_keeps P _ _ _ _ _ H0 E1);
      intros row s0 s0' Hs0 Hc; exact (Hcheck _ _ _ _ _ Hs0 Hc). }
  unfold Level.sweepVertical, Level.sweepColumns, forRange in E2.
  repeat case_if; try (injection E2 as <-; exact H1);
    refine (foldM_keeps P _ _ _ _ _ H1 E2);
    intros col s0 s0' Hs0 Hc; exact (Hcheck _ _ _ _ _ Hs0 Hc).
Qed.

(** Case analysis of one query that is inside the grid. *)
Ltac open_checkTile H row Hrow :=
  unfold Level.checkTile in H;
  match type of H with
  | context [if ?g then Some _ else _] => destruct g eqn:?
  end;
  [injection H as <-
  |match type of H with
   | context [Level.map ?lv !! ?i] =>
       destruct (Level.map lv !! i) as [row|] eqn:Hrow;
       simpl in H; [|discriminate]
   end].

(** [collide] never reports a bounce: the test of the bounce tile reads the
    vertical speed after the contact has set it to zero. *)
Theorem collide_never_bounces lv p nextX nextY s :
  Level.collide lv p nextX nextY = Some s →
  Level.bounce (Level.locals s) = false.
Proof.
  intros H.
  set (P := λ s : Level.Scan, Level.bounce (Level.locals s) = false).
  assert (Hcheck : ∀ tx ty horizontal s s',
            P s → Level.checkTile tx ty horizontal s = Some s' → P s').
  { clear. unfold P. intros tx ty horizontal s s' Hs H.
    open_checkTile H row Hrow; [exact Hs|].
    repeat case_if; injection H as <-; simpl in *; try exact Hs;
      repeat match goal with
      | E : _ && _ = true |- _ => apply andb_true_iff in E as [? E]
      end;
      try congruence; try discriminate. }
  destruct (passes_keep P Hcheck lv p nextX nextY s eq_refl H)
    as (s2 & H2 & ->).
  unfold P in H2. unfold Level.hitHazards, Level.collectCoins.
  repeat case_if; simpl; exact H2.
Qed.

(** The theorem on the first level, on a fall onto its bounce pad (row 10,
    column 20): the body is grounded on the pad and no bounce is reported. *)
Lemma collide_never_bounces_witness :
  let lv := Resolver.instanceOf (Game.generateLevel 0) in
  let p := Resolver.falling 808 355 0 6 in
  (λ s, (Level.onGround (Level.locals s), Level.bounce (Level.locals s)))
    <$> Level.collide lv p 808 361 = Some (true, false).
Proof.
  cbv zeta.
  destruct (Level.collide _ _ _ _) as [s|] eqn:E.
  - simpl. rewrite (collide_never_bounces _ _ _ _ _ E).
    assert (H : (Level.onGround ∘ Level.locals)
                <$> Level.collide
                      (Resolver.instanceOf (Game.generateLevel 0))
                      (Resolver.falling 808 355 0 6) 808 361 = Some true)
      by (vm_compute; reflexivity).
    rewrite E in H. simpl in H. injection H as ->. reflexivity.
  - exfalso.
    assert (H : is_Some (Level.collide
                      (Resolver.instanceOf (Game.generateLevel 0))
                      (Resolver.falling 808 355 0 6) 808 361))
      by (vm_compute; eauto).
    rewrite E in H. destruct H as [? H]. discriminate H.
Defined.

(** A contact flag goes with a stopped body.  When [collide] reports a
    wall, the horizontal speed is zero and the wall direction is 1 or -1;
    when it reports none, the wall direction is 0, the horizontal position
    is the proposed one and the horizontal speed is untouched; when it
    reports the ground, the vertical speed is zero. *)
Theorem contact_stops_the_body lv p nextX nextY s :
  Level.collide lv p nextX nextY = Some s →
  (Level.onWall (Level.locals s) = true →
   PlayerState.velX (Level.player s) = 0 ∧
   (Level.wallDir (Level.locals s) = 1 ∨
    Level.wallDir (Level.locals s) = -1)) ∧
  (Level.onWall (Level.locals s) = false →
   Level.wallDir (Level.locals s) = 0 ∧
   Level.x (Level.locals s) = nextX ∧
   PlayerState.velX (Level.player s) = PlayerState.velX p) ∧
  (Level.onGround (Level.locals s) = true →
   PlayerState.velY (Level.player s) = 0).
Proof.
  intros H.
  set (P := λ s : Level.Scan,
    (Level.onWall (Level.locals s) = true →
     PlayerState.velX (Level.player s) = 0 ∧
     (Level.wallDir (Level.locals s) = 1 ∨
      Level.wallDir (Level.locals s) = -1)) ∧
    (Level.onWall (Level.locals s) = false →
     Level.wallDir (Level.locals s) = 0 ∧
     Level.x (Level.locals s) = nextX ∧
     PlayerState.velX (Level.player s) = PlayerState.velX p) ∧
    (Level.onGround (Level.locals s) = true →
     PlayerState.velY (Level.player s) = 0)).
  assert (Hcheck : ∀ tx ty horizontal s s',
            P s → Level.checkTile tx ty horizontal s = Some s' → P s').
  { unfold P. intros tx ty horizontal s0 s' (A & B & C) H0.
    open_checkTile H0 row Hrow; [auto|].
    repeat case_if; injection H0 as <-; simpl in *;
      (split; [|split]); intros; try discriminate; auto. }
  assert (H0 : P (Level.startScan lv p nextX nextY)).
  { unfold P. simpl. repeat split; intros; (discriminate || reflexivity). }
  destruct (passes_keep P Hcheck lv p nextX nextY s H0 H)
    as (s2 & H2 & ->).
  unfold P in H2. unfold Level.hitHazards, Level.collectCoins.
  repeat case_if; simpl; exact H2.
Qed.

(** The theorem on the first level, at the left end of a platform: the wall
    is on the right and the body has stopped. *)
Lemma contact_stops_the_body_witness :
  (λ s, (Level.onWall (Level.locals s), Level.wallDir (Level.locals s),
         PlayerState.velX (Level.player s)))
    <$> Level.collide (Resolver.instanceOf (Game.generateLevel 0))
          (Resolver.falling 175 242 5 5) 180 247
  = Some (true, 1, 0).
Proof.
  destruct (Level.collide _ _ _ _) as [s|] eqn:E.
  - pose proof (contact_stops_the_body _ _ _ _ _ E) as (A & _ & _).
    assert (H : (Level.onWall ∘ Level.locals)
                <$> Level.collide
                      (Resolver.instanceOf (Game.generateLevel 0))
                      (Resolver.falling 175 242 5 5) 180 247 = Some true)
      by (vm_compute; reflexivity).
    assert (H' : (Level.wallDir ∘ Level.locals)
                <$> Level.collide
                      (Resolver.instanceOf (Game.generateLevel 0))
                      (Resolver.falling 175 242 5 5) 180 247 = Some 1)
      by (vm_compute; reflexivity).
    rewrite E in H, H'. simpl in H, H'. injection H as H. injection H' as H'.
    destruct (A H) as [Hv _]. simpl. rewrite H, H', Hv. reflexivity.
  - exfalso.
    assert (H : is_Some (Level.collide
                      (Resolver.instanceOf (Game.generateLevel 0))
                      (Resolver.falling 175 242 5 5) 180 247))
      by (vm_compute; eauto).
    rewrite E in H. destruct H as [? H]. discriminate H.
Defined.

Lemma isCh_true (ch : option ascii) (c : ascii) :
  Level.isCh ch c = true → ch = Some c.
Proof.
  destruct ch as [a|]; simpl; [|discriminate].
  intros H. apply Ascii.eqb_eq in H. congruence.
Qed.

Lemma onlyBreaks_refl (m : Grid) : onlyBreaks m m.
Proof. intros r c. left. reflexivity. Qed.

(** Clearing a breakable tile of a grid whose only changes are cleared
    breakable tiles. *)
Lemma onlyBreaks_clear (m0 m : Grid) (ty tx : Z) :
  onlyBreaks m0 m → getTile ty tx m = Some "X"%char →
  onlyBreaks m0 (setTile ty tx " " m).
Proof.
  intros H HX r c.
  destruct (decide ((r, c) = (ty, tx))) as [[= -> ->]|Hne].
  - right. split; [|apply getTile_setTile_eq; eauto].
    destruct (H ty tx) as [Heq|[H0 Hb]]; congruence.
  - rewrite getTile_setTile_ne by exact Hne. apply H.
Qed.

(** What the two passes keep of the level and of the body. *)
Lemma passes_tiles lv p nextX nextY s :
  Level.collide lv p nextX nextY = Some s →
  onlyBreaks (Level.map lv) (Level.map (Level.level s)) ∧
  (Level.rows (Level.level s), Level.cols (Level.level s),
   Level.tileSize (Level.level s), Level.spawnX (Level.level s),
   Level.spawnY (Level.level s), Level.hazards (Level.level s))
  = (Level.rows lv, Level.cols lv, Level.tileSize lv, Level.spawnX lv,
     Level.spawnY lv, Level.hazards lv) ∧
  (PlayerState.dive p = false ∨ PlayerState.velY p <= 0 →
   Level.map (Level.level s) = Level.map lv) ∧
  (Level.win (Level.locals s) = true → holds "F" (Level.map lv)) ∧
  (Level.die (Level.locals s) = true →
   holds "S" (Level.map lv) ∨ Level.hazards lv ≠ []).
Proof.
  intros H.
  set (P := λ s : Level.Scan,
    onlyBreaks (Level.map lv) (Level.map (Level.level s)) ∧
    (Level.rows (Level.level s), Level.cols (Level.level s),
     Level.tileSize (Level.level s), Level.spawnX (Level.level s),
     Level.spawnY (Level.level s), Level.hazards (Level.level s),
     Level.coins (Level.level s))
    = (Level.rows lv, Level.cols lv, Level.tileSize lv, Level.spawnX lv,
       Level.spawnY lv, Level.hazards lv, Level.coins lv) ∧
    PlayerState.dive (Level.player s) = PlayerState.dive p ∧
    (PlayerState.velY (Level.player s) = PlayerState.velY p ∨
     PlayerState.velY (Level.player s) = 0) ∧
    (PlayerState.dive p = false ∨ PlayerState.velY p <= 0 →
     Level.map (Level.level s) = Level.map lv) ∧
    (Level.win (Level.locals s) = true → holds "F" (Level.map lv)) ∧
    (Level.die (Level.locals s) = true → holds "S" (Level.map lv))).
  assert (Hcheck : ∀ tx ty horizontal s s',
            P s → Level.checkTile tx ty horizontal s = Some s' → P s').
  { unfold P. intros tx ty horizontal s0 s' (A & B & C & D & E & F & G) H0.
    unfold Level.checkTile in H0.
    destruct (_ || _ || _ || _)%Z eqn:Hg;
      [injection H0 as <-; repeat split; assumption|].
    rewrite !orb_false_iff, !Z.ltb_ge in Hg.
    destruct Hg as [[[Hty _] Htx] _].
    destruct (Level.map (Level.level s0) !! Z.to_nat ty) as [row|] eqn:Hrow;
      simpl in H0; [|discriminate].
    assert (Hcell : getTile ty tx (Level.map (Level.level s0))
                    = row !! Z.to_nat tx).
    { unfold getTile.
      replace ((ty <? 0)%Z || (tx <? 0)%Z) with false
        by (symmetry; rewrite orb_false_iff, !Z.ltb_ge; lia).
      rewrite Hrow. reflexivity. }
    destruct (Level.isSolid (row !! Z.to_nat tx)) eqn:Hsolid.
    - destruct (Level.isCh (row !! Z.to_nat tx) "X"
                && PlayerState.dive (Level.player s0)
                && Qgtb (PlayerState.velY (Level.player s0)) 0) eqn:Hbreak.
      + injection H0 as <-. simpl.
        rewrite !andb_true_iff in Hbreak. destruct Hbreak as [[HX Hd] Hv].
        apply isCh_true in HX. apply Qgtb_gt in Hv.
        split; [apply onlyBreaks_clear; [exact A|congruence]|].
        split; [injection B as <- <- <- <- <- <- <-; reflexivity|].
        split; [exact C|]. split; [exact D|].
        split; [|split; assumption].
        intros [Hnd|Hle]; [congruence|].
        exfalso. destruct D as [D|D]; rewrite D in Hv; lra.
      + repeat case_if; injection H0 as <-; simpl;
          repeat split; auto.
    - repeat case_if; injection H0 as <-; simpl;
        repeat split; auto; intros _;
        match goal with
        | Hc : Level.isCh _ ?ch = true |- holds ?ch _ =>
            apply isCh_true in Hc; exists ty, tx;
            destruct (A ty tx) as [Ha|[_ Hb]]; congruence
        end. }
  assert (H0 : P (Level.startScan lv p nextX nextY)).
  { unfold P. simpl. repeat split; auto; try discriminate.
    apply onlyBreaks_refl. }
  destruct (passes_keep P Hcheck lv p nextX nextY s H0 H)
    as (s2 & (A & B & C & D & E & F & G) & ->).
  assert (Hlv : Level.level
            (Level.hitHazards (PlayerState.height p)
               (Level.collectCoins (PlayerState.height p) s2))
          = Level.set_coins
              (Level.coins
                 (Level.level (Level.collectCoins (PlayerState.height p) s2)))
              (Level.level s2)).
  { unfold Level.hitHazards. case_if; reflexivity. }
  rewrite Hlv. simpl.
  split; [exact A|].
  split; [injection B as <- <- <- <- <- <- _; reflexivity|].
  split; [exact E|].
  injection B as _ _ _ _ _ Hhz _.
  unfold Level.hitHazards.
  destruct (existsb _ (Level.hazards (Level.level (Level.collectCoins _ s2))))
    eqn:Hex; unfold Level.collectCoins in *; simpl in *.
  - rewrite Hhz in Hex.
    split; [case_if; exact F|]. intros _. right. intros Hnil.
    rewrite Hnil in Hex. discriminate Hex.
  - split; case_if; simpl; auto.
Qed.

(** Play changes the tiles in one way only: [collide] leaves every cell as
    it was or turns a breakable tile into an empty one; the size of the
    grid, the tile size, the spawn point and the moving hazards are as they
    were; and without a dive downwards no cell changes at all. *)
Theorem collide_only_breaks lv p nextX nextY s :
  Level.collide lv p nextX nextY = Some s →
  onlyBreaks (Level.map lv) (Level.map (Level.level s)) ∧
  (Level.rows (Level.level s), Level.cols (Level.level s),
   Level.tileSize (Level.level s), Level.spawnX (Level.level s),
   Level.spawnY (Level.level s), Level.hazards (Level.level s))
  = (Level.rows lv, Level.cols lv, Level.tileSize lv, Level.spawnX lv,
     Level.spawnY lv, Level.hazards lv) ∧
  (PlayerState.dive p = false ∨ PlayerState.velY p <= 0 →
   Level.map (Level.level s) = Level.map lv).
Proof.
  intros H. destruct (passes_tiles _ _ _ _ _ H) as (A & B & C & _). auto.
Qed.

(** The theorem on the second level: a dive onto the breakable tile of
    row 9, column 8 clears that cell; the same fall without the dive leaves
    the grid as it is. *)
Lemma collide_only_breaks_witness :
  let lv := Resolver.instanceOf (Game.generateLevel 1) in
  let p := Resolver.falling 325 315 0 6 in
  getTile 9 8 (Level.map lv) = Some "X"%char ∧
  (λ s, getTile 9 8 (Level.map (Level.level s)))
    <$> Level.collide lv (PlayerState.set_dive true p) 325 321
  = Some (Some " "%char) ∧
  (λ s, Level.map (Level.level s)) <$> Level.collide lv p 325 321
  = Some (Level.map lv).
Proof.
  cbv zeta. split; [vm_compute; reflexivity|].
  split; [vm_compute; reflexivity|].
  destruct (Level.collide _ (Resolver.falling 325 315 0 6) _ _) as [s|] eqn:E.
  - destruct (collide_only_breaks _ _ _ _ _ E) as (_ & _ & H).
    rewrite <- H by (left; reflexivity). reflexivity.
  - exfalso.
    assert (H : is_Some (Level.collide
                      (Resolver.instanceOf (Game.generateLevel 1))
                      (Resolver.falling 325 315 0 6) 325 321))
      by (vm_compute; eauto).
    rewrite E in H. destruct H as [? H]. discriminate H.
Defined.

(** Where the two signals come from: [collide] reports a win only on a
    level whose grid holds a goal tile, and a death only on a level that
    holds a hazard tile or has a moving hazard. *)
Theorem signals_need_their_tiles lv p nextX nextY s :
  Level.collide lv p nextX nextY = Some s →
  (Level.win (Level.locals s) = true → holds "F" (Level.map lv)) ∧
  (Level.die (Level.locals s) = true →
   holds "S" (Level.map lv) ∨ Level.hazards lv ≠ []).
Proof.
  intros H. destruct (passes_tiles _ _ _ _ _ H) as (_ & _ & _ & A & B). auto.
Qed.

(** The theorem on the first level, one step from its flag. *)
Lemma signals_need_their_tiles_witness :
  (Level.win ∘ Level.locals)
    <$> Level.collide (Resolver.instanceOf (Game.generateLevel 0))
          (Resolver.falling 1495 400 2 0.45) 1497 400.45
  = Some true ∧
  holds "F" (Level.map (Resolver.instanceOf (Game.generateLevel 0))).
Proof.
  assert (H : (Level.win ∘ Level.locals)
              <$> Level.collide (Resolver.instanceOf (Game.generateLevel 0))
                    (Resolver.falling 1495 400 2 0.45) 1497 400.45
              = Some true) by (vm_compute; reflexivity).
  split; [exact H|].
  destruct (Level.collide _ _ _ _) as [s|] eqn:E; [|discriminate H].
  simpl in H. injection H as H.
  exact (proj1 (signals_need_their_tiles _ _ _ _ _ E) H).
Defined.

(** The coin loop on a list of coins. *)
Lemma collect_list (hit : Coin.t → bool) (l : list Coin.t) :
  (∀ c, hit c = true → Coin.collected c = false) →
  let l' :=
    (λ coin,
       if hit coin
       then {| Coin.x := Coin.x coin; Coin.y := Coin.y coin;
               Coin.collected := true |}
       else coin) <$> l in
  let count := λ l : list Coin.t,
    length (filter (λ c, Coin.collected c = true) l) in
  Forall2 coinKept l l' ∧
  (existsb hit l = false → l' = l) ∧
  (count l ≤ count l')%nat ∧
  (existsb hit l = true → count l < count l')%nat.
Proof.
  intros Hhit. cbv zeta. induction l as [|c l (IH1 & IH2 & IH3 & IH4)].
  - simpl. repeat split; auto; try constructor. discriminate.
  - rewrite fmap_cons. simpl existsb.
    destruct (hit c) eqn:Hc.
    + pose proof (Hhit c Hc) as Hn.
      split; [constructor; [repeat split; auto|exact IH1]|].
      split; [discriminate|].
      rewrite !filter_cons. simpl.
      destruct (decide (Coin.collected c = true)) as [?|_]; [congruence|].
      destruct (decide (true = true)) as [_|?]; [|congruence].
      simpl. split; [lia|]. intros _. lia.
    + split; [constructor; [repeat split; auto|exact IH1]|].
      split; [intros H; simpl in H; rewrite (IH2 H); reflexivity|].
      rewrite !filter_cons.
      destruct (decide (Coin.collected c = true)); simpl.
      * split; [lia|]. intros H. specialize (IH4 H). lia.
      * split; [lia|]. intros H. specialize (IH4 H). lia.
Qed.

(** What [collide] does to the coins. *)
Lemma collide_coins lv p nextX nextY s :
  Level.collide lv p nextX nextY = Some s →
  Forall2 coinKept (Level.coins lv) (Level.coins (Level.level s)) ∧
  (Level.collectedCoin (Level.locals s) = true ↔
   (countCollected lv < countCollected (Level.level s))%nat) ∧
  (countCollected lv ≤ countCollected (Level.level s))%nat ∧
  (Level.collectedCoin (Level.locals s) = false →
   Level.coins (Level.level s) = Level.coins lv).
Proof.
  intros H.
  set (P := λ s : Level.Scan,
    Level.coins (Level.level s) = Level.coins lv ∧
    Level.collectedCoin (Level.locals s) = false).
  assert (Hcheck : ∀ tx ty horizontal s s',
            P s → Level.checkTile tx ty horizontal s = Some s' → P s').
  { unfold P. intros tx ty horizontal s0 s' [A B] H0.
    open_checkTile H0 row Hrow; [auto|].
    repeat case_if; injection H0 as <-; simpl; auto. }
  assert (H0 : P (Level.startScan lv p nextX nextY))
    by (unfold P; simpl; auto).
  destruct (passes_keep P Hcheck lv p nextX nextY s H0 H)
    as (s2 & [A B] & ->).
  set (hit := Level.coinHit (Level.tileSize (Level.level s2))
                PlayerState.width (PlayerState.height p)
                (Level.x (Level.locals s2)) (Level.y (Level.locals s2))).
  assert (Hhit : ∀ c, hit c = true → Coin.collected c = false).
  { intros c Hc. unfold hit, Level.coinHit in Hc.
    apply andb_true_iff in Hc as [Hc _]. apply negb_true_iff in Hc. exact Hc. }
  destruct (collect_list hit (Level.coins lv) Hhit) as (C1 & C2 & C3 & C4).
  assert (Hcoins : Level.coins (Level.level
            (Level.hitHazards (PlayerState.height p)
               (Level.collectCoins (PlayerState.height p) s2)))
          = (λ coin,
               if hit coin
               then {| Coin.x := Coin.x coin; Coin.y := Coin.y coin;
                       Coin.collected := true |}
               else coin) <$> Level.coins lv).
  { unfold Level.hitHazards. case_if; simpl; rewrite A; reflexivity. }
  assert (Hflag : Level.collectedCoin (Level.locals
            (Level.hitHazards (PlayerState.height p)
               (Level.collectCoins (PlayerState.height p) s2)))
          = existsb hit (Level.coins lv)).
  { unfold Level.hitHazards. case_if; simpl; rewrite A; fold hit;
      destruct (existsb hit (Level.coins lv)); simpl; auto. }
  unfold countCollected. rewrite Hcoins, Hflag.
  split; [exact C1|]. split; [|split; [exact C3|exact C2]].
  split; [exact C4|].
  intros Hlt. destruct (existsb hit (Level.coins lv)); [reflexivity|].
  rewrite C2 in Hlt by reflexivity. lia.
Qed.

(** Coins are only ever collected.  [collide] leaves every coin where it
    was and never clears a [collected] flag; it reports a coin exactly when
    the number of collected coins has grown; and when it reports none the
    coins are as they were. *)
Theorem coins_only_get_collected lv p nextX nextY s :
  Level.collide lv p nextX nextY = Some s →
  Forall2 coinKept (Level.coins lv) (Level.coins (Level.level s)) ∧
  (Level.collectedCoin (Level.locals s) = true ↔
   (countCollected lv < countCollected (Level.level s))%nat) ∧
  (countCollected lv ≤ countCollected (Level.level s))%nat ∧
  (Level.collectedCoin (Level.locals s) = false →
   Level.coins (Level.level s) = Level.coins lv).
Proof. apply collide_coins. Qed.

(** The theorem on the first level, on a jump through its first coin. *)
Lemma coins_only_get_collected_witness :
  match
    Level.collide (Resolver.instanceOf (Game.generateLevel 0))
      (Resolver.falling 120 320 5 (-1)) 125 319
  with
  | Some s =>
      Level.collectedCoin (Level.locals s) = true ∧
      (countCollected (Resolver.instanceOf (Game.generateLevel 0))
       < countCollected (Level.level s))%nat
  | None => False
  end.
Proof.
  destruct (Level.collide _ _ _ _) as [s|] eqn:E.
  - assert (H : (Level.collectedCoin ∘ Level.locals)
                <$> Level.collide
                      (Resolver.instanceOf (Game.generateLevel 0))
                      (Resolver.falling 120 320 5 (-1)) 125 319 = Some true)
      by (vm_compute; reflexivity).
    rewrite E in H. injection H as H.
    split; [exact H|].
    apply (proj1 (proj1 (proj2 (coins_only_get_collected _ _ _ _ _ E)))), H.
  - assert (H : is_Some (Level.collide
                      (Resolver.instanceOf (Game.generateLevel 0))
                      (Resolver.falling 120 320 5 (-1)) 125 319))
      by (vm_compute; eauto).
    rewrite E in H. destruct H as [? H]. discriminate H.
Defined.

(** What the body touches is tested where the resolver settles it.  The
    coins after [collide] are those before, each one collected when it was
    not yet and the centre of the body, at the resolved position and with
    the height of the body at the call, is within half a tile of it along
    both axes; a coin is reported exactly when there is such a coin; and a
    moving hazard that overlaps the body at the resolved position always
    gives a death. *)
Theorem touch_at_the_resolved_position lv p nextX nextY s :
  Level.collide lv p nextX nextY = Some s →
  let c := Level.locals s in
  let hit :=
    Level.coinHit (Level.tileSize lv) PlayerState.width
      (PlayerState.height p) (Level.x c) (Level.y c) in
  Forall2 (λ coin coin',
             Coin.x coin' = Coin.x coin ∧ Coin.y coin' = Coin.y coin ∧
             Coin.collected coin' = Coin.collected coin || hit coin)
    (Level.coins lv) (Level.coins (Level.level s)) ∧
  Level.collectedCoin c = existsb hit (Level.coins lv) ∧
  (∀ hz, hz ∈ Level.hazards lv →
         Level.hazardHit PlayerState.width (PlayerState.height p)
           (Level.x c) (Level.y c) hz = true →
         Level.die c = true).
Proof.
  intros H. cbv zeta.
  set (P := λ s : Level.Scan,
    Level.coins (Level.level s) = Level.coins lv ∧
    Level.hazards (Level.level s) = Level.hazards lv ∧
    Level.tileSize (Level.level s) = Level.tileSize lv ∧
    Level.collectedCoin (Level.locals s) = false).
  assert (Hcheck : ∀ tx ty horizontal s s',
            P s → Level.checkTile tx ty horizontal s = Some s' → P s').
  { unfold P. intros tx ty horizontal s0 s' (A & B & C & D) H0.
    open_checkTile H0 row Hrow; [auto|].
    repeat case_if; injection H0 as <-; simpl; auto. }
  assert (H0 : P (Level.startScan lv p nextX nextY))
    by (unfold P; simpl; auto).
  destruct (passes_keep P Hcheck lv p nextX nextY s H0 H)
    as (s2 & (A & B & C & D) & ->).
  set (h := PlayerState.height p).
  assert (Hxy : Level.x (Level.locals
                  (Level.hitHazards h (Level.collectCoins h s2)))
                = Level.x (Level.locals s2) ∧
                Level.y (Level.locals
                  (Level.hitHazards h (Level.collectCoins h s2)))
                = Level.y (Level.locals s2)).
  { unfold Level.hitHazards, Level.collectCoins. simpl.
    destruct (existsb _ (Level.hazards _)); simpl;
      destruct (existsb _ (Level.coins _)); simpl; auto. }
  destruct Hxy as [-> ->].
  set (hit := Level.coinHit (Level.tileSize lv) PlayerState.width h
                (Level.x (Level.locals s2)) (Level.y (Level.locals s2))).
  assert (Hcoins : Level.coins (Level.level
                     (Level.hitHazards h (Level.collectCoins h s2)))
                   = (λ coin,
                        if hit coin
                        then {| Coin.x := Coin.x coin; Coin.y := Coin.y coin;
                                Coin.collected := true |}
                        else coin) <$> Level.coins lv).
  { unfold Level.hitHazards. case_if; simpl; rewrite A, C; reflexivity. }
  assert (Hflag : Level.collectedCoin (Level.locals
                    (Level.hitHazards h (Level.collectCoins h s2)))
                  = existsb hit (Level.coins lv)).
  { unfold Level.hitHazards. case_if; simpl; rewrite A, C; fold hit;
      destruct (existsb hit (Level.coins lv)); simpl; auto. }
  rewrite Hcoins, Hflag.
  split; [|split; [reflexivity|]].
  - apply Forall2_fmap_r, Forall_Forall2_diag, Forall_forall.
    intros coin _. unfold compose. cbv beta.
    destruct (hit coin) eqn:Eh; simpl.
    + rewrite orb_true_r. auto.
    + rewrite orb_false_r. auto.
  - intros hz Hin Hhz.
    assert (He : existsb (Level.hazardHit PlayerState.width h
                            (Level.x (Level.locals s2))
                            (Level.y (Level.locals s2)))
                   (Level.hazards lv) = true).
    { apply existsb_exists. exists hz. split; [|exact Hhz].
      apply list_elem_of_In. exact Hin. }
    unfold Level.hitHazards, Level.collectCoins. simpl. rewrite B.
    destruct (existsb (Level.coinHit _ _ _ _ _)
                (Level.coins (Level.level s2)));
      simpl; rewrite He; reflexivity.
Qed.

(** The theorem on the second level: a body at rest that overlaps the
    moving hazard. *)
Lemma touch_at_the_resolved_position_witness :
  match
    Level.collide (Resolver.instanceOf (Game.generateLevel 1))
      (Resolver.falling 350 310 0 0) 350 310
  with
  | Some s => Level.die (Level.locals s) = true
  | None => False
  end.
Proof.
  destruct (Level.collide _ _ _ _) as [s|] eqn:E.
  - assert (Hx : (λ s, (Level.x (Level.locals s),
                        Level.y (Level.locals s)))
                 <$> Level.collide
                       (Resolver.instanceOf (Game.generateLevel 1))
                       (Resolver.falling 350 310 0 0) 350 310
                 = Some (350, 310))
      by (vm_compute; reflexivity).
    rewrite E in Hx. injection Hx as Hx Hy.
    destruct (touch_at_the_resolved_position _ _ _ _ _ E) as (_ & _ & Hd).
    set (hz := {| Hazard.type := "H"%char; Hazard.baseX := 360;
                  Hazard.y := 320; Hazard.x := 360; Hazard.width := 40;
                  Hazard.height := 40; Hazard.range := 120;
                  Hazard.dir := -1; Hazard.speed := 2 |}).
    assert (Hin : hz ∈ Level.hazards
                         (Resolver.instanceOf (Game.generateLevel 1))).
    { assert (Hl : Level.hazards (Resolver.instanceOf (Game.generateLevel 1))
                   = [hz]) by (vm_compute; reflexivity).
      rewrite Hl. apply list_elem_of_singleton. reflexivity. }
    apply (Hd hz Hin).
    unfold Level.hazardHit, hz. cbn [Hazard.x Hazard.y Hazard.width
      Hazard.height].
    rewrite Hx, Hy. vm_compute. reflexivity.
  - assert (H : is_Some (Level.collide
                      (Resolver.instanceOf (Game.generateLevel 1))
                      (Resolver.falling 350 310 0 0) 350 310))
      by (vm_compute; eauto).
    rewrite E in H. destruct H as [? H]. discriminate H.
Defined.

(** A contact leaves the body flush against a solid tile.  When [collide]
    reports the ground, the bottom edge of the body, with the height it had
    at the call, is on the top edge of a row that holds a solid tile of the
    level; when it reports a wall on the right (direction 1) the right edge
    of the body is on the left edge of a column that holds a solid tile,
    and on the left (direction -1) its left edge is on the right edge of
    such a column. *)
Theorem contact_is_flush lv p nextX nextY s :
  Level.collide lv p nextX nextY = Some s →
  (Level.onGround (Level.locals s) = true →
   ∃ ty tx, solidAt lv ty tx ∧
            Level.y (Level.locals s) + PlayerState.height p
            == inject_Z ty * Level.tileSize lv) ∧
  (Level.onWall (Level.locals s) = true →
   ∃ ty tx, solidAt lv ty tx ∧
            ((Level.wallDir (Level.locals s) = 1 ∧
              Level.x (Level.locals s) + PlayerState.width
              == inject_Z tx * Level.tileSize lv) ∨
             (Level.wallDir (Level.locals s) = -1 ∧
              Level.x (Level.locals s)
              == inject_Z tx * Level.tileSize lv + Level.tileSize lv))).
Proof.
  intros H.
  set (G := λ s : Level.Scan,
    Level.onGround (Level.locals s) = true →
    PlayerState.velY (Level.player s) = 0 ∧
    ∃ ty tx, solidAt lv ty tx ∧
             Level.y (Level.locals s) + PlayerState.height p
             == inject_Z ty * Level.tileSize lv).
  set (W := λ s : Level.Scan,
    Level.onWall (Level.locals s) = true →
    ∃ ty tx, solidAt lv ty tx ∧
             ((Level.wallDir (Level.locals s) = 1 ∧
               Level.x (Level.locals s) + PlayerState.width
               == inject_Z tx * Level.tileSize lv) ∨
              (Level.wallDir (Level.locals s) = -1 ∧
               Level.x (Level.locals s)
               == inject_Z tx * Level.tileSize lv + Level.tileSize lv))).
  set (P := λ s : Level.Scan,
    Level.tileSize (Level.level s) = Level.tileSize lv ∧
    PlayerState.height (Level.player s) = PlayerState.height p ∧
    onlyBreaks (Level.map lv) (Level.map (Level.level s)) ∧
    G s ∧ W s).
  assert (Hcheck : ∀ tx ty horizontal s s',
            P s → Level.checkTile tx ty horizontal s = Some s' → P s').
  { unfold P. intros tx ty horizontal s0 s' (A & B & C & D & E) H0.
    unfold Level.checkTile in H0.
    destruct (_ || _ || _ || _)%Z eqn:Hg;
      [injection H0 as <-; exact (conj A (conj B (conj C (conj D E))))|].
    rewrite !orb_false_iff, !Z.ltb_ge in Hg.
    destruct Hg as [[[Hty _] Htx] _].
    destruct (Level.map (Level.level s0) !! Z.to_nat ty) as [row|] eqn:Hrow;
      simpl in H0; [|discriminate].
    assert (Hcell : getTile ty tx (Level.map (Level.level s0))
                    = row !! Z.to_nat tx).
    { unfold getTile.
      replace ((ty <? 0)%Z || (tx <? 0)%Z) with false
        by (symmetry; rewrite orb_false_iff, !Z.ltb_ge; lia).
      rewrite Hrow. reflexivity. }
    destruct (Level.isSolid (row !! Z.to_nat tx)) eqn:Hsolid.
    - assert (Horig : solidAt lv ty tx).
      { unfold solidAt. destruct (C ty tx) as [Ha|[_ Hb]].
        - rewrite <- Ha, Hcell. exact Hsolid.
        - rewrite Hcell in Hb. rewrite Hb in Hsolid. discriminate Hsolid. }
      destruct (Level.isCh (row !! Z.to_nat tx) "X"
                && PlayerState.dive (Level.player s0)
                && Qgtb (PlayerState.velY (Level.player s0)) 0) eqn:Hbreak.
      + injection H0 as <-. simpl.
        rewrite !andb_true_iff in Hbreak. destruct Hbreak as [[HX Hd] Hv].
        apply isCh_true in HX.
        split; [exact A|]. split; [exact B|].
        split; [apply onlyBreaks_clear; [exact C|congruence]|].
        split; [exact D|exact E].
      + destruct horizontal.
        * destruct (Qgtb (PlayerState.velX (Level.player s0)) 0);
            [|destruct (Qltb (PlayerState.velX (Level.player s0)) 0)];
            injection H0 as <-; simpl;
            (split; [exact A|]); (split; [exact B|]); (split; [exact C|]);
            (split; [exact D|]); try exact E;
            intros _; exists ty, tx; (split; [exact Horig|]);
            rewrite A; [left|right]; (split; [reflexivity|]); simpl; ring.
        * assert (Hs1 : ∀ s1 : Level.Scan,
                    Level.tileSize (Level.level s1) = Level.tileSize lv ∧
                    PlayerState.height (Level.player s1)
                    = PlayerState.height p ∧
                    onlyBreaks (Level.map lv) (Level.map (Level.level s1)) ∧
                    G s1 ∧ W s1 →
                    (if Level.isCh (row !! Z.to_nat tx) "B"
                        && Qgtb (PlayerState.velY (Level.player s1)) 0
                     then Some {| Level.locals :=
                                    Level.set_bounce true (Level.locals s1);
                                  Level.level := Level.level s1;
                                  Level.player := Level.player s1 |}
                     else Some s1) = Some s' →
                    Level.tileSize (Level.level s') = Level.tileSize lv ∧
                    PlayerState.height (Level.player s')
                    = PlayerState.height p ∧
                    onlyBreaks (Level.map lv) (Level.map (Level.level s')) ∧
                    G s' ∧ W s').
          { intros s1 Hs1.
            destruct (Level.isCh (row !! Z.to_nat tx) "B"
                      && Qgtb (PlayerState.velY (Level.player s1)) 0);
              intros H1; injection H1 as <-; exact Hs1. }
          apply (Hs1 _) in H0; [exact H0|].
          destruct (Qgtb (PlayerState.velY (Level.player s0)) 0) eqn:Hv;
            [|destruct (Qltb (PlayerState.velY (Level.player s0)) 0) eqn:Hv'];
            simpl;
            try (split; [exact A|]); try (split; [exact B|]);
            try (split; [exact C|]); try (split; [|exact E]).
          -- intros _. split; [reflexivity|]. exists ty, tx.
             split; [exact Horig|]. simpl. rewrite A, B. ring.
          -- intros Hg. exfalso. destruct (D Hg) as [Hz _].
             rewrite Hz in Hv'. discriminate Hv'.
          -- exact D.
    - repeat case_if; injection H0 as <-; simpl;
        exact (conj A (conj B (conj C (conj D E)))). }
  assert (H0 : P (Level.startScan lv p nextX nextY)).
  { unfold P, G, W. simpl. repeat split; auto; try discriminate.
    apply onlyBreaks_refl. }
  destruct (passes_keep P Hcheck lv p nextX nextY s H0 H)
    as (s2 & (A & B & C & D & E) & ->).
  assert (Hloc : ∀ f : Level.Collision → Prop,
            (f (Level.locals s2) →
             f (Level.set_collectedCoin true (Level.locals s2))) →
            (∀ c, f c → f (Level.set_die true c)) →
            f (Level.locals s2) →
            f (Level.locals
                 (Level.hitHazards (PlayerState.height p)
                    (Level.collectCoins (PlayerState.height p) s2)))).
  { intros f Hcoin Hdie Hf.
    unfold Level.hitHazards, Level.collectCoins. simpl.
    repeat case_if; simpl; auto. }
  split.
  - apply (Hloc (λ c, Level.onGround c = true →
                      ∃ ty tx, solidAt lv ty tx ∧
                               Level.y c + PlayerState.height p
                               == inject_Z ty * Level.tileSize lv));
      [auto|auto|].
    intros Hg. apply D, Hg.
  - apply (Hloc (λ c, Level.onWall c = true →
                      ∃ ty tx, solidAt lv ty tx ∧
                        ((Level.wallDir c = 1 ∧
                          Level.x c + PlayerState.width
                          == inject_Z tx * Level.tileSize lv) ∨
                         (Level.wallDir c = -1 ∧
                          Level.x c
                          == inject_Z tx * Level.tileSize lv
                             + Level.tileSize lv))));
      [auto|auto|exact E].
Qed.

(** The theorem on the first level, at the left end of a platform: the
    right edge of the body is on the left edge of a column with a solid
    tile. *)
Lemma contact_is_flush_witness :
  match
    Level.collide (Resolver.instanceOf (Game.generateLevel 0))
      (Resolver.falling 175 242 5 5) 180 247
  with
  | Some s =>
      ∃ ty tx,
        solidAt (Resolver.instanceOf (Game.generateLevel 0)) ty tx ∧
        ((Level.wallDir (Level.locals s) = 1 ∧
          Level.x (Level.locals s) + PlayerState.width
          == inject_Z tx
             * Level.tileSize (Resolver.instanceOf (Game.generateLevel 0))) ∨
         (Level.wallDir (Level.locals s) = -1 ∧
          Level.x (Level.locals s)
          == inject_Z tx
             * Level.tileSize (Resolver.instanceOf (Game.generateLevel 0))
             + Level.tileSize (Resolver.instanceOf (Game.generateLevel 0))))
  | None => False
  end.
Proof.
  destruct (Level.collide _ _ _ _) as [s|] eqn:E.
  - destruct (contact_is_flush _ _ _ _ _ E) as [_ W].
    apply W.
    assert (H : (Level.onWall ∘ Level.locals)
                <$> Level.collide
                      (Resolver.instanceOf (Game.generateLevel 0))
                      (Resolver.falling 175 242 5 5) 180 247 = Some true)
      by (vm_compute; reflexivity).
    rewrite E in H. simpl in H. injection H as H. exact H.
  - assert (H : is_Some (Level.collide
                      (Resolver.instanceOf (Game.generateLevel 0))
                      (Resolver.falling 175 242 5 5) 180 247))
      by (vm_compute; eauto).
    rewrite E in H. destruct H as [? H]. discriminate H.
Defined.

End Contacts.

(** ** The player: slides and jumps *)

Section Moves.

Import Posture.

Local Open Scope Q_scope.

Ltac by_cases :=
  repeat match goal with
  | |- context [if ?b then _ else _] => destruct b eqn:?
  end.

(** The part of the body that the input, the cap and the slide do not
    write. *)
Let aside (p : Player.t) :=
  (Player.onGround p, Player.onWall p, Player.wallDir p,
   Player.coyoteTimer p, Player.jumpBuffer p, Player.velY p, Player.dive p).

(** The part of the body that only the slide writes. *)
Let posture (p : Player.t) :=
  (Player.y p, Player.height p, Player.sliding p).

(** [update] before the dive: input, cap, start and course of the slide. *)
Let ground (dt : Q) (inp : Input.t) (p : Player.t) : Player.t :=
  Player.handleSlide dt inp
    (Player.startSlide inp (Player.capSpeed (Player.applyInput inp p))).

(** [update] from the dive to the gravity step. *)
Let air (dt : Q) (inp : Input.t) (p : Player.t) : Player.t * Input.t :=
  (Player.applyGravity
     (Player.tryJump
        (fst (Player.bufferJump dt inp
                (Player.updateCoyote dt (Player.startDive inp p))))),
   snd (Player.bufferJump dt inp
          (Player.updateCoyote dt (Player.startDive inp p)))).

Lemma integrate_ground_air dt inp p :
  Player.integrate dt inp p = air dt inp (ground dt inp p).
Proof.
  unfold Player.integrate, air, ground.
  destruct (Player.bufferJump _ _ _). reflexivity.
Qed.

Lemma applyInput_aside inp p : aside (Player.applyInput inp p) = aside p.
Proof. unfold aside, Player.applyInput. by_cases; reflexivity. Qed.

Lemma capSpeed_aside p : aside (Player.capSpeed p) = aside p.
Proof. unfold aside, Player.capSpeed. by_cases; reflexivity. Qed.

Lemma startSlide_aside inp p : aside (Player.startSlide inp p) = aside p.
Proof. unfold aside, Player.startSlide. by_cases; reflexivity. Qed.

Lemma handleSlide_aside dt inp p : aside (Player.handleSlide dt inp p) = aside p.
Proof. unfold aside, Player.handleSlide. by_cases; reflexivity. Qed.

Lemma ground_aside dt inp p : aside (ground dt inp p) = aside p.
Proof.
  unfold ground.
  rewrite handleSlide_aside, startSlide_aside, capSpeed_aside.
  apply applyInput_aside.
Qed.

Lemma applyInput_posture inp p : posture (Player.applyInput inp p) = posture p.
Proof. unfold posture, Player.applyInput. by_cases; reflexivity. Qed.

Lemma capSpeed_posture inp p :
  posture (Player.capSpeed (Player.applyInput inp p)) = posture p.
Proof.
  rewrite <- (applyInput_posture inp p).
  generalize (Player.applyInput inp p). intros p1.
  unfold posture, Player.capSpeed. by_cases; reflexivity.
Qed.

Lemma startDive_posture inp p : posture (Player.startDive inp p) = posture p.
Proof. unfold posture, Player.startDive. by_cases; reflexivity. Qed.

Lemma updateCoyote_posture dt p :
  posture (Player.updateCoyote dt p) = posture p.
Proof. unfold posture, Player.updateCoyote. by_cases; reflexivity. Qed.

Lemma bufferJump_posture dt inp p :
  posture (fst (Player.bufferJump dt inp p)) = posture p.
Proof.
  unfold posture, Player.bufferJump.
  destruct (Input.consumeJump inp) as [j i]. by_cases; reflexivity.
Qed.

Lemma tryJump_posture p : posture (Player.tryJump p) = posture p.
Proof. unfold posture, Player.tryJump. by_cases; reflexivity. Qed.

Lemma applyGravity_posture p : posture (Player.applyGravity p) = posture p.
Proof. unfold posture, Player.applyGravity. by_cases; reflexivity. Qed.

Lemma air_posture dt inp p : posture (fst (air dt inp p)) = posture p.
Proof.
  unfold air. cbn [fst].
  rewrite applyGravity_posture, tryJump_posture, bufferJump_posture,
    updateCoyote_posture.
  apply startDive_posture.
Qed.

Lemma slide_posture dt inp p :
  upright p →
  upright (Player.handleSlide dt inp (Player.startSlide inp p)) ∧
  bottom (Player.handleSlide dt inp (Player.startSlide inp p)) == bottom p.
Proof.
  unfold upright, bottom. intros Hh.
  destruct (Player.slideStarts inp p) eqn:Hst.
  - assert (Hs : Player.sliding p = false).
    { unfold Player.slideStarts in Hst.
      rewrite !andb_true_iff, negb_true_iff in Hst. tauto. }
    rewrite Hs in Hh.
    unfold Player.startSlide. rewrite Hst.
    unfold Player.handleSlide. cbn [PlayerState.sliding PlayerState.set_velX
      PlayerState.set_y PlayerState.set_height PlayerState.set_slideTimer
      PlayerState.set_sliding].
    destruct (_ || _); destruct (Qgtb _ _); simpl;
      (split; [reflexivity|]); rewrite Hh;
      unfold PlayerState.baseHeight; field.
  - unfold Player.startSlide. rewrite Hst.
    unfold Player.handleSlide.
    destruct (Player.sliding p) eqn:Hs.
    + destruct (_ || _); simpl; rewrite ?Hs;
        (split; [reflexivity || exact Hh|]).
      * rewrite Hh. unfold PlayerState.baseHeight. field.
      * reflexivity.
    + rewrite Hs. split; [exact Hh|reflexivity].
Qed.

(** A slide keeps the feet where they are.  Whatever the input, the part of
    a tick that comes before the move leaves the bottom edge of the body in
    place, and the body is half height exactly while it slides, at the
    gravity step and at the end of the tick. *)
Theorem slide_keeps_the_feet dt inp lv (p : Player.t) :
  upright p →
  upright (fst (Player.integrate dt inp p)) ∧
  bottom (fst (Player.integrate dt inp p)) == bottom p ∧
  (∀ out, Player.update dt inp lv p = Some out →
          upright (Player.player out)).
Proof.
  intros Hup. rewrite integrate_ground_air.
  pose proof (air_posture dt inp (ground dt inp p)) as Ha.
  pose proof (capSpeed_posture inp p) as Hc.
  unfold posture in Ha, Hc.
  injection Ha as Hqy Hqh Hqs. injection Hc as Hy Hh Hs.
  assert (Hup1 : upright (Player.capSpeed (Player.applyInput inp p))).
  { unfold upright. rewrite Hh, Hs. exact Hup. }
  destruct (slide_posture dt inp _ Hup1) as [Hup3 Hb3].
  fold (ground dt inp p) in Hup3, Hb3.
  assert (Hq : upright (fst (air dt inp (ground dt inp p))) ∧
               bottom (fst (air dt inp (ground dt inp p))) == bottom p).
  { unfold upright, bottom in *. unfold air. cbn [fst].
    rewrite Hqy, Hqh, Hqs.
    split; [exact Hup3|]. rewrite Hb3, Hy, Hh. reflexivity. }
  destruct Hq as [Hq1 Hq2]. split; [exact Hq1|]. split; [exact Hq2|].
  intros out Hout. unfold Player.update in Hout.
  rewrite integrate_ground_air in Hout.
  destruct (air dt inp (ground dt inp p)) as [q inp'] eqn:Eq.
  simpl in Hq1.
  destruct (Level.collide lv q _ _) as [s|] eqn:Es; simpl in Hout;
    [|discriminate].
  assert (Hkeep : Player.height (Level.player s) = Player.height q ∧
                  Player.sliding (Level.player s) = Player.sliding q).
  { set (P := λ s : Level.Scan,
             Player.height (Level.player s) = Player.height q ∧
             Player.sliding (Level.player s) = Player.sliding q).
    assert (Hcheck : ∀ tx ty horizontal s s',
              P s → Level.checkTile tx ty horizontal s = Some s' → P s').
    { unfold P. intros tx ty horizontal s0 s' [A B] H0.
      unfold Level.checkTile in H0.
      destruct (_ || _ || _ || _)%Z; [injection H0 as <-; auto|].
      destruct (Level.map (Level.level s0) !! Z.to_nat ty) as [row|];
        simpl in H0; [|discriminate].
      repeat match type of H0 with
             | context [if ?b then _ else _] => destruct b eqn:?
             end; injection H0 as <-; simpl; auto. }
    destruct (passes_keep P Hcheck lv q _ _ s (conj eq_refl eq_refl) Es)
      as (s2 & H2 & ->).
    unfold P in H2. unfold Level.hitHazards, Level.collectCoins.
    by_cases; simpl; exact H2. }
  destruct Hkeep as [Hkh Hks].
  unfold upright in *.
  repeat match type of Hout with
         | context [if ?b then _ else _] => destruct b eqn:?
         end; injection Hout as <-; simpl; rewrite Hkh, Hks; exact Hq1.
Qed.

(** The theorem on a body that runs on the first level and starts a slide:
    it is half height and its feet have not moved. *)
Lemma slide_keeps_the_feet_witness :
  Player.height
    (fst (Player.integrate 1 Motion.holdRightDown (Motion.running 200 400 3)))
  = PlayerState.baseHeight / 2 ∧
  bottom
    (fst (Player.integrate 1 Motion.holdRightDown (Motion.running 200 400 3)))
  == 440.
Proof.
  destruct (slide_keeps_the_feet 1 Motion.holdRightDown
              (Resolver.instanceOf (Game.generateLevel 0))
              (Motion.running 200 400 3) eq_refl) as (A & B & _).
  split.
  - rewrite A. vm_compute. reflexivity.
  - rewrite B. reflexivity.
Defined.

(** A jump pressed on the ground is a jump.  Whatever else the input holds
    and whatever the body does, the gravity step leaves the vertical speed
    at [-jumpForce + gravity], the body off the ground, both timers at zero
    and the request consumed. *)
Theorem jump_from_the_ground dt inp (p : Player.t) :
  Player.onGround p = true → Input.jumpRequested inp = true →
  let q := fst (Player.integrate dt inp p) in
  Player.velY q == - Player.jumpForce + Player.gravity ∧
  Player.onGround q = false ∧
  Player.coyoteTimer q = 0 ∧ Player.jumpBuffer q = 0 ∧
  Input.jumpRequested (snd (Player.integrate dt inp p)) = false.
Proof.
  intros Hg Hj. cbv zeta. rewrite integrate_ground_air.
  pose proof (ground_aside dt inp p) as Ha.
  generalize dependent (ground dt inp p). intros p3 Ha.
  unfold aside in Ha.
  injection Ha as Hog _ _ _ _ _ _. rewrite Hg in Hog.
  unfold air, Player.startDive, Player.updateCoyote, Player.bufferJump,
    Input.consumeJump.
  rewrite Hog, Hj. simpl. rewrite Hog. simpl.
  unfold Player.tryJump. simpl.
  change (Qgtb 6 0) with true. simpl.
  unfold Player.applyGravity. simpl.
  replace (Qgtb (- Player.jumpForce + Player.gravity) 15) with false
    by reflexivity.
  simpl. repeat split; reflexivity.
Qed.

(** The theorem at a body that slides on the ground, the down key held. *)
Lemma jump_from_the_ground_witness :
  Player.velY
    (fst (Player.integrate 1 (jumpPressed Motion.holdRightDown)
            (Motion.running 200 400 3)))
  == -8.55.
Proof.
  destruct (jump_from_the_ground 1 (jumpPressed Motion.holdRightDown)
              (Motion.running 200 400 3) eq_refl eq_refl) as (A & _).
  rewrite A. reflexivity.
Defined.

Ltac q_facts :=
  repeat match goal with
  | H : Qltb _ _ = true |- _ => apply Qltb_lt in H
  | H : Qltb _ _ = false |- _ => apply Qltb_ge in H
  | H : Qgtb _ _ = true |- _ => apply Qgtb_gt in H
  | H : Qgtb _ _ = false |- _ => apply Qgtb_le in H
  end.

(** The tail of [update] on a body in the air whose jump key was pressed. *)
Lemma air_jump dt inp (p : Player.t) :
  Player.onGround p = false → Input.jumpRequested inp = true →
  let q := fst (air dt inp p) in
  (0 < Player.coyoteTimer p → 0 < Player.coyoteTimer p - dt →
   Player.velY q == - Player.jumpForce + Player.gravity ∧
   Player.velX q = Player.velX p ∧
   Player.onWall q = Player.onWall p ∧
   Player.coyoteTimer q = 0 ∧ Player.jumpBuffer q = 0) ∧
  (Player.coyoteTimer p <= 0 → Player.onWall p = true →
   Player.velX q == - Player.wallDir p * (Player.maxSpeed * 0.8) ∧
   Player.velY q == - Player.jumpForce * 0.9 + Player.gravity ∧
   Player.onWall q = false ∧ Player.jumpBuffer q = 0) ∧
  (Player.coyoteTimer p <= 0 → Player.onWall p = false →
   Player.onGround q = false ∧ Player.jumpBuffer q = 6).
Proof.
  intros Hg Hj. cbv zeta.
  unfold air, Player.bufferJump, Input.consumeJump. rewrite Hj. cbn [fst].
  unfold Player.tryJump, Player.updateCoyote, Player.startDive.
  rewrite Hg. cbn [negb andb].
  repeat split; intros;
    destruct (Input.down inp && negb (Player.dive p));
    cbn [PlayerState.onGround PlayerState.set_velY PlayerState.set_dive
         PlayerState.coyoteTimer];
    rewrite ?Hg;
    destruct (Qgtb (Player.coyoteTimer p) 0) eqn:Hc; q_facts; try lra;
    cbn [PlayerState.jumpBuffer PlayerState.set_jumpBuffer
         PlayerState.set_coyoteTimer PlayerState.coyoteTimer
         PlayerState.onWall PlayerState.set_velY PlayerState.set_dive];
    change (Qgtb 6 0) with true; cbv iota.
  all: try match goal with
       | H : 0 < ?c - ?d |- context [Qgtb (?c - ?d) 0] =>
           replace (Qgtb (c - d) 0) with true
             by (symmetry; apply Qgtb_gt; exact H)
       | H : ?c <= 0 |- context [Qgtb ?c 0] =>
           replace (Qgtb c 0) with false
             by (symmetry; apply Qgtb_le; exact H)
       end; cbv iota.
  all: rewrite ?H0; cbv iota.
  all: unfold Player.applyGravity; simpl.
  all: try reflexivity.
  all: by_cases; simpl; try reflexivity; assumption.
Qed.

(** A jump pressed in the air.  While the coyote timer is still positive
    after its countdown, the jump is the full jump of the ground, and a
    wall contact is left as it is: the coyote jump comes first.  With the
    coyote timer run out and a wall contact, it is a wall jump, away from
    the wall at [maxSpeed * 0.8] and up at [jumpForce * 0.9].  With neither,
    no jump happens and the request stays buffered for 6 ticks. *)
Theorem jump_in_the_air dt inp (p : Player.t) :
  Player.onGround p = false → Input.jumpRequested inp = true →
  let q := fst (Player.integrate dt inp p) in
  (0 < Player.coyoteTimer p → 0 < Player.coyoteTimer p - dt →
   Player.velY q == - Player.jumpForce + Player.gravity ∧
   Player.onWall q = Player.onWall p ∧
   Player.coyoteTimer q = 0 ∧ Player.jumpBuffer q = 0) ∧
  (Player.coyoteTimer p <= 0 → Player.onWall p = true →
   Player.velX q == - Player.wallDir p * (Player.maxSpeed * 0.8) ∧
   Player.velY q == - Player.jumpForce * 0.9 + Player.gravity ∧
   Player.onWall q = false ∧ Player.jumpBuffer q = 0) ∧
  (Player.coyoteTimer p <= 0 → Player.onWall p = false →
   Player.onGround q = false ∧ Player.jumpBuffer q = 6).
Proof.
  intros Hg Hj. cbv zeta. rewrite integrate_ground_air.
  pose proof (ground_aside dt inp p) as Ha.
  generalize dependent (ground dt inp p). intros p3 Ha.
  unfold aside in Ha.
  injection Ha as Hog How Hwd Hct _ _ _. rewrite Hg in Hog.
  destruct (air_jump dt inp p3 Hog Hj) as (A & B & C).
  rewrite Hct, How, Hwd in *.
  split; [|split].
  - intros H1 H2. destruct (A H1 H2) as (? & _ & ? & ? & ?). auto.
  - exact B.
  - exact C.
Qed.

(** The theorem at a body that falls along a wall on its left. *)
Lemma jump_in_the_air_witness :
  let p := PlayerState.set_wallDir (-1)
             (PlayerState.set_onWall true (Resolver.falling 80 300 0 3)) in
  let q := fst (Player.integrate 1 (jumpPressed Input.initial) p) in
  Player.velX q == 4.4 ∧ Player.velY q == -7.65.
Proof.
  cbv zeta.
  destruct (jump_in_the_air 1 (jumpPressed Input.initial)
              (PlayerState.set_wallDir (-1)
                 (PlayerState.set_onWall true (Resolver.falling 80 300 0 3)))
              eq_refl eq_refl) as (_ & B & _).
  destruct B as (Bx & By & _).
  - vm_compute. discriminate.
  - reflexivity.
  - split; [rewrite Bx|rewrite By]; reflexivity.
Defined.

End Moves.

(** ** Skins and saved progress *)

Section Wardrobes.

Import Skins Session Wardrobe.

Local Open Scope Z_scope.

Lemma unlock_stocked idx sk (sks : list Skin) :
  sks !! idx = Some sk → stocked sks → stocked (<[idx := unlock sk]> sks).
Proof.
  intros Hsk (Hc & Hp & Hu). unfold stocked.
  rewrite !list_fmap_insert. simpl.
  rewrite (list_insert_id (color <$> sks))
    by (rewrite list_lookup_fmap, Hsk; reflexivity).
  rewrite (list_insert_id (price <$> sks))
    by (rewrite list_lookup_fmap, Hsk; reflexivity).
  split; [exact Hc|]. split; [exact Hp|].
  destruct idx as [|idx].
  - destruct sks; [discriminate Hsk|reflexivity].
  - destruct sks; [discriminate Hsk|exact Hu].
Qed.

Lemma unlock_keeps idx sk (sks : list Skin) :
  keepsUnlocked sks (<[idx := unlock sk]> sks).
Proof.
  intros i Hi. destruct (decide (idx = i)) as [->|Hne].
  - destruct (sks !! i) as [sk'|] eqn:E; [|discriminate Hi].
    rewrite list_lookup_insert_eq by (eapply lookup_lt_Some, E). reflexivity.
  - rewrite list_lookup_insert_ne by exact Hne. exact Hi.
Qed.

Lemma unlock_spent idx sk (sks : list Skin) :
  sks !! idx = Some sk → unlocked sk = false →
  spent (<[idx := unlock sk]> sks) = spent sks + price sk.
Proof.
  revert idx. induction sks as [|sk0 sks IH]; intros idx Hsk Hu;
    [discriminate Hsk|].
  destruct idx as [|idx]; simpl in *.
  - injection Hsk as ->. rewrite Hu. lia.
  - rewrite (IH idx Hsk Hu). lia.
Qed.

(** What one click keeps, when the buttons go with the skins. *)
Lemma clickSkin_keeps idx (g : Game.t) :
  listed g →
  let g' := fst (Game.clickSkin idx g) in
  listed g' ∧
  (stocked (Game.skins g) → stocked (Game.skins g')) ∧
  (owned g → owned g') ∧
  (0 <= Game.coins g → 0 <= Game.coins g') ∧
  keepsUnlocked (Game.skins g) (Game.skins g') ∧
  Game.coins g' + spent (Game.skins g')
  = Game.coins g + spent (Game.skins g).
Proof.
  intros Hl. cbv zeta. unfold Game.clickSkin.
  assert (Hrefl : ∀ sks, keepsUnlocked sks sks) by (intros sks i Hi; exact Hi).
  destruct (Game.skinsListDiv g !! idx) as [b|] eqn:Hb; [|simpl; auto 10].
  destruct (Forall2_lookup_l _ _ _ _ _ Hl Hb) as (sk & Hsk & Hkind).
  rewrite Hsk.
  destruct b as [[|]|[|]]; try (simpl; auto 10).
  - simpl in Hkind. simpl.
    split; [eapply buildSkinsUI_listed; reflexivity|].
    split; [auto|]. split; [|auto].
    intros _. unfold owned. simpl.
    rewrite skinAt_of_nat, Hsk. simpl. rewrite Hkind. reflexivity.
  - simpl in Hkind.
    destruct (Game.coins g >=? price sk) eqn:Hc; [|simpl; auto 10].
    apply Z.geb_le in Hc. simpl.
    split; [eapply buildSkinsUI_listed; reflexivity|].
    split; [apply unlock_stocked, Hsk|].
    split.
    { intros _. unfold owned. simpl. rewrite skinAt_of_nat.
      rewrite list_lookup_insert_eq by (eapply lookup_lt_Some, Hsk).
      reflexivity. }
    split; [lia|]. split; [apply unlock_keeps|].
    rewrite (unlock_spent idx sk _ Hsk Hkind). lia.
Qed.

Lemma clicks_keep idxs (g : Game.t) :
  listed g →
  let g' := Game.clicks idxs g in
  listed g' ∧
  (stocked (Game.skins g) → stocked (Game.skins g')) ∧
  (owned g → owned g') ∧
  (0 <= Game.coins g → 0 <= Game.coins g') ∧
  keepsUnlocked (Game.skins g) (Game.skins g') ∧
  Game.coins g' + spent (Game.skins g')
  = Game.coins g + spent (Game.skins g).
Proof.
  cbv zeta. unfold Game.clicks. revert g.
  induction idxs as [|idx idxs IH]; intros g Hl; simpl.
  - assert (Hrefl : keepsUnlocked (Game.skins g) (Game.skins g))
      by (intros i Hi; exact Hi).
    auto 10.
  - destruct (clickSkin_keeps idx g Hl) as (L0 & A0 & B0 & C0 & D0 & E0).
    destruct (IH (fst (Game.clickSkin idx g)) L0) as (L & A & B & C & D & E).
    split; [exact L|].
    split; [auto|]. split; [auto|]. split; [auto|].
    split; [intros i Hi; apply D, D0, Hi|].
    rewrite E. exact E0.
Qed.

(** The selected skin is always one the player owns.  From a session with
    the skins of [buildSkins], a selected skin that is unlocked and coins
    that are not negative, any series of clicks on the buttons of the skins
    list, once [showSkins] has built it, keeps all three, keeps unlocked
    what was unlocked, leaves a list whose buttons go with the skins, and
    leaves a selection of which [getSelectedSkinColor] returns the colour,
    one of the six.  So does any series of clicks without [showSkins], when
    the buttons of the list as it is go with the skins. *)
Theorem selected_skin_is_owned idxs (g : Game.t) :
  stocked (Game.skins g) → owned g → 0 <= Game.coins g →
  let kept (g' : Game.t) :=
    stocked (Game.skins g') ∧ owned g' ∧ 0 <= Game.coins g' ∧ listed g' ∧
    keepsUnlocked (Game.skins g) (Game.skins g') ∧
    ∃ c, Game.getSelectedSkinColor g' = Some c ∧ c ∈ colours in
  kept (Game.clicks idxs (Game.showSkins g)) ∧
  (listed g → kept (Game.clicks idxs g)).
Proof.
  intros Hst Ho Hc. cbv zeta.
  assert (H : ∀ g0, Game.skins g0 = Game.skins g →
                    Game.selectedSkinIndex g0 = Game.selectedSkinIndex g →
                    Game.coins g0 = Game.coins g → listed g0 →
            let g' := Game.clicks idxs g0 in
            stocked (Game.skins g') ∧ owned g' ∧ 0 <= Game.coins g' ∧
            listed g' ∧ keepsUnlocked (Game.skins g) (Game.skins g') ∧
            ∃ c, Game.getSelectedSkinColor g' = Some c ∧ c ∈ colours).
  { intros g0 Hsk Hsel Hco Hl. cbv zeta.
    destruct (clicks_keep idxs g0 Hl) as (L & A & B & C & D & _).
    rewrite Hsk in A, D. rewrite Hco in C.
    specialize (A Hst). specialize (C Hc).
    assert (Ho0 : owned g0) by (unfold owned in *; rewrite Hsk, Hsel; exact Ho).
    specialize (B Ho0).
    split; [exact A|]. split; [exact B|]. split; [exact C|].
    split; [exact L|]. split; [exact D|].
    unfold owned in B. unfold Game.getSelectedSkinColor.
    destruct (skinAt _ (Game.skins (Game.clicks idxs g0))) as [sk|] eqn:E;
      [|discriminate B].
    exists (color sk). split; [reflexivity|].
    destruct A as (Hcol & _). rewrite <- Hcol.
    apply list_elem_of_fmap. exists sk. split; [reflexivity|].
    unfold skinAt in E. destruct (_ <? 0); [discriminate E|].
    eapply list_elem_of_lookup_2, E. }
  split.
  - apply (H (Game.showSkins g)); try reflexivity.
    eapply buildSkinsUI_listed; reflexivity.
  - intros Hl. apply (H g); try reflexivity. exact Hl.
Qed.

(** The theorem on a fresh session with 100 coins that opens the skins
    list: the fourth skin is bought, then the second, then the fourth is
    selected again. *)
Lemma selected_skin_is_owned_witness :
  ∃ c, Game.getSelectedSkinColor
         (Game.clicks [3; 1; 3]%nat (Game.showSkins (earned 100))) = Some c ∧
       c ∈ colours.
Proof.
  destruct (selected_skin_is_owned [3; 1; 3]%nat (earned 100))
    as [(_ & _ & _ & _ & _ & H) _].
  - unfold stocked. vm_compute. repeat split; reflexivity.
  - vm_compute. reflexivity.
  - vm_compute. discriminate.
  - exact H.
Defined.







(** What [init] returns, from what [buildSkins] returns. *)
Lemma init_Some saved sks sel :
  buildSkins saved 0 = Some (sks, sel) →
  ∃ g, Game.init saved = Some g ∧
       Game.skins g = sks ∧ Game.selectedSkinIndex g = sel ∧
       Game.coins g = match saved with
                      | Some d => default 0 (savedCoins d)
                      | None => 0
                      end ∧
       Game.bestTimes g = match saved with
                          | Some d => default ∅ (savedBestTimes d)
                          | None => ∅
                          end ∧
       Game.state g = Game.menu.
Proof.
  intros H. unfold Game.init.
  change (Game.selectedSkinIndex Game.initial) with 0. rewrite H.
  eexists. split; [reflexivity|]. simpl. repeat split.
Qed.


(** Progress comes back as it was saved.  For a session with the skins of
    [buildSkins], [init] on the object [saveProgress] stores returns, on the
    start screen, with the same skins, unlocked or not, the same selected
    skin, the same coins and the same best times. *)
Theorem progress_round_trip (g : Game.t) :
  stocked (Game.skins g) →
  ∃ g', Game.init (Some (Game.saveProgress g)) = Some g' ∧
        Game.skins g' = Game.skins g ∧
        Game.selectedSkinIndex g' = Game.selectedSkinIndex g ∧
        Game.coins g' = Game.coins g ∧
        Game.bestTimes g' = Game.bestTimes g ∧
        Game.state g' = Game.menu.
Proof.
  intros (Hc & Hp & Hu).
  assert (Hm : mergeUnlocked 0 (unlocked <$> Game.skins g) starter
               = Some (Game.skins g)).
  { destruct (Game.skins g) as [|[c0 p0 u0] sks]; [discriminate Hc|].
    do 5 (destruct sks as [|[? ? ?] sks]; [discriminate Hc|]).
    destruct sks; [|discriminate Hc].
    simpl in Hc, Hp, Hu.
    injection Hc as -> -> -> -> -> ->.
    injection Hp as -> -> -> -> -> ->.
    injection Hu as ->.
    repeat match goal with b : bool |- _ => destruct b end; reflexivity. }
  assert (Hb : buildSkins (Some (Game.saveProgress g)) 0
               = Some (Game.skins g, Game.selectedSkinIndex g)).
  { unfold buildSkins.
    change (unlockAt 0 freshSkins) with (Some starter).
    cbn [mbind option_bind]. unfold Game.saveProgress.
    cbn [savedSkins savedSelectedSkinIndex]. rewrite Hm. reflexivity. }
  destruct (init_Some _ _ _ Hb) as (g' & A & B & C & D & E & F).
  exists g'. split; [exact A|]. split; [exact B|]. split; [exact C|].
  split; [exact D|]. split; [exact E|exact F].
Qed.

(** The theorem on the session that bought the fourth and the second
    skin. *)
Lemma progress_round_trip_witness :
  ∃ g',
    Game.init
      (Some (Game.saveProgress
               (Game.clicks [3; 1; 3]%nat (Game.showSkins (earned 100)))))
    = Some g' ∧
    Game.skins g'
    = Game.skins (Game.clicks [3; 1; 3]%nat (Game.showSkins (earned 100))) ∧
    Game.coins g' = 20.
Proof.
  destruct (progress_round_trip
              (Game.clicks [3; 1; 3]%nat (Game.showSkins (earned 100))))
    as (g' & A & B & _ & C & _).
  - unfold stocked. vm_compute. repeat split; reflexivity.
  - exists g'. split; [exact A|]. split; [exact B|].
    rewrite C. vm_compute. reflexivity.
Defined.



End Wardrobes.

(** ** The session: what a history of events keeps *)

Section Histories.

Import Session Ledger Tiles Wardrobe.

Local Open Scope Q_scope.



(** A session whose stored selection names no skin: the play button raises;
    once the first skin is selected in the skins list, the first level
    starts. *)
Lemma play_after_choosing_a_skin :
  let mended :=
    Game.init (Some {| Skins.savedCoins := None;
                       Skins.savedSkins := Some [true];
                       Skins.savedSelectedSkinIndex := Some 7%Z;
                       Skins.savedBestTimes := None |}) in
  Game.getSelectedSkinColor <$> mended = Some None ∧
  (mended ≫= Game.run Instance.drawsLow [(Game.EvPlay, 0)]) = None ∧
  Game.state
    <$> (mended
           ≫= Game.run Instance.drawsLow
                [(Game.EvShowSkins, 0); (Game.EvSkinButton 0, 0);
                 (Game.EvCloseOverlay, 0); (Game.EvPlay, 0)])
  = Some Game.playing.
Proof.
  cbv zeta. split; [vm_compute; reflexivity|].
  split; vm_compute; reflexivity.
Qed.

Lemma integrate_consumes dt inp (p : Player.t) :
  Input.jumpRequested (snd (Player.integrate dt inp p)) = false.
Proof.
  unfold Player.integrate.
  generalize (Player.updateCoyote dt
                (Player.startDive inp
                   (Player.handleSlide dt inp
                      (Player.startSlide inp
                         (Player.capSpeed (Player.applyInput inp p)))))).
  intros p5.
  destruct (Player.bufferJump dt inp p5) as [q i] eqn:E. simpl.
  unfold Player.bufferJump, Input.consumeJump in E.
  destruct (Input.jumpRequested inp) eqn:Hj.
  - injection E as _ <-. reflexivity.
  - destruct (Qgtb _ 0); injection E as _ <-; exact Hj.
Qed.

(** What a tick leaves of the input and of the coins. *)
Lemma update_ledger dt inp lv (p : Player.t) out :
  Player.update dt inp lv p = Some out →
  Input.jumpRequested (Player.input out) = false ∧
  (countCollected lv ≤ countCollected (Player.level out))%nat ∧
  (Player.call out = Player.CallAddCoin →
   (countCollected lv < countCollected (Player.level out))%nat).
Proof.
  unfold Player.update. intros H.
  pose proof (integrate_consumes dt inp p) as Hc.
  destruct (Player.integrate dt inp p) as [q inp']. simpl in Hc.
  destruct (Level.collide lv q _ _) as [s|] eqn:Es; simpl in H;
    [|discriminate].
  destruct (collide_coins _ _ _ _ _ Es) as (_ & Hiff & Hle & _).
  repeat match type of H with
         | context [if ?b then _ else _] => destruct b eqn:?
         end; injection H as <-; simpl;
    (split; [exact Hc|]); (split; [exact Hle|]);
    intros Hcall; try discriminate Hcall; apply Hiff; (reflexivity || assumption).
Qed.

(** The life of a jump request.  Releasing the jump key does not withdraw
    the request; a frame of play consumes it, whatever the frame does with
    it and however it ends; a frame out of play leaves the input alone. *)
Theorem jump_request_lasts_until_played rnd now clock g g' :
  Game.loop rnd now clock g = Some g' →
  (∀ c, Input.jumpRequested
          (Game.input (Game.keyup Game.KeyJump
                         (Game.keydown c Game.KeyJump g))) = true) ∧
  (Game.state g = Game.playing →
   Input.jumpRequested (Game.input g') = false) ∧
  (Game.state g ≠ Game.playing → Game.input g' = Game.input g).
Proof.
  intros H. split; [reflexivity|].
  unfold Game.loop in H. simpl in H.
  destruct (Game.state g) eqn:E;
    try (injection H as <-; split; [discriminate|reflexivity]).
  split; [|congruence]. intros _.
  destruct (Game.level g) as [lv|]; simpl in H; [|discriminate].
  destruct (Game.player g) as [p|]; simpl in H; [|discriminate].
  destruct (Player.update _ _ _ p) as [out|] eqn:Eo; simpl in H;
    [|discriminate].
  destruct (update_ledger _ _ _ _ _ Eo) as (Hin & _).
  destruct (Player.call out).
  - unfold Game.resetLevel, Game.startGame in H. simpl in H.
    destruct (Game.levels g !! _) as [tpl|]; simpl in H; [|discriminate].
    destruct (Level.new _ _ tpl) as [[lv' n]|]; simpl in H; [|discriminate].
    destruct (Game.getSelectedSkinColor _) as [skinColor|]; simpl in H;
      [|discriminate].
    injection H as <-. exact Hin.
  - injection H as <-. unfold Game.completeLevel. simpl.
    destruct (Game.bestTimes g !! _) as [b|]; [destruct (Qltb _ b)|];
      exact Hin.
  - injection H as <-. exact Hin.
  - injection H as <-. exact Hin.
Qed.

(** The theorem on a frame of the first level, the jump key pressed and
    released before the frame. *)
Lemma jump_request_witness :
  match
    Game.loop Instance.drawsLow 16.6667 16.6667
      (Game.keyup Game.KeyJump (Game.keydown 5 Game.KeyJump nearGoal))
  with
  | Some g => Input.jumpRequested (Game.input g) = false
  | None => False
  end.
Proof.
  destruct (Game.loop _ _ _ _) as [g2|] eqn:E.
  - apply (proj1 (proj2 (jump_request_lasts_until_played _ _ _ _ _ E))).
    vm_compute. reflexivity.
  - assert (H : is_Some (Game.state <$> Game.loop Instance.drawsLow
                  16.6667 16.6667
                  (Game.keyup Game.KeyJump
                     (Game.keydown 5 Game.KeyJump nearGoal))))
      by (vm_compute; eauto).
    rewrite E in H. destruct H as [? H]. discriminate H.
Defined.









(** A run of the first level that collects one coin. *)
Lemma coin_ledger_example :
  (λ g, (Game.sessionCoins g, countCollected <$> Game.level g))
    <$> Game.run Instance.drawsLow coinRun Session.fresh
  = Some (1%Z, Some 1%nat).
Proof. vm_compute. reflexivity. Qed.







End Histories.

(** ** The generator on every index *)

Section Shapes.

Import Game.

Local Open Scope Z_scope.

Lemma forUpTo_inv_range {S : Type} (P : S → Prop) (n : Z)
    (body : Z → S → S) (s : S) :
  P s → (∀ i s, 0 <= i < n → P s → P (body i s)) → P (forUpTo n body s).
Proof.
  intros Hs Hbody. unfold forUpTo.
  assert (Hl : Forall (λ i, 0 <= i < n) (seqZ 0 n)).
  { apply Forall_forall. intros i Hi. apply elem_of_seqZ in Hi. lia. }
  revert s Hs. induction Hl as [|i l Hi Hl IH]; intros s Hs; simpl;
    [exact Hs|].
  apply IH, Hbody; assumption.
Qed.

(** A cell after a write: the written character at the written cell, the
    cell as it was elsewhere. *)
Lemma getTile_setTile r c r' c' ch (m : Grid) a :
  getTile r c (setTile r' c' ch m) = Some a →
  (a = ch ∧ r = r' ∧ c = c') ∨ getTile r c m = Some a.
Proof.
  intros H. destruct (decide ((r, c) = (r', c'))) as [[= -> ->]|Hne].
  - destruct (getTile r' c' m) as [b|] eqn:E.
    + rewrite getTile_setTile_eq in H by eauto. left. repeat split; congruence.
    + right. rewrite <- H. symmetry.
      unfold getTile, setTile in *.
      destruct ((r' <? 0) || (c' <? 0)); [reflexivity|].
      rewrite list_lookup_alter_eq.
      destruct (m !! Z.to_nat r') as [row|]; [|reflexivity]. simpl in *.
      rewrite list_insert_ge by (apply lookup_ge_None; exact E). exact E.
  - rewrite getTile_setTile_ne in H by exact Hne. right. exact H.
Qed.

Import Shape.

Lemma getTile_elem r c (m : Grid) a :
  getTile r c m = Some a → ∃ row, row ∈ m ∧ a ∈ row.
Proof.
  unfold getTile. destruct ((r <? 0) || (c <? 0)); [discriminate|].
  destruct (m !! Z.to_nat r) as [row|] eqn:E; [|discriminate]. simpl.
  intros H. exists row. split; eapply list_elem_of_lookup_2; eassumption.
Qed.

Lemma groundwork_regular : regular groundwork.
Proof.
  assert (Hrows : groundwork
                  = replicate 10 (replicate 40 " "%char)
                    ++ [<[38%nat := "F"%char]>
                          (<[1%nat := "P"%char]> (replicate 40 " "%char));
                        replicate 40 "#"%char])
    by (vm_compute; reflexivity).
  unfold regular. rewrite Hrows.
  split; [reflexivity|].
  split; [vm_compute; repeat constructor|].
  split.
  { intros c Hc. unfold getTile, gen_height, gen_width in *.
    replace ((12 - 1 <? 0) || (c <? 0)) with false
      by (symmetry; rewrite orb_false_iff, !Z.ltb_ge; lia).
    change (Z.to_nat (12 - 1)) with 11%nat. simpl.
    exact (lookup_replicate_2 40 "#"%char (Z.to_nat c) ltac:(lia)). }
  split; [vm_compute; reflexivity|]. split; [vm_compute; reflexivity|].
  split.
  - intros r c H. exfalso.
    apply getTile_elem in H as (row & Hrow & Ha).
    rewrite <- Hrows in Hrow.
    assert (Hall : Forall (Forall (λ a, a ≠ "S"%char)) groundwork).
    { rewrite Hrows. vm_compute. repeat constructor; discriminate. }
    rewrite Forall_forall in Hall. specialize (Hall row Hrow).
    rewrite Forall_forall in Hall. exact (Hall _ Ha eq_refl).
  - intros r c H. rewrite <- Hrows in H. unfold groundwork in H.
    apply getTile_setTile in H as [(Hch & _)|H]; [discriminate Hch|].
    apply getTile_setTile in H as [(_ & Hr & Hc)|H]; [auto|].
    exfalso. apply getTile_elem in H as (row & Hrow & Ha).
    assert (Hall : Forall (Forall (λ a, a ≠ "P"%char))
                     (forUpTo gen_width
                        (λ c m, setTile (gen_height - 1) c "#" m) blankMap)).
    { vm_compute. repeat constructor; discriminate. }
    rewrite Forall_forall in Hall. specialize (Hall row Hrow).
    rewrite Forall_forall in Hall. exact (Hall _ Ha eq_refl).
Qed.

Lemma setTile_regular r c ch (m : Grid) :
  harmless r c ch → regular m → regular (setTile r c ch m).
Proof.
  intros (H11 & HP & HF & HS & HnP) (A & B & C & D & E & F & G).
  unfold regular. rewrite setTile_length.
  split; [exact A|]. split.
  { unfold setTile. destruct ((r <? 0) || (c <? 0)); [exact B|].
    apply Forall_alter; [exact B|]. intros row _ Hrow.
    rewrite length_insert. exact Hrow. }
  split.
  { intros c0 Hc0. rewrite getTile_setTile_ne; [apply C, Hc0|].
    intros [= <- _]. apply H11. reflexivity. }
  split; [rewrite getTile_setTile_ne; [exact D|auto]|].
  split; [rewrite getTile_setTile_ne; [exact E|auto]|].
  split.
  - intros r0 c0 H. apply getTile_setTile in H as [(Hch & -> & ->)|H].
    + apply HS. symmetry. exact Hch.
    + apply F, H.
  - intros r0 c0 H. apply getTile_setTile in H as [(Hch & _)|H].
    + exfalso. apply HnP. symmetry. exact Hch.
    + apply G, H.
Qed.

Lemma generateGrid_regular index : 0 <= index → regular (generateGrid index).
Proof.
  intros Hindex. unfold generateGrid. cbv zeta.
  fold groundwork.
  assert (Hcols := generateLevel_writes_in_range index).
  repeat first
    [ exact groundwork_regular
    | assumption
    | apply (forUpTo_inv_range regular); [|intros i m Hi Hm]
    | match goal with
      | |- regular (if ?b then _ else _) => destruct b
      end
    | apply setTile_regular;
      [unfold harmless, gen_height, gen_width in *|] ].
  all: try match goal with
       | Hi : 0 <= ?i < _ |- _ =>
           pose proof (Hcols i Hindex (proj1 Hi)) as (? & ? & ? & ? & ? & ?)
       end.
  all: unfold gen_width, gen_height in *.
  all: repeat split; try discriminate; try lia.
  all: intros Heq; injection Heq; intros; lia.
Qed.

Lemma string_of_list_ascii_length (l : list ascii) :
  String.length (string_of_list_ascii l) = length l.
Proof. induction l as [|a l IH]; simpl; [reflexivity|]. rewrite IH. reflexivity. Qed.

Lemma generateLevel_grid index :
  list_ascii_of_string <$> generateLevel index = generateGrid index.
Proof.
  unfold generateLevel. rewrite <- list_fmap_compose.
  rewrite <- (list_fmap_id (generateGrid index)) at 2.
  apply list_fmap_ext. intros i row _. simpl.
  apply list_ascii_of_string_of_list_ascii.
Qed.

(** Every level is playable ground.  For every index from 0 on, the
    generated template has twelve rows of forty cells, a bottom row that is
    solid throughout, its spawn marker at row 10, column 1 and nowhere
    else, its goal at row 10, column 38, whatever the later placements, and
    hazard tiles on row 10 only, never on the column of the spawn marker or
    of the goal. *)
Theorem generated_level_shape index :
  0 <= index →
  let tpl := generateLevel index in
  length tpl = 12%nat ∧
  Forall (λ row, String.length row = 40%nat) tpl ∧
  (∀ c, 0 <= c < 40 → templateTile 11 c tpl = Some "#"%char) ∧
  templateTile 10 1 tpl = Some "P"%char ∧
  templateTile 10 38 tpl = Some "F"%char ∧
  (∀ r c, templateTile r c tpl = Some "S"%char → r = 10 ∧ 2 <= c < 38) ∧
  (∀ r c, templateTile r c tpl = Some "P"%char → r = 10 ∧ c = 1).
Proof.
  intros Hindex. cbv zeta. unfold templateTile.
  rewrite generateLevel_grid.
  destruct (generateGrid_regular index Hindex) as (A & B & C & D & E & F & G).
  unfold generateLevel. rewrite length_fmap.
  split; [exact A|]. split; [|auto 10].
  apply Forall_fmap. eapply Forall_impl; [exact B|].
  intros row Hrow. simpl. rewrite string_of_list_ascii_length. exact Hrow.
Qed.

(** The theorem at index 18, where the bounce pad takes the cell of a
    hazard: the spawn marker and the goal are in place. *)
Lemma generated_level_shape_witness :
  templateTile 10 1 (generateLevel 18) = Some "P"%char ∧
  templateTile 10 38 (generateLevel 18) = Some "F"%char.
Proof.
  destruct (generated_level_shape 18) as (_ & _ & _ & A & B & _); [lia|].
  split; assumption.
Defined.

(** The writes of the generator stay inside the grid.  For every index from
    0 on and every placement number from 0 on, the hazard column is what
    the first formula gives and is in 2..37, so the shift off the goal
    column never applies; breakable tiles and coins are in columns 3..36,
    moving hazards in 5..34, and a platform, four tiles from its column,
    ends by column 37. *)
Theorem generator_stays_in_the_grid index i :
  0 <= index → 0 <= i →
  hazardCol index i = Z.rem (index * 7 + i * 11) (gen_width - 4) + 2 ∧
  2 <= hazardCol index i < gen_width - 2 ∧
  3 <= breakableCol index i < gen_width - 3 ∧
  3 <= coinCol index i < gen_width - 3 ∧
  5 <= platformCol index i ∧ platformCol index i + 3 < gen_width - 2 ∧
  5 <= movingCol index i < gen_width - 5.
Proof.
  intros Hindex Hi.
  split; [|exact (generateLevel_writes_in_range index i Hindex Hi)].
  unfold hazardCol.
  pose proof (Z.rem_bound_pos (index * 7 + i * 11) (gen_width - 4)) as H.
  unfold gen_width in *.
  destruct (Z.rem (index * 7 + i * 11) (40 - 4) + 2 =? 40 - 2) eqn:E;
    [apply Z.eqb_eq in E; lia|reflexivity].
Qed.

(** The theorem at the third hazard of level 49. *)
Lemma generator_stays_in_the_grid_witness :
  hazardCol 49 2 = 7 ∧ 2 <= hazardCol 49 2 < 38.
Proof.
  destruct (generator_stays_in_the_grid 49 2) as (A & B & _); [lia..|].
  split; [rewrite A; reflexivity|exact B].
Defined.

End Shapes.

(** ** The camera *)

Section Views.

Import View.

Local Open Scope Q_scope.

Lemma clamp_spec (t hi : Q) :
  0 <= Qmax 0 (Qmin t hi) ∧
  (0 <= hi → Qmax 0 (Qmin t hi) <= hi) ∧
  (hi <= 0 → Qmax 0 (Qmin t hi) == 0) ∧
  (0 <= t → t <= hi → Qmax 0 (Qmin t hi) == t).
Proof.
  destruct (Q.max_spec 0 (Qmin t hi)) as [[H1 H2]|[H1 H2]];
    destruct (Q.min_spec t hi) as [[H3 H4]|[H3 H4]];
    rewrite H2; repeat split; intros; lra.
Qed.

(** The view stays on the level.  On a level at least as wide and as high
    as the canvas, the camera is never negative and the canvas placed at
    the camera ends by the right and bottom edges of the level; along each
    axis the body is at the centre of the canvas whenever that keeps the
    view on the level. *)
Theorem camera_stays_on_the_level cw ch lv (p : Player.t) :
  cw <= levelWidth lv → ch <= levelHeight lv →
  let cam := Camera.updateCamera cw ch lv p in
  0 <= Camera.x cam ∧ Camera.x cam + cw <= levelWidth lv ∧
  0 <= Camera.y cam ∧ Camera.y cam + ch <= levelHeight lv ∧
  (cw / 2 <= centreX p → centreX p <= levelWidth lv - cw / 2 →
   Camera.x cam + cw / 2 == centreX p) ∧
  (ch / 2 <= centreY p → centreY p <= levelHeight lv - ch / 2 →
   Camera.y cam + ch / 2 == centreY p).
Proof.
  intros Hw Hh. cbv zeta.
  unfold Camera.updateCamera, levelWidth, levelHeight, centreX, centreY in *.
  cbv zeta. simpl.
  set (W := inject_Z (Level.cols lv) * Level.tileSize lv) in *.
  set (H := inject_Z (Level.rows lv) * Level.tileSize lv) in *.
  destruct (clamp_spec (Player.x p + Player.width / 2 - cw / 2) (W - cw))
    as (A1 & A2 & _ & A4).
  destruct (clamp_spec (Player.y p + Player.height p / 2 - ch / 2) (H - ch))
    as (B1 & B2 & _ & B4).
  split; [exact A1|]. split; [assert (0 <= W - cw) by lra; lra|].
  split; [exact B1|]. split; [assert (0 <= H - ch) by lra; lra|].
  assert (Ew : cw == cw / 2 + cw / 2) by field.
  assert (Eh : ch == ch / 2 + ch / 2) by field.
  split; intros H1 H2; [rewrite A4|rewrite B4]; lra.
Qed.

(** The theorem on the first level with a canvas of 800 by 450, the body at
    the spawn point: the view starts at the left edge. *)
Lemma camera_stays_on_the_level_witness :
  let lv := Resolver.instanceOf (Game.generateLevel 0) in
  let p := Player.new (Level.spawnX lv) (Level.spawnY lv) in
  0 <= Camera.x (Camera.updateCamera 800 450 lv p) ∧
  Camera.x (Camera.updateCamera 800 450 lv p) + 800 <= levelWidth lv.
Proof.
  cbv zeta.
  destruct (camera_stays_on_the_level 800 450
              (Resolver.instanceOf (Game.generateLevel 0))
              (Player.new
                 (Level.spawnX (Resolver.instanceOf (Game.generateLevel 0)))
                 (Level.spawnY (Resolver.instanceOf (Game.generateLevel 0)))))
    as (A & B & _).
  - vm_compute. discriminate.
  - vm_compute. discriminate.
  - split; [exact A|exact B].
Defined.

(** A level smaller than the canvas pins the camera.  Along an axis where
    the level is no larger than the canvas the camera is at 0, wherever the
    body is. *)
Theorem camera_on_a_small_level cw ch lv (p : Player.t) :
  let cam := Camera.updateCamera cw ch lv p in
  (levelWidth lv <= cw → Camera.x cam == 0) ∧
  (levelHeight lv <= ch → Camera.y cam == 0).
Proof.
  cbv zeta.
  unfold Camera.updateCamera, levelWidth, levelHeight. cbv zeta. simpl.
  split; intros H; apply clamp_spec; lra.
Qed.

End Views.

(** ** What the constructor makes of a template *)

Section Parsing.

Import Markers.

Local Open Scope Q_scope.

Lemma forUpTo_reaches {S : Type} (I P : S → Prop) (n k : Z)
    (body : Z → S → S) (s : S) :
  (0 <= k < n)%Z → I s →
  (∀ i s, I s → I (body i s)) →
  (∀ i s, I s → P s → P (body i s)) →
  (∀ s, I s → P (body k s)) →
  P (forUpTo n body s).
Proof.
  intros Hk Hs HI HP Hat. unfold forUpTo.
  assert (Hin : k ∈ seqZ 0 n) by (apply elem_of_seqZ; lia).
  assert (Hkeep : ∀ l s, I s → P s → P (foldl (λ acc i, body i acc) s l)).
  { induction l as [|i l IH]; intros s0 H1 H2; simpl; [exact H2|].
    apply IH; [apply HI, H1|apply HP; assumption]. }
  assert (Hall : ∀ l, k ∈ l → ∀ s, I s → P (foldl (λ acc i, body i acc) s l)).
  { induction l as [|i l IH]; intros Hl s0 H0; [inversion Hl|].
    simpl. apply elem_of_cons in Hl as [<-|Hl].
    - apply Hkeep; [apply HI, H0|apply Hat, H0].
    - apply IH; [exact Hl|apply HI, H0]. }
  apply Hall; assumption.
Qed.

Lemma marker_of (ch : option ascii) (c : ascii) :
  Level.isCh ch c = true → c = "P"%char ∨ c = "C"%char ∨ c = "H"%char →
  marker ch = true.
Proof.
  intros H Hc. apply isCh_true in H. subst ch.
  destruct Hc as [-> | [-> | ->]]; reflexivity.
Qed.

Lemma consumed_refl (m : Grid) : consumed m m.
Proof. intros r c. left. reflexivity. Qed.

(** Blanking a marker of a grid whose only changes are blanked markers; the
    marker is one of the template. *)
Lemma consumed_blank (m0 m : Grid) (y x : Z) :
  consumed m0 m → marker (getTile y x m) = true →
  consumed m0 (setTile y x " " m) ∧ getTile y x m0 = getTile y x m.
Proof.
  intros H Hm.
  assert (Heq : getTile y x m0 = getTile y x m).
  { destruct (H y x) as [Heq|[_ Hb]]; [congruence|].
    rewrite Hb in Hm. discriminate Hm. }
  split; [|exact Heq]. intros r c.
  destruct (decide ((r, c) = (y, x))) as [[= -> ->]|Hne].
  - right. split; [rewrite Heq; exact Hm|].
    apply getTile_setTile_eq.
    destruct (getTile y x m); [eauto|discriminate Hm].
  - rewrite getTile_setTile_ne by exact Hne. apply H.
Qed.

Section Template.

Variable m0 : Grid.
Variables R C : Z.

(** What [parse] keeps at every cell it visits. *)
Let inv (s : Level.t * nat) : Prop :=
  Level.tileSize (fst s) = 40 ∧ Level.rows (fst s) = R ∧
  Level.cols (fst s) = C ∧
  consumed m0 (Level.map (fst s)) ∧
  Forall (λ coin, ∃ r c, getTile r c m0 = Some "C"%char ∧ coin = coinOf r c)
    (Level.coins (fst s)) ∧
  Forall (λ hz, ∃ r c, getTile r c m0 = Some "H"%char ∧ hazardOf r c hz)
    (Level.hazards (fst s)) ∧
  ((Level.spawnX (fst s) = 0 ∧ Level.spawnY (fst s) = 0) ∨
   ∃ r c, getTile r c m0 = Some "P"%char ∧ spawnOf r c (fst s)).

(** The marker of the template at a cell is still there or has been turned
    into its object. *)
Let served (r c : Z) (s : Level.t * nat) : Prop :=
  (getTile r c m0 = Some "C"%char →
   getTile r c (Level.map (fst s)) = Some "C"%char ∨
   coinOf r c ∈ Level.coins (fst s)) ∧
  (getTile r c m0 = Some "H"%char →
   getTile r c (Level.map (fst s)) = Some "H"%char ∨
   ∃ hz, hz ∈ Level.hazards (fst s) ∧ hazardOf r c hz) ∧
  (getTile r c m0 = Some "P"%char →
   getTile r c (Level.map (fst s)) = Some "P"%char ∨
   ∃ r' c', getTile r' c' m0 = Some "P"%char ∧ spawnOf r' c' (fst s)).

Let clean (r c : Z) (s : Level.t * nat) : Prop :=
  marker (getTile r c (Level.map (fst s))) = false.

Lemma parseCell_inv rnd y x s : inv s → inv (Level.parseCell rnd y x s).
Proof.
  destruct s as [lv n]. unfold inv. simpl.
  intros (Hts & HR & HC & Hcon & Hcoins & Hhz & Hsp).
  unfold Level.parseCell.
  destruct (Level.isCh _ "P") eqn:EP;
    [|destruct (Level.isCh _ "C") eqn:EC;
      [|destruct (Level.isCh _ "H") eqn:EH]]; simpl;
    try (destruct (consumed_blank m0 (Level.map lv) y x Hcon) as [Hcon' Heq];
         [first [ exact (marker_of _ _ EP (or_introl eq_refl))
                | exact (marker_of _ _ EC (or_intror (or_introl eq_refl)))
                | exact (marker_of _ _ EH (or_intror (or_intror eq_refl))) ]
         |]);
    repeat (split; [assumption|]); try assumption.
  - right. exists y, x. apply isCh_true in EP.
    split; [congruence|]. unfold spawnOf. simpl. rewrite Hts. auto.
  - split; [|auto].
    apply Forall_app. split; [assumption|]. apply Forall_singleton.
    exists y, x. apply isCh_true in EC.
    split; [congruence|]. unfold coinOf. rewrite Hts. reflexivity.
  - split; [|assumption].
    apply Forall_app. split; [assumption|]. apply Forall_singleton.
    exists y, x. apply isCh_true in EH.
    split; [congruence|]. unfold hazardOf. simpl. rewrite Hts. auto.
Qed.

Lemma parseCell_served rnd y x r c s :
  inv s → served r c s → served r c (Level.parseCell rnd y x s).
Proof.
  destruct s as [lv n]. unfold inv, served. simpl.
  intros (Hts & _ & _ & Hcon & _) (HC & HH & HP).
  assert (Hstay : ∀ a b : ascii, a ≠ b →
            getTile y x (Level.map lv) = Some a →
            getTile r c (Level.map lv) = Some b →
            getTile r c (setTile y x " " (Level.map lv)) = Some b).
  { intros a b Hab Ha Hb. rewrite getTile_setTile_ne; [exact Hb|].
    intros [= -> ->]. congruence. }
  unfold Level.parseCell.
  destruct (Level.isCh _ "P") eqn:EP;
    [|destruct (Level.isCh _ "C") eqn:EC;
      [|destruct (Level.isCh _ "H") eqn:EH]]; simpl;
    [apply isCh_true in EP|apply isCh_true in EC|apply isCh_true in EH|auto].
  - split; [|split].
    + intros H. destruct (HC H) as [Hc|Hc]; [left|right; exact Hc].
      eapply Hstay; [|exact EP|exact Hc]. discriminate.
    + intros H. destruct (HH H) as [Hc|Hc]; [left|right; exact Hc].
      eapply Hstay; [|exact EP|exact Hc]. discriminate.
    + intros _. right. exists y, x.
      destruct (consumed_blank m0 (Level.map lv) y x Hcon) as [_ Heq];
        [rewrite EP; reflexivity|].
      split; [congruence|]. unfold spawnOf. simpl. rewrite Hts. auto.
  - split; [|split].
    + intros H. destruct (HC H) as [Hc|Hc].
      * destruct (decide ((r, c) = (y, x))) as [[= -> ->]|Hne].
        -- right. apply elem_of_app. right. apply list_elem_of_singleton.
           unfold coinOf. rewrite Hts. reflexivity.
        -- left. rewrite getTile_setTile_ne by exact Hne. exact Hc.
      * right. apply elem_of_app. left. exact Hc.
    + intros H. destruct (HH H) as [Hc|Hc]; [left|right; exact Hc].
      eapply Hstay; [|exact EC|exact Hc]. discriminate.
    + intros H. destruct (HP H) as [Hc|Hc]; [left|right; exact Hc].
      eapply Hstay; [|exact EC|exact Hc]. discriminate.
  - split; [|split].
    + intros H. destruct (HC H) as [Hc|Hc]; [left|right; exact Hc].
      eapply Hstay; [|exact EH|exact Hc]. discriminate.
    + intros H. destruct (HH H) as [Hc|(hz & Hin & Hhz)].
      * destruct (decide ((r, c) = (y, x))) as [[= -> ->]|Hne].
        -- right. eexists. split.
           ++ apply elem_of_app. right. apply list_elem_of_singleton.
              reflexivity.
           ++ unfold hazardOf. simpl. rewrite Hts. auto.
        -- left. rewrite getTile_setTile_ne by exact Hne. exact Hc.
      * right. exists hz. split; [|exact Hhz].
        apply elem_of_app. left. exact Hin.
    + intros H. destruct (HP H) as [Hc|Hc]; [left|right; exact Hc].
      eapply Hstay; [|exact EH|exact Hc]. discriminate.
Qed.

Lemma parseCell_clean_at rnd y x s : clean y x (Level.parseCell rnd y x s).
Proof.
  destruct s as [lv n]. unfold clean, Level.parseCell.
  assert (Hb : ∀ ch, Level.isCh (getTile y x (Level.map lv)) ch = true →
            marker (getTile y x (setTile y x " " (Level.map lv))) = false).
  { intros ch H. apply isCh_true in H.
    rewrite getTile_setTile_eq by (rewrite H; eauto). reflexivity. }
  destruct (Level.isCh _ "P") eqn:EP;
    [|destruct (Level.isCh _ "C") eqn:EC;
      [|destruct (Level.isCh _ "H") eqn:EH]]; simpl; eauto.
  unfold marker. rewrite EP, EC, EH. reflexivity.
Qed.

Lemma parseCell_clean rnd y x r c s :
  clean r c s → clean r c (Level.parseCell rnd y x s).
Proof.
  intros H. destruct (decide ((r, c) = (y, x))) as [[= -> ->]|Hne];
    [apply parseCell_clean_at|].
  destruct s as [lv n]. unfold clean, Level.parseCell in *. simpl in H.
  destruct (Level.isCh _ "P");
    [|destruct (Level.isCh _ "C"); [|destruct (Level.isCh _ "H")]]; simpl;
    try rewrite getTile_setTile_ne by exact Hne; exact H.
Qed.

Lemma parse_inv rnd s : inv s → inv (Level.parse rnd s).
Proof.
  intros Hs. unfold Level.parse.
  apply (forUpTo_inv inv); [exact Hs|].
  intros y s1 Hs1. apply (forUpTo_inv inv); [exact Hs1|].
  intros x s2 Hs2. apply parseCell_inv, Hs2.
Qed.

Lemma parse_served rnd r c s :
  inv s → served r c s → served r c (Level.parse rnd s).
Proof.
  intros Hi Hs. unfold Level.parse.
  apply (forUpTo_inv (λ s, inv s ∧ served r c s)); [split; assumption|].
  intros y s1 Hs1.
  apply (forUpTo_inv (λ s, inv s ∧ served r c s)); [exact Hs1|].
  intros x s2 [H1 H2].
  split; [apply parseCell_inv, H1|apply parseCell_served; assumption].
Qed.

Lemma parse_clean rnd r c s :
  inv s → (0 <= r < R)%Z → (0 <= c < C)%Z → clean r c (Level.parse rnd s).
Proof.
  intros Hi Hr Hc. unfold Level.parse.
  assert (HR : Level.rows (fst s) = R) by apply Hi.
  rewrite HR.
  apply (forUpTo_reaches inv (clean r c) R r); [exact Hr|exact Hi|..].
  - intros y s1 Hs1. apply (forUpTo_inv inv); [exact Hs1|].
    intros x s2 Hs2. apply parseCell_inv, Hs2.
  - intros y s1 Hs1 Hc1. apply (forUpTo_inv (clean r c)); [exact Hc1|].
    intros x s2 Hs2. apply parseCell_clean, Hs2.
  - intros s1 Hs1.
    assert (HC : Level.cols (fst s1) = C) by apply Hs1.
    rewrite HC.
    apply (forUpTo_reaches inv (clean r c) C c); [exact Hc|exact Hs1|..].
    + intros x s2 Hs2. apply parseCell_inv, Hs2.
    + intros x s2 _ Hs2. apply parseCell_clean, Hs2.
    + intros s2 _. apply parseCell_clean_at.
Qed.

Lemma parse_template rnd s :
  inv s → Level.map (fst s) = m0 →
  let lv := fst (Level.parse rnd s) in
  Level.tileSize lv = 40 ∧ Level.rows lv = R ∧ Level.cols lv = C ∧
  consumed m0 (Level.map lv) ∧
  ((Level.spawnX lv = 0 ∧ Level.spawnY lv = 0) ∨
   ∃ r c, getTile r c m0 = Some "P"%char ∧ spawnOf r c lv) ∧
  ∀ r c, (0 <= r < R)%Z → (0 <= c < C)%Z →
    marker (getTile r c (Level.map lv)) = false ∧
    (getTile r c m0 = Some "C"%char ↔ coinOf r c ∈ Level.coins lv) ∧
    (getTile r c m0 = Some "H"%char
     ↔ ∃ hz, hz ∈ Level.hazards lv ∧ hazardOf r c hz) ∧
    (getTile r c m0 = Some "P"%char →
     ∃ r' c', getTile r' c' m0 = Some "P"%char ∧ spawnOf r' c' lv).
Proof.
  intros Hi Hm. cbv zeta.
  pose proof (parse_inv rnd s Hi) as (Hts & HR & HC & Hcon & Hco & Hhz & Hsp).
  repeat (split; [assumption|]).
  intros r c Hr Hc.
  pose proof (parse_clean rnd r c s Hi Hr Hc) as Hcl. unfold clean in Hcl.
  assert (Hs0 : served r c s).
  { unfold served. rewrite Hm. auto. }
  pose proof (parse_served rnd r c s Hi Hs0) as (SC & SH & SP).
  assert (Hinj : ∀ a b : Z, inject_Z a * 40 = inject_Z b * 40 → a = b).
  { intros a b H. apply inject_Z_injective.
    assert (H' : inject_Z a * 40 == inject_Z b * 40) by (rewrite H; reflexivity).
    lra. }
  split; [exact Hcl|]. split; [|split].
  - split.
    + intros H. destruct (SC H) as [Hc'|Hc']; [|exact Hc'].
      rewrite Hc' in Hcl. discriminate Hcl.
    + intros H. rewrite Forall_forall in Hco.
      destruct (Hco _ H) as (r' & c' & Hc' & Heq).
      assert (Hx : inject_Z c * 40 + 40 / 2 == inject_Z c' * 40 + 40 / 2)
        by (change (Coin.x (coinOf r c) == Coin.x (coinOf r' c'));
            rewrite Heq; reflexivity).
      assert (Hy : inject_Z r * 40 + 40 / 2 == inject_Z r' * 40 + 40 / 2)
        by (change (Coin.y (coinOf r c) == Coin.y (coinOf r' c'));
            rewrite Heq; reflexivity).
      assert (c = c') by (apply inject_Z_injective; lra).
      assert (r = r') by (apply inject_Z_injective; lra).
      congruence.
  - split.
    + intros H. destruct (SH H) as [Hc'|Hc']; [|exact Hc'].
      rewrite Hc' in Hcl. discriminate Hcl.
    + intros (hz & Hin & Hx & Hy). rewrite Forall_forall in Hhz.
      destruct (Hhz _ Hin) as (r' & c' & Hc' & Hx' & Hy').
      rewrite Hx in Hx'. rewrite Hy in Hy'.
      apply Hinj in Hx', Hy'. congruence.
  - intros H. destruct (SP H) as [Hc'|Hc']; [|exact Hc'].
    rewrite Hc' in Hcl. discriminate Hcl.
Qed.

End Template.

(** The instance has the objects of its template.  A level built from a
    template has one row per string, as many columns as the first string is
    long and tiles of 40; its grid is the template with some markers
    blanked; its spawn point is the corner of a cell marked P, or (0, 0);
    and at every cell within those rows and columns no marker is left, there
    is a coin at the centre exactly when the template has C there, a moving
    hazard based at the cell exactly when the template has H there, and a
    template with P there has the spawn point at such a cell. *)
Theorem instance_has_the_objects_of_its_template rnd n tpl lv n' :
  Level.new rnd n tpl = Some (lv, n') →
  let m0 := list_ascii_of_string <$> tpl in
  Level.tileSize lv = 40 ∧
  Level.rows lv = Z.of_nat (length tpl) ∧
  (∃ row0, tpl !! 0%nat = Some row0 ∧
           Level.cols lv = Z.of_nat (String.length row0)) ∧
  consumed m0 (Level.map lv) ∧
  ((Level.spawnX lv = 0 ∧ Level.spawnY lv = 0) ∨
   ∃ r c, getTile r c m0 = Some "P"%char ∧ spawnOf r c lv) ∧
  ∀ r c, (0 <= r < Level.rows lv)%Z → (0 <= c < Level.cols lv)%Z →
    marker (getTile r c (Level.map lv)) = false ∧
    (getTile r c m0 = Some "C"%char ↔ coinOf r c ∈ Level.coins lv) ∧
    (getTile r c m0 = Some "H"%char
     ↔ ∃ hz, hz ∈ Level.hazards lv ∧ hazardOf r c hz) ∧
    (getTile r c m0 = Some "P"%char →
     ∃ r' c', getTile r' c' m0 = Some "P"%char ∧ spawnOf r' c' lv).
Proof.
  unfold Level.new. intros H. cbv zeta.
  destruct ((list_ascii_of_string <$> tpl) !! 0%nat) as [row0|] eqn:E0;
    [|discriminate].
  simpl in H. injection H as H.
  set (m0 := list_ascii_of_string <$> tpl) in *.
  set (s0 := ({| Level.map := m0; Level.rows := Z.of_nat (length m0);
                 Level.cols := Z.of_nat (length row0); Level.tileSize := 40;
                 Level.spawnX := 0; Level.spawnY := 0; Level.coins := [];
                 Level.hazards := [] |}, n)) in *.
  destruct (parse_template m0 (Z.of_nat (length m0))
              (Z.of_nat (length row0)) rnd s0)
    as (A & B & C & D & E & F).
  { repeat split; simpl; auto using consumed_refl. }
  { reflexivity. }
  rewrite H in A, B, C, D, E, F. simpl in A, B, C, D, E, F.
  split; [exact A|].
  split; [rewrite B; unfold m0; rewrite length_fmap; reflexivity|].
  split.
  { unfold m0 in E0. rewrite list_lookup_fmap in E0.
    destruct (tpl !! 0%nat) as [str|]; [|discriminate E0].
    injection E0 as <-. exists str. split; [reflexivity|].
    rewrite C. f_equal. clear.
    induction str as [|a str IH]; simpl; [reflexivity|].
    rewrite IH. reflexivity. }
  split; [exact D|]. split; [exact E|].
  rewrite B, C. exact F.
Qed.

(** The theorem on the second level: the cell at row 8, column 9 of the
    template holds the moving hazard, and the instance has a hazard based
    there. *)
Lemma instance_has_the_objects_witness :
  ∃ hz, hz ∈ Level.hazards (Resolver.instanceOf (Game.generateLevel 1)) ∧
        hazardOf 8 9 hz.
Proof.
  destruct (instance_has_the_objects_of_its_template Instance.drawsLow 0
              (Game.generateLevel 1)
              (Resolver.instanceOf (Game.generateLevel 1)) 2)
    as (_ & Hr & (row0 & _ & Hc) & _ & _ & H).
  - vm_compute. reflexivity.
  - destruct (H 8%Z 9%Z) as (_ & _ & [Hh _] & _).
    + rewrite Hr. vm_compute. split; [discriminate|reflexivity].
    + assert (Hc' : Level.cols (Resolver.instanceOf (Game.generateLevel 1))
                    = 40%Z) by (vm_compute; reflexivity).
      rewrite Hc'. lia.
    + apply Hh. vm_compute. reflexivity.
Defined.

(** Every level starts ready.  For every index from 0 on and whatever the
    random source, the constructor returns on the generated template, and
    the instance has 12 rows, 40 columns and tiles of 40, its spawn point
    at (40, 400), the cell of the spawn marker blanked, the goal tile in
    place at row 10, column 38 and solid ground all along the bottom
    row. *)
Theorem every_level_starts_ready rnd n index :
  (0 <= index)%Z →
  ∃ lv n',
    Level.new rnd n (Game.generateLevel index) = Some (lv, n') ∧
    Level.rows lv = 12%Z ∧ Level.cols lv = 40%Z ∧ Level.tileSize lv = 40 ∧
    Level.spawnX lv == 40 ∧ Level.spawnY lv == 400 ∧
    getTile 10 1 (Level.map lv) = Some " "%char ∧
    getTile 10 38 (Level.map lv) = Some "F"%char ∧
    (∀ c, (0 <= c < 40)%Z → getTile 11 c (Level.map lv) = Some "#"%char).
Proof.
  intros Hi.
  pose proof (generateGrid_regular index Hi) as (A & B & C & D & E & _ & G).
  unfold Game.gen_height, Game.gen_width in A, B, C, D, E, G.
  change (12 - 2)%Z with 10%Z in D, E, G.
  change (12 - 1)%Z with 11%Z in C.
  change (40 - 2)%Z with 38%Z in E.
  unfold Level.new. cbv zeta. rewrite generateLevel_grid.
  set (m0 := Game.generateGrid index) in *.
  destruct (m0 !! 0%nat) as [row0|] eqn:E0;
    [|apply lookup_ge_None in E0; rewrite A in E0; simpl in E0; lia].
  assert (Hrow0 : length row0 = 40%nat).
  { rewrite Forall_forall in B. apply B.
    eapply list_elem_of_lookup_2, E0. }
  cbn [mbind option_bind]. rewrite A, Hrow0.
  change (Z.of_nat (Z.to_nat 12)) with 12%Z.
  change (Z.of_nat 40) with 40%Z.
  set (s0 := ({| Level.map := m0; Level.rows := 12; Level.cols := 40;
                 Level.tileSize := 40; Level.spawnX := 0; Level.spawnY := 0;
                 Level.coins := []; Level.hazards := [] |}, n)).
  destruct (parse_template m0 12 40 rnd s0)
    as (Hts & HR & HC & Hcon & _ & Hcells).
  { repeat split; simpl; auto using consumed_refl. }
  { reflexivity. }
  destruct (Level.parse rnd s0) as [lv n'].
  change (fst (lv, n')) with lv in *.
  exists lv, n'. split; [reflexivity|].
  split; [exact HR|]. split; [exact HC|]. split; [exact Hts|].
  destruct (Hcells 10%Z 1%Z) as (Hclean & _ & _ & Hsp); [lia..|].
  destruct (Hsp D) as (r' & c' & HP & Hx & Hy).
  destruct (G _ _ HP) as [-> ->].
  split; [rewrite Hx; reflexivity|]. split; [rewrite Hy; reflexivity|].
  assert (Hsame : ∀ r c (a : ascii),
            getTile r c m0 = Some a → marker (Some a) = false →
            getTile r c (Level.map lv) = Some a).
  { intros r c a Ha Hm. destruct (Hcon r c) as [Heq|[Hmk _]].
    - rewrite Heq. exact Ha.
    - rewrite Ha, Hm in Hmk. discriminate Hmk. }
  split.
  { destruct (Hcon 10%Z 1%Z) as [Heq|[_ Hb]]; [|exact Hb].
    rewrite Heq, D in Hclean. discriminate Hclean. }
  split; [apply Hsame; [exact E|reflexivity]|].
  intros c Hc. apply Hsame; [apply C, Hc|reflexivity].
Qed.

(** The theorem on the last of the fifty levels. *)
Lemma every_level_starts_ready_witness :
  ∃ lv n',
    Level.new Instance.drawsLow 0 (Game.generateLevel 49) = Some (lv, n') ∧
    Level.spawnX lv == 40 ∧ Level.spawnY lv == 400.
Proof.
  destruct (every_level_starts_ready Instance.drawsLow 0 49)
    as (lv & n' & A & _ & _ & _ & B & C & _).
  - lia.
  - exists lv, n'. split; [exact A|]. split; [exact B|exact C].
Defined.

Lemma parseCell_drawn rnd n0 y x (s : Level.t * nat) :
  unit rnd →
  let drawn (s : Level.t * nat) :=
    Level.tileSize (fst s) = 40 ∧
    snd s = (n0 + 2 * length (Level.hazards (fst s)))%nat ∧
    Forall (λ hz, 2 <= Hazard.speed hz ∧ Hazard.speed hz <= 3 ∧
                  Hazard.x hz = Hazard.baseX hz ∧
                  Hazard.width hz = 40 ∧ Hazard.height hz = 40 ∧
                  Hazard.range hz == 120)
      (Level.hazards (fst s)) in
  drawn s → drawn (Level.parseCell rnd y x s).
Proof.
  intros Hrnd. cbv zeta. destruct s as [lv n]. simpl.
  intros (Hts & Hn & Hall). unfold Level.parseCell.
  destruct (Level.isCh _ "P"); [simpl; auto|].
  destruct (Level.isCh _ "C"); [simpl; auto|].
  destruct (Level.isCh _ "H"); [|simpl; auto].
  simpl. split; [exact Hts|]. split.
  { rewrite length_app. simpl. lia. }
  apply Forall_app. split; [exact Hall|]. apply Forall_singleton. simpl.
  destruct (Hrnd n) as [H0 H1]. rewrite Hts.
  repeat split; try reflexivity; lra.
Qed.

(** Moving hazards are drawn within bounds.  With a random source whose
    draws are in [0, 1), a level built from a template makes two draws for
    each of its moving hazards and no other, and every moving hazard starts
    at the centre of its patrol with a speed of at least 2 and at most 3,
    a width and a height of one tile and a range of 120, three tiles.  (The
    upper bound is not strict: the sum [2 + Math.random() * 1] of doubles
    rounds to 3 on the highest draws.) *)
Theorem moving_hazards_are_drawn_in_bounds rnd n tpl lv n' :
  unit rnd →
  Level.new rnd n tpl = Some (lv, n') →
  n' = (n + 2 * length (Level.hazards lv))%nat ∧
  Forall (λ hz, 2 <= Hazard.speed hz ∧ Hazard.speed hz <= 3 ∧
                Hazard.x hz = Hazard.baseX hz ∧
                Hazard.width hz = 40 ∧ Hazard.height hz = 40 ∧
                Hazard.range hz == 120)
    (Level.hazards lv).
Proof.
  intros Hrnd. unfold Level.new. intros H.
  destruct ((list_ascii_of_string <$> tpl) !! 0%nat) as [row0|];
    [|discriminate].
  simpl in H. injection H as H.
  pose proof (parseCell_drawn rnd n) as Hcell. cbv zeta in Hcell.
  match type of Hcell with
  | ∀ y x s, _ → ?P s → _ => set (drawn := P) in *
  end.
  assert (HP : (λ s, drawn s) (lv, n')); [|exact (proj2 HP)].
  rewrite <- H. unfold Level.parse.
  apply (forUpTo_inv (λ s, drawn s)).
  { unfold drawn. simpl. split; [reflexivity|]. split; [lia|constructor]. }
  intros y s Hs. apply (forUpTo_inv (λ s, drawn s)); [exact Hs|].
  intros x s' Hs'. apply Hcell; assumption.
Qed.

(** The theorem on the second level with a source that always draws 0: its
    one hazard has the lowest speed. *)
Lemma moving_hazards_witness :
  Forall (λ hz, 2 <= Hazard.speed hz ∧ Hazard.speed hz <= 3 ∧
                Hazard.x hz = Hazard.baseX hz ∧
                Hazard.width hz = 40 ∧ Hazard.height hz = 40 ∧
                Hazard.range hz == 120)
    (Level.hazards (Resolver.instanceOf (Game.generateLevel 1))).
Proof.
  destruct (moving_hazards_are_drawn_in_bounds Instance.drawsLow 0
              (Game.generateLevel 1)
              (Resolver.instanceOf (Game.generateLevel 1)) 2) as [_ H].
  - intros k. vm_compute. split; [discriminate|reflexivity].
  - vm_compute. reflexivity.
  - exact H.
Defined.

End Parsing.

(** ** Friction *)

Section Rest.

Local Open Scope Q_scope.

Ltac if_cases :=
  repeat match goal with
         | |- context [if ?b then _ else _] => destruct b eqn:?
         end.

Ltac q_cases :=
  repeat match goal with
  | H : Qltb _ _ = true |- _ => apply Qltb_lt in H
  | H : Qltb _ _ = false |- _ => apply Qltb_ge in H
  | H : Qgtb _ _ = true |- _ => apply Qgtb_gt in H
  | H : Qgtb _ _ = false |- _ => apply Qgtb_le in H
  end.

(** The speed [v'] is [v] or closer to zero, on the same side. *)
Let calm (v v' : Q) : Prop :=
  (0 <= v → 0 <= v' ∧ v' <= v) ∧ (v <= 0 → v <= v' ∧ v' <= 0).

(** A step that leaves the jump buffer alone and does not speed the body
    up. *)
Let still (p q : Player.t) : Prop :=
  Player.jumpBuffer q = Player.jumpBuffer p ∧
  calm (Player.velX p) (Player.velX q).

Lemma calm_refl v : calm v v.
Proof. unfold calm. split; intros H; split; lra. Qed.

Lemma calm_trans a b c : calm a b → calm b c → calm a c.
Proof.
  unfold calm. intros [A1 A2] [B1 B2]. split; intros H.
  - destruct (A1 H) as [H1 H2]. destruct (B1 H1). split; lra.
  - destruct (A2 H) as [H1 H2]. destruct (B2 H2). split; lra.
Qed.

Lemma still_trans p q r : still p q → still q r → still p r.
Proof.
  intros [A1 A2] [B1 B2]. split; [congruence|].
  eapply calm_trans; eassumption.
Qed.

Lemma applyInput_idle inp (p : Player.t) :
  Input.left inp = false → Input.right inp = false →
  let q := Player.applyInput inp p in
  Player.jumpBuffer q = Player.jumpBuffer p ∧
  calm (0.8 * Player.velX p) (Player.velX q) ∧
  (- (0.0625) < Player.velX p → Player.velX p < 0.0625 →
   Player.velX q == 0).
Proof.
  intros Hl Hr. cbv zeta. unfold Player.applyInput, Player.moveOf.
  rewrite Hl, Hr. cbv zeta.
  change (Qeq_bool 0 0) with true. cbv iota.
  cbn [PlayerState.velX PlayerState.set_velX PlayerState.jumpBuffer].
  set (v1 := (Player.velX p + 0 * Player.acc) * 0.8).
  assert (Hv1 : v1 == 0.8 * Player.velX p) by (unfold v1; ring).
  clearbody v1.
  destruct (Qltb (Qabs v1) 0.05) eqn:E;
    cbn [PlayerState.velX PlayerState.set_velX PlayerState.jumpBuffer].
  - split; [reflexivity|]. split; [|intros _ _; reflexivity].
    unfold calm. split; intros H; split; lra.
  - apply Qltb_ge in E.
    split; [reflexivity|]. split.
    + unfold calm. split; intros H; split; lra.
    + intros H1 H2. exfalso.
      destruct (Qlt_le_dec v1 0) as [Hn|Hp].
      * rewrite Qabs_neg in E by lra. lra.
      * rewrite Qabs_pos in E by lra. lra.
Qed.

Lemma capSpeed_still (p : Player.t) : still p (Player.capSpeed p).
Proof.
  unfold still, calm, Player.capSpeed, Player.maxSpeed.
  if_cases; q_cases; simpl in *; split; try reflexivity;
    split; intros H; split; lra.
Qed.

Lemma startSlide_still inp (p : Player.t) :
  Input.down inp = false → Player.startSlide inp p = p.
Proof.
  intros Hd. unfold Player.startSlide, Player.slideStarts. rewrite Hd.
  rewrite andb_false_r. reflexivity.
Qed.

Lemma handleSlide_still dt inp (p : Player.t) :
  still p (Player.handleSlide dt inp p).
Proof.
  unfold still, calm, Player.handleSlide.
  if_cases; simpl; split; try reflexivity; split; intros H; split; lra.
Qed.

Lemma startDive_still inp (p : Player.t) :
  Input.down inp = false → Player.startDive inp p = p.
Proof.
  intros Hd. unfold Player.startDive. rewrite Hd.
  rewrite andb_false_r. reflexivity.
Qed.

Lemma updateCoyote_still dt (p : Player.t) :
  still p (Player.updateCoyote dt p).
Proof.
  unfold still, Player.updateCoyote.
  if_cases; simpl; split; try reflexivity; apply calm_refl.
Qed.

Lemma integrate_idle dt inp (p : Player.t) :
  Input.left inp = false → Input.right inp = false →
  Input.down inp = false → Input.jumpRequested inp = false →
  Player.jumpBuffer p <= 0 →
  let q := fst (Player.integrate dt inp p) in
  calm (0.8 * Player.velX p) (Player.velX q) ∧
  (- (0.0625) < Player.velX p → Player.velX p < 0.0625 →
   Player.velX q == 0).
Proof.
  intros Hl Hr Hd Hj Hb. cbv zeta. unfold Player.integrate.
  destruct (applyInput_idle inp p Hl Hr) as (B1 & C1 & Z1).
  set (p1 := Player.applyInput inp p) in *.
  pose proof (capSpeed_still p1) as S2.
  rewrite (startSlide_still inp _ Hd).
  pose proof (handleSlide_still dt inp (Player.capSpeed p1)) as S3.
  rewrite (startDive_still inp _ Hd).
  pose proof (updateCoyote_still dt
                (Player.handleSlide dt inp (Player.capSpeed p1))) as S4.
  pose proof (still_trans _ _ _ (still_trans _ _ _ S2 S3) S4) as [B5 C5].
  set (p5 := Player.updateCoyote dt
               (Player.handleSlide dt inp (Player.capSpeed p1))) in *.
  assert (Hb5 : Qgtb (Player.jumpBuffer p5) 0 = false).
  { apply Qgtb_le. rewrite B5, B1. exact Hb. }
  unfold Player.bufferJump, Input.consumeJump. rewrite Hj, Hb5.
  unfold Player.tryJump. rewrite Hb5.
  assert (Hg : Player.velX (Player.applyGravity p5) = Player.velX p5).
  { unfold Player.applyGravity. if_cases; reflexivity. }
  change (fst (Player.applyGravity p5, inp)) with (Player.applyGravity p5).
  rewrite Hg.
  split; [eapply calm_trans; eassumption|].
  intros H1 H2. specialize (Z1 H1 H2).
  destruct C5 as [C5 _]. destruct C5 as [C5 C5']; lra.
Qed.

(** Released keys slow the body down.  With no direction key held, no jump
    requested and none buffered, a tick never speeds the body up sideways
    and never turns it round: the horizontal speed at the end of the tick
    is between zero and 0.8 times the speed before, and a speed of less than
    0.0625 ends at zero. *)
Theorem released_keys_slow_the_body dt inp lv (p : Player.t) out :
  Input.left inp = false → Input.right inp = false →
  Input.down inp = false → Input.jumpRequested inp = false →
  Player.jumpBuffer p <= 0 →
  Player.update dt inp lv p = Some out →
  (0 <= Player.velX p →
   0 <= Player.velX (Player.player out) ∧
   Player.velX (Player.player out) <= 0.8 * Player.velX p) ∧
  (Player.velX p <= 0 →
   0.8 * Player.velX p <= Player.velX (Player.player out) ∧
   Player.velX (Player.player out) <= 0) ∧
  (- (0.0625) < Player.velX p → Player.velX p < 0.0625 →
   Player.velX (Player.player out) == 0).
Proof.
  intros Hl Hr Hd Hj Hb Hup.
  destruct (integrate_idle dt inp p Hl Hr Hd Hj Hb) as [Hc Hz].
  unfold Player.update in Hup.
  destruct (Player.integrate dt inp p) as [q inp'].
  change (fst (q, inp')) with q in Hc, Hz.
  destruct (Level.collide lv q _ _) as [s|] eqn:Es; [|discriminate Hup].
  destruct (collide_velocity _ _ _ _ _ Es) as (Vx & _ & _).
  assert (Hout : Player.velX (Player.player out)
                 = PlayerState.velX (Level.player s)).
  { simpl in Hup.
    repeat match type of Hup with
           | context [if ?b then _ else _] => destruct b
           end;
      injection Hup as <-; reflexivity. }
  rewrite Hout.
  assert (Hc' : calm (0.8 * Player.velX p) (PlayerState.velX (Level.player s))).
  { destruct Vx as [-> | ->]; [exact Hc|].
    unfold calm. split; intros H; split; lra. }
  destruct Hc' as [P N].
  split; [intros H; apply P; lra|]. split; [intros H; apply N; lra|].
  intros H1 H2. specialize (Hz H1 H2).
  destruct Vx as [-> | ->]; [exact Hz|reflexivity].
Qed.

(** The theorem on the first level: a body that runs right at 5 on the
    ground, every key released. *)
Lemma released_keys_witness :
  ∃ out,
    Player.update 1 Input.initial
      (Resolver.instanceOf (Game.generateLevel 0)) (Motion.running 200 400 5)
    = Some out ∧
    0 <= Player.velX (Player.player out) ∧
    Player.velX (Player.player out) <= 0.8 * 5.
Proof.
  assert (H : is_Some (Player.update 1 Input.initial
                         (Resolver.instanceOf (Game.generateLevel 0))
                         (Motion.running 200 400 5)))
    by (vm_compute; eauto).
  destruct H as [out H]. exists out. split; [exact H|].
  destruct (released_keys_slow_the_body 1 Input.initial
              (Resolver.instanceOf (Game.generateLevel 0))
              (Motion.running 200 400 5) out) as ([A B] & _);
    try reflexivity; try exact H.
  - vm_compute. discriminate.
  - vm_compute. discriminate.
  - split; [exact A|exact B].
Defined.

End Rest.
